(** * EDR-Proof: the job store, the phase runners and the VM pool

    A shallow embedding of [tasks/job_manager.py], [tasks/phase1_cdr.py],
    [tasks/phase2_av.py], [tasks/phase3_edr.py], [tasks/vm_pool_manager.py]
    and the cancel endpoint of [app.py], followed by the properties of the
    pipeline specification that are settled against them.

    Conventions.
    - A Python dict that is used as a map is a [gmap]; a dict whose order
      matters for serialisation (a JSON object) is an association list.
    - Code that raises, or that blocks for ever on a lock, runs in the
      monad [M]: a state transformer with the three outcomes [Ok],
      [Raise] and [Hang].
    - [datetime.now()] and [time.time()] read a clock in seconds; a
      datetime is its reading.
    - Python floats are kept as exact rationals; rounding of binary
      floating point is outside the model. *)

From Stdlib Require Import QArith Qround Qcanon.
From stdpp Require Import gmap strings list fin_maps numbers pretty.

Set Warnings "-register-all".

Open Scope string_scope.
Open Scope Z_scope.

(** ** Python values *)

(** What [json.loads] produces and [json.dumps] accepts. A JSON object is
    kept in the order of its keys, as a Python dict is. *)
Inductive json : Type :=
| JNull
| JBool (b : bool)
| JInt (z : Z)
| JFloat (q : Q)
| JStr (s : string)
| JList (l : list json)
| JDict (d : list (string * json)).

(** The values that travel through [JobManager]: the cells of a Redis
    hash (kept decoded), the entries of an [updates] patch and of the dict
    that [get_job] returns. *)
Inductive pyval : Type :=
| PNone
| PBool (b : bool)
| PInt (z : Z)
| PFloat (q : Q)
| PStr (s : string)
| PDatetime (t : Z)
| PJson (j : json).

(** The [json] module is a collaborator of the repository, not part of it:
    it is an interface here. *)
Class JsonCodec : Type := {
  json_dumps : json → string;
  json_loads : string → option json
}.

Inductive exn : Type :=
| KeyError (k : string)
| TypeError
| ValueError
| AttributeError
| JSONDecodeError
| NameError (name : string)
| TimeoutError
| ResponseError            (* Redis: WRONGTYPE *)
| DataError                (* redis-py: a command that cannot be packed *)
| HTTPException (status_code : Z)
| Retry (countdown : Z)    (* celery: raised by self.retry *)
| BackendError (msg : string).

(** ** The monad of effects *)

Inductive outcome (S A : Type) : Type :=
| Ok (a : A) (s : S)
| Raise (e : exn) (s : S)
| Hang (s : S).
Arguments Ok {S A} a s.
Arguments Raise {S A} e s.
Arguments Hang {S A} s.

Definition M (S A : Type) : Type := S → outcome S A.

Definition ret {S A} (a : A) : M S A := λ s, Ok a s.

Definition bind {S A B} (m : M S A) (k : A → M S B) : M S B :=
  λ s, match m s with
       | Ok a s' => k a s'
       | Raise e s' => Raise e s'
       | Hang s' => Hang s'
       end.

Definition raise {S A} (e : exn) : M S A := λ s, Raise e s.
Definition hang {S A} : M S A := λ s, Hang s.
Definition get {S} : M S S := λ s, Ok s s.
Definition put {S} (s : S) : M S unit := λ _, Ok tt s.
Definition modify {S} (f : S → S) : M S unit := λ s, Ok tt (f s).

(** [try: m except Exception as e: h e] *)
Definition try_except {S A} (m : M S A) (h : exn → M S A) : M S A :=
  λ s, match m s with
       | Ok a s' => Ok a s'
       | Raise e s' => h e s'
       | Hang s' => Hang s'
       end.

(** [try: m finally: f]; an exception raised by [f] replaces the pending
    one, as in Python. *)
Definition try_finally {S A} (m : M S A) (f : M S unit) : M S A :=
  λ s, match m s with
       | Ok a s' => match f s' with
                    | Ok _ s'' => Ok a s''
                    | Raise e s'' => Raise e s''
                    | Hang s'' => Hang s''
                    end
       | Raise e s' => match f s' with
                       | Ok _ s'' => Raise e s''
                       | Raise e' s'' => Raise e' s''
                       | Hang s'' => Hang s''
                       end
       | Hang s' => Hang s'
       end.

Notation "'let*' x ':=' m 'in' k" := (bind m (λ x, k))
  (at level 10, x name, m at level 100, k at level 200).
Notation "m1 ;; m2" := (bind m1 (λ _, m2))
  (at level 100, m2 at level 200, right associativity).

(** Run [m] and hand its exception, if any, to the code that follows: the
    way into an [except] clause that needs the locals of the [try] block. *)
Definition attempt {S A} (m : M S A) : M S (exn + A) :=
  λ s, match m s with
       | Ok a s' => Ok (inr a) s'
       | Raise e s' => Ok (inl e) s'
       | Hang s' => Hang s'
       end.

(** [for x in xs: body x] *)
Fixpoint for_each {S A} (xs : list A) (body : A → M S unit) : M S unit :=
  match xs with
  | [] => ret tt
  | x :: xs' => body x ;; for_each xs' body
  end.

Definition final_state {S A} (o : outcome S A) : S :=
  match o with Ok _ s | Raise _ s | Hang s => s end.

(** ** Redis *)

Inductive rvalue : Type :=
| RHash (h : gmap string pyval)
| RList (l : list string).

(** [data] is the key space; [ttl] holds, for the keys that have one, the
    seconds left before the key expires. *)
Record redis : Type := Redis {
  data : gmap string rvalue;
  ttl : gmap string Z
}.

Definition hgetall (key : string) : M redis (gmap string pyval) :=
  λ r, match data r !! key with
       | None => Ok ∅ r
       | Some (RHash h) => Ok h r
       | Some (RList _) => Raise ResponseError r
       end.

(** The values that redis-py encodes for the wire: [bytes], [str], [int]
    and [float]. On [None], on a [bool] and on every other object the
    encoder raises [DataError] while the command is packed, before
    anything is sent. *)
Definition encodable (v : pyval) : bool :=
  match v with
  | PInt _ | PFloat _ | PStr _ => true
  | PNone | PBool _ | PDatetime _ | PJson _ => false
  end.

(** [hset(key, mapping=m)]: the fields of [m] overwrite those stored. A
    mapping without a field, or with a value that cannot be encoded, is
    refused by the client and the store is not reached. *)
Definition hset (key : string) (m : gmap string pyval) : M redis unit :=
  λ r, if decide (size m = 0%nat) then Raise DataError r else
       if negb (bool_decide (map_Forall (λ _ v, encodable v = true) m))
       then Raise DataError r else
       match data r !! key with
       | None => Ok tt (Redis (<[key := RHash m]> (data r)) (ttl r))
       | Some (RHash h) => Ok tt (Redis (<[key := RHash (m ∪ h)]> (data r)) (ttl r))
       | Some (RList _) => Raise ResponseError r
       end.

Definition hincrby (key field : string) (n : Z) : M redis Z :=
  λ r, match data r !! key with
       | None => Ok n (Redis (<[key := RHash {[field := PInt n]}]> (data r)) (ttl r))
       | Some (RHash h) =>
           match h !! field with
           | None => Ok n (Redis (<[key := RHash (<[field := PInt n]> h)]> (data r)) (ttl r))
           | Some (PInt z) =>
               Ok (z + n) (Redis (<[key := RHash (<[field := PInt (z + n)]> h)]> (data r)) (ttl r))
           | Some _ => Raise ResponseError r
           end
       | Some (RList _) => Raise ResponseError r
       end.

Definition lpush (key : string) (x : string) : M redis unit :=
  λ r, match data r !! key with
       | None => Ok tt (Redis (<[key := RList [x]]> (data r)) (ttl r))
       | Some (RList l) => Ok tt (Redis (<[key := RList (x :: l)]> (data r)) (ttl r))
       | Some (RHash _) => Raise ResponseError r
       end.

Definition rpush (key : string) (x : string) : M redis unit :=
  λ r, match data r !! key with
       | None => Ok tt (Redis (<[key := RList [x]]> (data r)) (ttl r))
       | Some (RList l) => Ok tt (Redis (<[key := RList (l ++ [x])%list]> (data r)) (ttl r))
       | Some (RHash _) => Raise ResponseError r
       end.

(** [lrange(key, 0, -1)] *)
Definition lrange_all (key : string) : M redis (list string) :=
  λ r, match data r !! key with
       | None => Ok [] r
       | Some (RList l) => Ok l r
       | Some (RHash _) => Raise ResponseError r
       end.

(** [expire(key, seconds)]: no effect on a key that does not exist. *)
Definition expire (key : string) (seconds : Z) : M redis unit :=
  λ r, match data r !! key with
       | None => Ok tt r
       | Some _ => Ok tt (Redis (data r) (<[key := seconds]> (ttl r)))
       end.

(** [seconds] pass: the keys whose time to live is used up are removed,
    the others are that much closer to expiry; keys without a time to live
    stay. *)
Definition expired (seconds : Z) (t : gmap string Z) (key : string) : bool :=
  match t !! key with
  | Some remaining => bool_decide (remaining ≤ seconds)
  | None => false
  end.

Definition elapse (seconds : Z) (r : redis) : redis :=
  Redis (filter (λ kv, expired seconds (ttl r) kv.1 = false) (data r))
        ((λ remaining, remaining - seconds) <$> filter (λ kv, seconds < kv.2) (ttl r)).

(** [delete(key)] *)
Definition del (key : string) : M redis unit :=
  λ r, Ok tt (Redis (delete key (data r)) (delete key (ttl r))).

(** [lrem(key, 0, x)]: every occurrence of [x] goes; Redis drops a list
    that becomes empty. *)
Definition lrem_all (key : string) (x : string) : M redis unit :=
  λ r, match data r !! key with
       | None => Ok tt r
       | Some (RList l) =>
           let l' := filter (λ y, y ≠ x) l in
           match l' with
           | [] => Ok tt (Redis (delete key (data r)) (delete key (ttl r)))
           | _ => Ok tt (Redis (<[key := RList l']> (data r)) (ttl r))
           end
       | Some (RHash _) => Raise ResponseError r
       end.

(** [datetime.isoformat()] of a clock reading. *)
Definition isoformat (t : Z) : string := pretty t.

(** ** tasks/job_manager.py *)

Module JobManager.
Section defs.
Context `{JsonCodec}.

Definition job_key (job_id : string) : string := "job:" ++ job_id.
Definition phase_key (job_id phase : string) : string :=
  "job:" ++ job_id ++ ":" ++ phase.
Definition jobs_list : string := "jobs:list".

(** Seven days, in seconds. *)
Definition job_ttl : Z := 604800.

Definition create_job (job_id container_name : string)
    (file_paths : option (list string)) (phases : list Z) (priority : string)
    (now : Z) : M redis unit :=
  let job_data : gmap string pyval := list_to_map [
    ("job_id", PStr job_id);
    ("container_name", PStr container_name);
    ("phases", PStr (json_dumps (JList (JInt <$> phases))));
    ("priority", PStr priority);
    ("status", PStr "pending");
    ("created_at", PStr (isoformat now));
    ("total_files", PInt 0);
    ("processed_files", PInt 0);
    ("failed_files", PInt 0);
    ("current_phase", PNone);
    ("progress_percentage", PFloat 0) ] in
  hset (job_key job_id) job_data ;;
  lpush jobs_list job_id ;;
  expire (job_key job_id) job_ttl.

(** The conversions of [get_job]. A hash cell keeps the value that was
    written: the text of an integer is a [PInt], and [int()] fails on
    every other cell as it does on text that is not an integer literal. *)
Definition py_json_loads (v : pyval) : M redis pyval :=
  match v with
  | PStr s => match json_loads s with
              | Some j => ret (PJson j)
              | None => raise JSONDecodeError
              end
  | _ => raise TypeError
  end.

Definition py_int (v : pyval) : M redis pyval :=
  match v with
  | PInt z => ret (PInt z)
  | _ => raise ValueError
  end.

Definition py_float (v : pyval) : M redis pyval :=
  match v with
  | PFloat q => ret (PFloat q)
  | PInt z => ret (PFloat (inject_Z z))
  | _ => raise ValueError
  end.

(** [if field in d: d[field] = f(d[field])] *)
Definition convert (field : string) (f : pyval → M redis pyval)
    (d : gmap string pyval) : M redis (gmap string pyval) :=
  match d !! field with
  | None => ret d
  | Some v => let* v' := f v in ret (<[field := v']> d)
  end.

Definition get_job (job_id : string) : M redis (option (gmap string pyval)) :=
  let* job_data := hgetall (job_key job_id) in
  if decide (size job_data = 0%nat) then ret None else
  let* job_data := convert "phases" py_json_loads job_data in
  let* job_data := convert "total_files" py_int job_data in
  let* job_data := convert "processed_files" py_int job_data in
  let* job_data := convert "failed_files" py_int job_data in
  let* job_data := convert "progress_percentage" py_float job_data in
  ret (Some job_data).

(** [d[k]] *)
Definition getitem (d : gmap string pyval) (k : string) : M redis pyval :=
  match d !! k with
  | Some v => ret v
  | None => raise (KeyError k)
  end.

(** The integer behind a counter of the dict that [get_job] returned. *)
Definition as_int (v : pyval) : M redis Z :=
  match v with
  | PInt z => ret z
  | _ => raise TypeError
  end.

(** The serialisation loop at the head of [update_job]. *)
Definition serialize (v : pyval) : pyval :=
  match v with
  | PDatetime t => PStr (isoformat t)
  | PJson j => PStr (json_dumps j)
  | _ => v
  end.

(** [(processed / total) * 100] *)
Definition percentage (processed total : Z) : Q :=
  (inject_Z processed / inject_Z total * 100)%Q.

(** The tail shared by [update_job] and [increment_processed]. *)
Definition update_progress (job_id : string) : M redis unit :=
  let* job := get_job job_id in
  match job with
  | None => ret tt
  | Some job =>
      let* total := getitem job "total_files" in
      let* total := as_int total in
      if decide (total > 0) then
        let* processed := getitem job "processed_files" in
        let* processed := as_int processed in
        hset (job_key job_id)
             {[ "progress_percentage" := PFloat (percentage processed total) ]}
      else ret tt
  end.

Definition update_job (job_id : string) (updates : gmap string pyval)
    : M redis unit :=
  let updates := serialize <$> updates in
  hset (job_key job_id) updates ;;
  update_progress job_id.

Definition add_file_result (job_id phase : string) (result : json)
    : M redis unit :=
  let result_json := json_dumps result in
  rpush (phase_key job_id phase) result_json.

(** The body of the loop of [get_phase_results]: an entry that does not
    parse is logged and dropped. *)
Definition collect (results : list json) (result_json : string) : list json :=
  match json_loads result_json with
  | Some result => (results ++ [result])%list
  | None => results
  end.

Definition get_phase_results (job_id phase : string) : M redis (list json) :=
  let* results_json := lrange_all (phase_key job_id phase) in
  ret (foldl collect [] results_json).

Definition increment_processed (job_id : string) : M redis unit :=
  hincrby (job_key job_id) "processed_files" 1 ;;
  update_progress job_id.

Definition increment_failed (job_id : string) : M redis unit :=
  hincrby (job_key job_id) "failed_files" 1 ;;
  increment_processed job_id.

Definition terminal_statuses : list string :=
  ["completed"; "failed"; "cancelled"].

(** [status in ['completed', 'failed', 'cancelled']] *)
Definition is_terminal (status : pyval) : bool :=
  match status with
  | PStr s => bool_decide (s ∈ terminal_statuses)
  | _ => false
  end.

Definition cancel_job (job_id : string) (now : Z) : M redis bool :=
  let* job := get_job job_id in
  match job with
  | None => ret false
  | Some job =>
      let* status := getitem job "status" in
      if is_terminal status then ret false else
      update_job job_id
        {[ "status" := PStr "cancelled"; "cancelled_at" := PDatetime now ]} ;;
      ret true
  end.

Definition delete_job (job_id : string) : M redis unit :=
  del (job_key job_id) ;;
  del (phase_key job_id "phase1") ;;
  del (phase_key job_id "phase2") ;;
  del (phase_key job_id "phase3") ;;
  lrem_all jobs_list job_id.

End defs.
End JobManager.

(** ** app.py: [DELETE /api/jobs/{job_id}] *)

Module App.
Section defs.
Context `{JsonCodec}.

Definition cancel_job (job_id : string) (now : Z) : M redis string :=
  try_except
    (let* success := JobManager.cancel_job job_id now in
     if negb success then raise (HTTPException 404)
     else ret ("Job " ++ job_id ++ " cancelled successfully"))
    (λ e, match e with
          | HTTPException code => raise (HTTPException code)
          | _ => raise (HTTPException 500)
          end).

End defs.
End App.

(** ** Dicts and the Python operators the tasks use on parsed JSON *)

(** [d.get(k)] on the association list of a dict. *)
Fixpoint dict_get (d : list (string * json)) (k : string) : option json :=
  match d with
  | [] => None
  | (k', v) :: d' => if decide (k' = k) then Some v else dict_get d' k
  end.

(** [d[k] = v]: an existing key keeps its place, a new one goes last. *)
Fixpoint dict_set (k : string) (v : json) (d : list (string * json))
    : list (string * json) :=
  match d with
  | [] => [(k, v)]
  | (k', v') :: d' =>
      if decide (k' = k) then (k, v) :: d' else (k', v') :: dict_set k v d'
  end.

(** [d.update(u)] *)
Definition dict_update (d u : list (string * json)) : list (string * json) :=
  foldl (λ d kv, dict_set kv.1 kv.2 d) d u.

(** [r.get(k, dflt)]; only a dict has [.get]. *)
Definition jget_default {S} (r : json) (k : string) (dflt : json) : M S json :=
  match r with
  | JDict d => ret (default dflt (dict_get d k))
  | _ => raise AttributeError
  end.

(** [r.get(k)] *)
Definition jget {S} (r : json) (k : string) : M S json :=
  jget_default r k JNull.

(** [v == s] for a string literal [s]. *)
Definition is_str (v : json) (s : string) : bool :=
  match v with
  | JStr s' => bool_decide (s' = s)
  | _ => false
  end.

(** Truth value testing. *)
Definition truthy (v : json) : bool :=
  match v with
  | JNull => false
  | JBool b => b
  | JInt z => negb (z =? 0)
  | JFloat q => negb (Qeq_bool q 0)
  | JStr s => negb (bool_decide (s = ""))
  | JList l => negb (bool_decide (length l = 0%nat))
  | JDict d => negb (bool_decide (length d = 0%nat))
  end.

(** Numbers: [bool] is a subclass of [int]; an [int] meets a [float] as a
    float. *)
Definition to_num (v : json) : option (Z + Q) :=
  match v with
  | JBool b => Some (inl (if b then 1 else 0))
  | JInt z => Some (inl z)
  | JFloat q => Some (inr q)
  | _ => None
  end.

Definition num_Q (n : Z + Q) : Q :=
  match n with inl z => inject_Z z | inr q => q end.

Definition num_json (n : Z + Q) : json :=
  match n with inl z => JInt z | inr q => JFloat q end.

(** [a + b], [a - b] *)
Definition num_add (a b : Z + Q) : Z + Q :=
  match a, b with
  | inl x, inl y => inl (x + y)
  | _, _ => inr (num_Q a + num_Q b)%Q
  end.

Definition num_sub (a b : Z + Q) : Z + Q :=
  match a, b with
  | inl x, inl y => inl (x - y)
  | _, _ => inr (num_Q a - num_Q b)%Q
  end.

(** [a > 0] *)
Definition num_pos (a : Z + Q) : bool :=
  match a with
  | inl x => bool_decide (0 < x)
  | inr q => negb (Qle_bool q 0)
  end.

(** [(a / b * 100) if b > 0 else 0] : true division, so a float. *)
Definition num_pct (a b : Z + Q) : Z + Q :=
  if num_pos b then inr (num_Q a / num_Q b * 100)%Q else inl 0.



(** [a == b] between values of which one is hashable: numbers by value,
    strings and [None] by identity of content, nothing else. *)
Definition py_eq (a b : json) : bool :=
  match to_num a, to_num b with
  | Some x, Some y => Qeq_bool (num_Q x) (num_Q y)
  | None, None =>
      match a, b with
      | JNull, JNull => true
      | JStr s, JStr t => bool_decide (s = t)
      | _, _ => false
      end
  | _, _ => false
  end.

(** [hash(v)] exists. *)
Definition hashable (v : json) : bool :=
  match v with
  | JList _ | JDict _ => false
  | _ => true
  end.

(** [sum(1 for r in rs if p(r))] *)
Fixpoint count_if {S} (p : json → M S bool) (rs : list json) : M S Z :=
  match rs with
  | [] => ret 0
  | r :: rs' =>
      let* b := p r in
      let* n := count_if p rs' in
      ret ((if b then 1 else 0) + n)
  end.

(** [sum(f(r) for r in rs if p(r))], from the integer [0]. *)
Fixpoint sum_if {S} (p : json → M S bool) (f : json → M S json)
    (acc : Z + Q) (rs : list json) : M S (Z + Q) :=
  match rs with
  | [] => ret acc
  | r :: rs' =>
      let* b := p r in
      if b then
        let* v := f r in
        match to_num v with
        | Some n => sum_if p f (num_add acc n) rs'
        | None => raise TypeError
        end
      else sum_if p f acc rs'
  end.

(** [str(e)]. An exception that the interpreter or a library raises with
    a message of its own is kept by its class only, and the name of the
    class stands for its text: what the statements below say of a recorded
    error is that it is [str_exn e], not what that text reads. *)
Definition str_exn (e : exn) : string :=
  match e with
  | KeyError k => "'" ++ k ++ "'"
  | TypeError => "TypeError"
  | ValueError => "ValueError"
  | AttributeError => "AttributeError"
  | JSONDecodeError => "JSONDecodeError"
  | NameError name => "name '" ++ name ++ "' is not defined"
  | TimeoutError => "TimeoutError"
  | ResponseError => "WRONGTYPE"
  | DataError => "DataError"
  | HTTPException code => pretty code
  | Retry countdown => "Retry in " ++ pretty countdown ++ "s"
  | BackendError msg => msg
  end.

(** The result of a call to a collaborator. *)
Definition call {S A} (x : exn + A) : M S A :=
  match x with
  | inl e => raise e
  | inr a => ret a
  end.

(** [[f(x) for x in xs]] with effects, left to right. *)
Fixpoint map_m {S A B} (f : A → M S B) (xs : list A) : M S (list B) :=
  match xs with
  | [] => ret []
  | x :: xs' =>
      let* y := f x in
      let* ys := map_m f xs' in
      ret (y :: ys)
  end.

(** [2 in job.get('phases', [])] and the like, on the dict of [get_job]. *)
Definition phase_enabled {S} (n : Z) (job : gmap string pyval) : M S bool :=
  match job !! "phases" with
  | None => ret false
  | Some (PJson (JList l)) => ret (existsb (py_eq (JInt n)) l)
  | Some (PJson (JDict d)) => ret false
  | Some _ => raise TypeError
  end.

(** ** tasks/phase1_cdr.py *)

Module Phase1.

(** [CDRResult], as the task reads it. *)
Record CDRResult : Type := {
  success : bool;
  sanitized_file_path : string;
  processing_time_ms : json;
  original_size : json;
  sanitized_size : json;
  threats_found : json;
  error_message : json
}.

(** The collaborators of the phase: the blob store and the CDR engines. *)
Record adapters : Type := {
  list_files : string → exn + list string;
  download_file : string → string → exn + string;
  sanitize_file : string → string → exn + CDRResult;
  upload_file : string → string → string → exn + unit
}.

(** The signature [process_single_file_cdr.s(...)] of a unit. *)
Record task : Type := Task {
  job_id : string;
  container_name : string;
  file_path : string;
  engine_name : string
}.

(** The keys of the module-level dict [cdr_engines]. *)
Definition cdr_engines : list string := ["glasswall"; "opswat"; "votiro"].

Section defs.
Context `{JsonCodec}.
Variable env : adapters.

Definition process_cdr_batch (job_id container_name : string)
    (file_paths : option (list string)) (now : Z) : M redis (list task) :=
  try_except
    (JobManager.update_job job_id
       {[ "status" := PStr "running"; "current_phase" := PInt 1;
          "started_at" := PDatetime now ]} ;;
     let* file_paths :=
       match file_paths with
       | None => call (list_files env container_name)
       | Some l => ret l
       end in
     let total_files := Z.of_nat (length file_paths) in
     JobManager.update_job job_id {[ "total_files" := PInt total_files ]} ;;
     let tasks :=
       file_path ← file_paths;
       engine_name ← cdr_engines;
       [Task job_id container_name file_path engine_name] in
     ret tasks)
    (λ e,
     JobManager.update_job job_id
       {[ "status" := PStr "failed"; "error" := PStr (str_exn e) ]} ;;
     raise e).

(** The [except] clause of a unit. *)
Definition unit_failed (job_id : string) (result : list (string * json))
    (ended : Z) (e : exn) : M redis json :=
  let result := dict_update result
    [("status", JStr "error"); ("error", JStr (str_exn e));
     ("end_time", JStr (isoformat ended))] in
  JobManager.add_file_result job_id "phase1" (JDict result) ;;
  JobManager.increment_failed job_id ;;
  ret (JDict result).

(** The unit up to the point where its result dict is complete. *)
Definition sanitize_unit (t : task) (result : list (string * json))
    (ended : Z) : M redis (list (string * json)) :=
  let* local_file_path :=
    call (download_file env (container_name t) (file_path t)) in
  (if bool_decide (engine_name t ∈ cdr_engines) then ret tt
   else raise ValueError) ;;
  let* cdr_result := call (sanitize_file env (engine_name t) local_file_path) in
  if success cdr_result then
    let sanitized_blob_path :=
      "post-cdr/" ++ engine_name t ++ "/" ++ file_path t in
    call (upload_file env (container_name t)
            (sanitized_file_path cdr_result) sanitized_blob_path) ;;
    ret (dict_update result
           [("status", JStr "success");
            ("sanitized_blob_path", JStr sanitized_blob_path);
            ("processing_time_ms", processing_time_ms cdr_result);
            ("file_size_before", original_size cdr_result);
            ("file_size_after", sanitized_size cdr_result);
            ("threats_found", threats_found cdr_result);
            ("end_time", JStr (isoformat ended))])
  else
    ret (dict_update result
           [("status", JStr "failed");
            ("error", error_message cdr_result);
            ("end_time", JStr (isoformat ended))]).

Definition process_single_file_cdr (t : task) (started ended : Z)
    : M redis json :=
  let result :=
    [("job_id", JStr (job_id t)); ("file_path", JStr (file_path t));
     ("engine_name", JStr (engine_name t)); ("status", JStr "pending");
     ("start_time", JStr (isoformat started))] in
  let* r := attempt (sanitize_unit t result ended) in
  match r with
  | inl e => unit_failed (job_id t) result ended e
  | inr result =>
      try_except
        (JobManager.add_file_result (job_id t) "phase1" (JDict result) ;;
         JobManager.increment_processed (job_id t) ;;
         ret (JDict result))
        (unit_failed (job_id t) result ended)
  end.

Definition status_is (s : string) (r : json) : M redis bool :=
  let* st := jget r "status" in ret (is_str st s).

Definition status_in_failed_error (r : json) : M redis bool :=
  let* st := jget r "status" in ret (is_str st "failed" || is_str st "error").

(** Returns whether Phase 2 was scheduled. *)
Definition on_cdr_batch_complete (results : list json) (job_id : string)
    (now : Z) : M redis bool :=
  try_except
    (let total_tasks := Z.of_nat (length results) in
     let* successful := count_if (status_is "success") results in
     let* failed := count_if status_in_failed_error results in
     JobManager.update_job job_id
       {[ "phase1_completed" := PBool true;
          "phase1_summary" := PJson (JDict
            [("total_tasks", JInt total_tasks);
             ("successful", JInt successful);
             ("failed", JInt failed)]) ]} ;;
     let* job := JobManager.get_job job_id in
     let* phase2 :=
       match job with
       | None => ret false
       | Some job => phase_enabled 2 job
       end in
     if phase2 then ret true
     else
       JobManager.update_job job_id
         {[ "status" := PStr "completed"; "completed_at" := PDatetime now ]} ;;
       ret false)
    (λ e,
     JobManager.update_job job_id
       {[ "status" := PStr "failed";
          "error" := PStr ("Phase 1 completion error: " ++ str_exn e) ]} ;;
     ret false).

(** The units of the chord, settled one after the other. *)
Definition run_units (tasks : list task) (clock : Z) : M redis (list json) :=
  map_m (λ t, process_single_file_cdr t clock clock) tasks.

End defs.
End Phase1.

(** ** The file plan shared by Phase 2 and Phase 3 *)

(** A Python [set] of hashable JSON values: the first object added stands
    for all that are equal to it. The list is in order of insertion.
    CPython iterates over a set in the order of its hash table, which
    changes with the contents and, for strings, from one process to the
    next: the loops over a set take that order as a parameter
    [set_order], of which the statements assume only that it rearranges
    the elements. *)
Definition set_add (x : json) (xs : list json) : list json :=
  if existsb (py_eq x) xs then xs else (xs ++ [x])%list.

Module Plan.
Section defs.
Context {S : Type}.
Variable set_order : list json → list json.

(** The first loop: the original files with a successful CDR result. *)
Fixpoint original_files (phase1_results : list json) (acc : list json)
    : M S (list json) :=
  match phase1_results with
  | [] => ret acc
  | result :: rest =>
      let* st := jget result "status" in
      if is_str st "success" then
        let* original_file := jget result "file_path" in
        if hashable original_file
        then original_files rest (set_add original_file acc)
        else raise TypeError
      else original_files rest acc
  end.

(** The inner loop: the post-CDR versions of [original_file]. *)
Fixpoint post_cdr (original_file : json) (phase1_results : list json)
    : M S (list json) :=
  match phase1_results with
  | [] => ret []
  | result :: rest =>
      let* fp := jget result "file_path" in
      let* hit :=
        if py_eq fp original_file then
          let* st := jget result "status" in ret (is_str st "success")
        else ret false in
      let* here :=
        if hit : bool then
          let* sanitized := jget result "sanitized_blob_path" in
          let* engine := jget result "engine_name" in
          ret [JDict [("file_path", sanitized); ("version", JStr "post-cdr");
                      ("cdr_engine", engine);
                      ("original_file", original_file)]]
        else ret [] in
      let* more := post_cdr original_file rest in
      ret (here ++ more)%list
  end.

(** The outer loop over the set. *)
Fixpoint files_for (originals : list json) (phase1_results : list json)
    : M S (list json) :=
  match originals with
  | [] => ret []
  | original_file :: rest =>
      let pre := JDict [("file_path", original_file);
                        ("version", JStr "pre-cdr"); ("cdr_engine", JNull)] in
      let* post := post_cdr original_file phase1_results in
      let* more := files_for rest phase1_results in
      ret (pre :: post ++ more)%list
  end.

Definition plan (phase1_results : list json) : M S (list json) :=
  let* originals := original_files phase1_results [] in
  files_for (set_order originals) phase1_results.

End defs.
End Plan.

(** ** tasks/phase2_av.py *)

Module Phase2.

(** The signature [scan_single_file_av.s(...)] of a unit. *)
Record task : Type := Task {
  job_id : string;
  container_name : pyval;
  file_info : json;
  av_engine_name : string
}.

(** The keys of the module-level dict [av_engines]. *)
Definition av_engines : list string := ["opswat"; "reversinglabs"].

Section defs.
Context `{JsonCodec}.
Variable set_order : list json → list json.

Definition scan_av_batch (job_id : string) (now : Z) : M redis (list task) :=
  try_except
    (JobManager.update_job job_id
       {[ "current_phase" := PInt 2; "phase2_started_at" := PDatetime now ]} ;;
     let* job := JobManager.get_job job_id in
     let* container_name :=
       match job with
       | None => raise AttributeError
       | Some job => ret (default PNone (job !! "container_name"))
       end in
     let* phase1_results := JobManager.get_phase_results job_id "phase1" in
     let* files_to_scan := Plan.plan set_order phase1_results in
     let tasks :=
       file_info ← files_to_scan;
       av_engine_name ← av_engines;
       [Task job_id container_name file_info av_engine_name] in
     ret tasks)
    (λ e,
     JobManager.update_job job_id
       {[ "status" := PStr "failed"; "error" := PStr (str_exn e) ]} ;;
     raise e).

End defs.
End Phase2.

(** ** tasks/vm_pool_manager.py *)

Module VMPool.

Record VMInfo : Type := {
  vm_name : string;
  resource_group : string;
  edr_solution : string;
  status : string;
  public_ip : string;
  private_ip : string;
  created_at : Z;
  last_used_at : option Z;
  use_count : Z
}.

(** The dict that [acquire_vm] hands to its caller. *)
Record vm_dict : Type := {
  d_vm_name : string;
  d_resource_group : string;
  d_public_ip : string;
  d_private_ip : string;
  d_edr_solution : string
}.

(** A call that reached the Azure backend. *)
Inductive azure_call : Type :=
| CreateVM (name : string)
| DeleteVM (name : string)
| RunCleanup (name : string).

(** The Azure compute and network clients: for a VM name, the outcome of
    creating the VM with its NIC and addresses, of deleting it, and of the
    cleanup script. *)
Record azure : Type := {
  begin_create_or_update : string → exn + (string * string);
  begin_delete : string → exn + unit;
  begin_run_command : string → exn + unit
}.

(** The pool. [VMInfo] objects are shared between [all_vms] and the
    queues and are mutated in place, so both hold addresses into [heap].
    [vm_lock] tells whether the [threading.Lock] is held; [threads] are
    the cleaning threads that were started and have not run yet. *)
Record pool : Type := Pool {
  heap : gmap nat VMInfo;
  all_vms : gmap string nat;
  pools : gmap string (list nat);
  vm_lock : bool;
  threads : list nat;
  calls : list azure_call;
  clock : Z
}.

Definition set_heap (f : gmap nat VMInfo → gmap nat VMInfo) (p : pool) : pool :=
  Pool (f (heap p)) (all_vms p) (pools p) (vm_lock p) (threads p) (calls p) (clock p).
Definition set_all_vms (f : gmap string nat → gmap string nat) (p : pool) : pool :=
  Pool (heap p) (f (all_vms p)) (pools p) (vm_lock p) (threads p) (calls p) (clock p).
Definition set_pools (f : gmap string (list nat) → gmap string (list nat))
    (p : pool) : pool :=
  Pool (heap p) (all_vms p) (f (pools p)) (vm_lock p) (threads p) (calls p) (clock p).
Definition set_vm_lock (b : bool) (p : pool) : pool :=
  Pool (heap p) (all_vms p) (pools p) b (threads p) (calls p) (clock p).
Definition set_threads (f : list nat → list nat) (p : pool) : pool :=
  Pool (heap p) (all_vms p) (pools p) (vm_lock p) (f (threads p)) (calls p) (clock p).
Definition log_call (c : azure_call) (p : pool) : pool :=
  Pool (heap p) (all_vms p) (pools p) (vm_lock p) (threads p)
       (calls p ++ [c])%list (clock p).
Definition set_clock (f : Z → Z) (p : pool) : pool :=
  Pool (heap p) (all_vms p) (pools p) (vm_lock p) (threads p) (calls p) (f (clock p)).

(** The three queues that [__init__] creates, empty. *)
Definition init_pool (now : Z) : pool :=
  Pool ∅ ∅ (list_to_map [("crowdstrike", []); ("sentinelone", []); ("sophos", [])])
       false [] [] now.

(** [with self.vm_lock: body]. [threading.Lock] is not reentrant: taking
    it while it is held blocks, for ever when the holder is the caller
    itself. The lock is released when the block is left, by [return] or by
    an exception alike. *)
Definition with_lock {A} (body : M pool A) : M pool A :=
  λ p, if vm_lock p then Hang p else
       match body (set_vm_lock true p) with
       | Ok a p' => Ok a (set_vm_lock false p')
       | Raise e p' => Raise e (set_vm_lock false p')
       | Hang p' => Hang p'
       end.

(** A fresh object. *)
Definition alloc (v : VMInfo) : M pool nat :=
  λ p, let a := fresh (dom (heap p)) in Ok a (set_heap <[a := v]> p).

(** Attribute access through a reference. *)
Definition deref (a : nat) : M pool VMInfo :=
  λ p, match heap p !! a with
       | Some v => Ok v p
       | None => Raise AttributeError p
       end.

Definition update_obj (a : nat) (f : VMInfo → VMInfo) : M pool unit :=
  modify (set_heap (alter f a)).

Definition with_status (s : string) (v : VMInfo) : VMInfo :=
  {| vm_name := vm_name v; resource_group := resource_group v;
     edr_solution := edr_solution v; status := s;
     public_ip := public_ip v; private_ip := private_ip v;
     created_at := created_at v; last_used_at := last_used_at v;
     use_count := use_count v |}.

(** The three assignments of [acquire_vm]. *)
Definition mark_in_use (now : Z) (v : VMInfo) : VMInfo :=
  {| vm_name := vm_name v; resource_group := resource_group v;
     edr_solution := edr_solution v; status := "in_use";
     public_ip := public_ip v; private_ip := private_ip v;
     created_at := created_at v; last_used_at := Some now;
     use_count := use_count v + 1 |}.

(** [self.pools[edr].put(a)] *)
Definition queue_put (edr : string) (a : nat) : M pool unit :=
  λ p, match pools p !! edr with
       | None => Raise (KeyError edr) p
       | Some q => Ok tt (set_pools <[edr := (q ++ [a])%list]> p)
       end.

(** [self.pools[edr].get(timeout=timeout)]: with nobody to fill an empty
    queue the wait runs out and [Empty] is raised, which [acquire_vm]
    turns into [TimeoutError]. *)
Definition queue_get (edr : string) (timeout : Z) : M pool nat :=
  λ p, match pools p !! edr with
       | None => Raise (KeyError edr) p
       | Some [] => Raise TimeoutError (set_clock (Z.add timeout) p)
       | Some (a :: q) => Ok a (set_pools <[edr := q]> p)
       end.

Definition now : M pool Z := λ p, Ok (clock p) p.
Definition sleep (seconds : Z) : M pool unit := modify (set_clock (Z.add seconds)).
Definition azure_do {A} (c : azure_call) (r : exn + A) : M pool A :=
  modify (log_call c) ;; call r.

(** [f"{i:02d}"] *)
Definition pad2 (i : Z) : string :=
  if decide (0 ≤ i < 10) then "0" ++ pretty i else pretty i.

Section defs.
Variable cloud : azure.
(** [self.max_vm_uses], [self.base_images], the configured resource group *)
Variable max_vm_uses : Z.
Variable base_images : gmap string string.
Variable azure_resource_group : string.

Definition _provision_vm (name edr : string) : M pool nat :=
  match base_images !! edr with
  | None => raise ValueError
  | Some base_image_id =>
      if decide (base_image_id = "") then raise ValueError else
      let* ips := azure_do (CreateVM name) (begin_create_or_update cloud name) in
      let* t := now in
      alloc {| vm_name := name; resource_group := azure_resource_group;
               edr_solution := edr; status := "available";
               public_ip := ips.1; private_ip := ips.2;
               created_at := t; last_used_at := None; use_count := 0 |}
  end.

(** One turn of the loop of [_provision_pool]. *)
Definition provision_one (edr : string) (i : Z) : M pool unit :=
  try_except
    (let* t := now in
     let name := "edr-test-" ++ edr ++ "-" ++ pad2 i ++ "-" ++ pretty t in
     let* vm_info := _provision_vm name edr in
     with_lock (modify (set_all_vms <[name := vm_info]>)) ;;
     queue_put edr vm_info)
    (λ e, ret tt).

Definition _provision_pool (edr : string) (pool_size : nat) : M pool unit :=
  for_each (Z.of_nat <$> seq 0 pool_size) (provision_one edr).

Definition acquire_vm (edr : string) (timeout : Z) : M pool vm_dict :=
  let* vm_info := queue_get edr timeout in
  with_lock
    (let* t := now in update_obj vm_info (mark_in_use t)) ;;
  let* v := deref vm_info in
  ret {| d_vm_name := vm_name v; d_resource_group := resource_group v;
         d_public_ip := public_ip v; d_private_ip := private_ip v;
         d_edr_solution := edr_solution v |}.

Definition _delete_vm (vm_info : nat) : M pool unit :=
  let* v := deref vm_info in
  azure_do (DeleteVM (vm_name v)) (begin_delete cloud (vm_name v)).

(** [del self.all_vms[name]] *)
Definition del_tracked (name : string) : M pool unit :=
  λ p, match all_vms p !! name with
       | None => Raise (KeyError name) p
       | Some _ => Ok tt (set_all_vms (delete name) p)
       end.

Definition _recycle_vm (vm_info : nat) : M pool unit :=
  try_except
    (_delete_vm vm_info ;;
     let* v := deref vm_info in
     let* t := now in
     let new_vm_name := "edr-test-" ++ edr_solution v ++ "-" ++ pretty t in
     let* new_vm_info := _provision_vm new_vm_name (edr_solution v) in
     with_lock
       (del_tracked (vm_name v) ;;
        modify (set_all_vms <[new_vm_name := new_vm_info]>)) ;;
     queue_put (edr_solution v) new_vm_info)
    (λ e, ret tt).

Definition _run_cleanup_script (vm_info : nat) : M pool unit :=
  let* v := deref vm_info in
  azure_do (RunCleanup (vm_name v)) (begin_run_command cloud (vm_name v)).

(** The body of the thread that [release_vm] starts. *)
Definition _clean_and_return_vm (vm_info : nat) : M pool unit :=
  try_except
    (_run_cleanup_script vm_info ;;
     sleep 10 ;;
     with_lock (update_obj vm_info (with_status "available")) ;;
     let* v := deref vm_info in
     queue_put (edr_solution v) vm_info)
    (λ e, _recycle_vm vm_info).

(** [threading.Thread(target=..., args=(vm_info,)).start()] *)
Definition start_thread (vm_info : nat) : M pool unit :=
  modify (set_threads (λ ts, ts ++ [vm_info])%list).

Definition release_vm (vm : vm_dict) (clean : bool) : M pool unit :=
  let name := d_vm_name vm in
  let edr := d_edr_solution vm in
  with_lock
    (let* p := get in
     match all_vms p !! name with
     | None => ret tt
     | Some vm_info =>
         let* v := deref vm_info in
         if decide (max_vm_uses ≤ use_count v) then _recycle_vm vm_info
         else if clean then
           update_obj vm_info (with_status "cleaning") ;;
           start_thread vm_info
         else
           update_obj vm_info (with_status "available") ;;
           queue_put edr vm_info
     end).

(** The scheduler runs the oldest cleaning thread that was started. *)
Definition run_thread : M pool unit :=
  let* p := get in
  match threads p with
  | [] => ret tt
  | vm_info :: rest =>
      put (set_threads (λ _, rest) p) ;;
      _clean_and_return_vm vm_info
  end.

End defs.
End VMPool.

(** ** tasks/phase3_edr.py *)

Module Phase3.

(** The names bound at module level: what the [import] statements bring
    in and what the module defines. A global name that is neither here nor
    a builtin raises [NameError] when it is evaluated. *)
Definition module_globals : list string :=
  [ "Task"; "group"; "chord";                     (* from celery import ... *)
    "List"; "Dict"; "Any";                        (* from typing import ... *)
    "logging";
    "datetime";                                   (* from datetime import datetime *)
    "time";
    "celery_app"; "JobManager"; "VMPoolManager";
    "CrowdStrikeClient"; "SentinelOneClient"; "SophosClient";
    "FileExecutor"; "AzureBlobManager"; "ConfigManager";
    "logger"; "config_manager"; "blob_manager"; "job_manager";
    "vm_pool_manager"; "edr_clients"; "file_executor";
    "test_edr_batch"; "test_single_file_edr"; "on_edr_batch_complete";
    "calculate_edr_effectiveness" ].

Definition lookup_global {S} (name : string) : M S unit :=
  if bool_decide (name ∈ module_globals) then ret tt
  else raise (NameError name).

(** The keys of the module-level dict [edr_clients]. *)
Definition edr_clients : list string := ["crowdstrike"; "sentinelone"; "sophos"].

(** [max_retries=3] of the task decorator. *)
Definition max_retries : Z := 3.

(** A call [get_alerts(host_name, start_time, end_time)] that reached the
    console of [q_edr]. *)
Record edr_query : Type := Query {
  q_edr : string;
  q_host : string;
  q_from : Z;
  q_to : Z
}.

(** The collaborators of a unit; each answer may depend on the time of the
    call. *)
Record adapters : Type := {
  download_file : Z → pyval → json → exn + string;
  run_execute : Z → string → string → exn + unit;
  get_alerts : Z → edr_query → exn + list json
}.

(** The state a unit runs in: the job store, the VM pool (whose clock is
    the clock of the process), the queries sent to EDR consoles, and the
    locals [result] and [vm] that the [except] and [finally] clauses read. *)
Record frame : Type := Frame {
  store : redis;
  vms : VMPool.pool;
  queries : list edr_query;
  result : list (string * json);
  vm : option VMPool.vm_dict
}.

Definition on_store {A} (m : M redis A) : M frame A :=
  λ f, let k r := Frame r (vms f) (queries f) (result f) (vm f) in
       match m (store f) with
       | Ok a r => Ok a (k r)
       | Raise e r => Raise e (k r)
       | Hang r => Hang (k r)
       end.

Definition on_pool {A} (m : M VMPool.pool A) : M frame A :=
  λ f, let k p := Frame (store f) p (queries f) (result f) (vm f) in
       match m (vms f) with
       | Ok a p => Ok a (k p)
       | Raise e p => Raise e (k p)
       | Hang p => Hang (k p)
       end.

Definition set_result (g : list (string * json) → list (string * json))
    : M frame unit :=
  modify (λ f, Frame (store f) (vms f) (queries f) (g (result f)) (vm f)).

Definition set_vm (v : VMPool.vm_dict) : M frame unit :=
  modify (λ f, Frame (store f) (vms f) (queries f) (result f) (Some v)).

Definition log_query (q : edr_query) : M frame unit :=
  modify (λ f, Frame (store f) (vms f) (queries f ++ [q])%list (result f) (vm f)).

(** [result = {...}] and [vm = None] at the head of the task. *)
Definition put_locals (r : list (string * json)) : M frame unit :=
  modify (λ f, Frame (store f) (vms f) (queries f) r None).

Definition get_result : M frame (list (string * json)) := λ f, Ok (result f) f.
Definition get_vm : M frame (option VMPool.vm_dict) := λ f, Ok (vm f) f.
Definition now : M frame Z := on_pool VMPool.now.

(** [d[k]] on a JSON object. *)
Definition jitem {S} (d : json) (k : string) : M S json :=
  match d with
  | JDict l => match dict_get l k with
               | Some v => ret v
               | None => raise (KeyError k)
               end
  | _ => raise TypeError
  end.

(** [path.split('/')[-1]] *)
Fixpoint basename_from (acc : string) (path : string) : string :=
  match path with
  | EmptyString => acc
  | String c rest =>
      if decide (c = Ascii.ascii_of_nat 47) then basename_from "" rest
      else basename_from (acc ++ String c "") rest
  end.

(** [VMPoolManager.copy_file_to_vm]: computes the remote path, copies
    nothing. *)
Definition copy_file_to_vm (v : VMPool.vm_dict) (local_file_path : string)
    : string :=
  "C:\test-files\" ++ basename_from "" local_file_path.

(** [sum(1 for a in alerts if a.get('severity') == 'high')] *)
Definition severity_high {S} (a : json) : M S bool :=
  let* sev := jget a "severity" in ret (is_str sev "high").

(** [set(a.get('threat_type') for a in alerts if a.get('threat_type'))] *)
Fixpoint threat_type_set {S} (alerts : list json) (acc : list json)
    : M S (list json) :=
  match alerts with
  | [] => ret acc
  | a :: rest =>
      let* t := jget a "threat_type" in
      if truthy t then
        let* t := jget a "threat_type" in
        if hashable t then threat_type_set rest (set_add t acc)
        else raise TypeError
      else threat_type_set rest acc
  end.

Section defs.
Context `{JsonCodec}.
Variable env : adapters.
Variable cloud : VMPool.azure.
Variable max_vm_uses : Z.
Variable base_images : gmap string string.
Variable azure_resource_group : string.

(** [VMPoolManager.execute_file_on_vm]: the script sleeps for
    [duration_seconds] on the VM and the call waits for it. *)
Definition execute_file_on_vm (v : VMPool.vm_dict) (remote_file_path : string)
    (duration_seconds : Z) : M frame json :=
  let* t := now in
  call (run_execute env t (VMPool.d_vm_name v) remote_file_path) ;;
  on_pool (VMPool.sleep duration_seconds) ;;
  ret (JDict [("success", JBool true)]).

(** The [try] block of [test_single_file_edr]. *)
Definition try_block (job_id : string) (container_name : pyval)
    (file_path : json) (edr_solution_name : string) : M frame json :=
  let* v := on_pool (VMPool.acquire_vm edr_solution_name 3600) in
  set_vm v ;;
  set_result (dict_set "vm_name" (JStr (VMPool.d_vm_name v))) ;;
  let* t := now in
  set_result (dict_set "vm_acquired_at" (JStr (isoformat t))) ;;
  let* t := now in
  let* local_file_path := call (download_file env t container_name file_path) in
  let remote_file_path := copy_file_to_vm v local_file_path in
  let* execution_start := now in
  let* execution_result := execute_file_on_vm v remote_file_path 300 in
  let* execution_end := now in
  set_result (dict_set "execution_started_at" (JStr (isoformat execution_start))) ;;
  set_result (dict_set "execution_ended_at" (JStr (isoformat execution_end))) ;;
  let* ok := jget_default execution_result "success" (JBool false) in
  set_result (dict_set "execution_success" ok) ;;
  on_pool (VMPool.sleep 60) ;;
  (if bool_decide (edr_solution_name ∈ edr_clients) then ret tt
   else raise AttributeError) ;;
  lookup_global "timedelta" ;;
  let q := Query edr_solution_name (VMPool.d_vm_name v)
                 execution_start (execution_end + 60) in
  log_query q ;;
  let* t := now in
  let* alerts := call (get_alerts env t q) in
  let alert_count := Z.of_nat (length alerts) in
  let* high_severity_alerts := count_if severity_high alerts in
  let* threat_types := threat_type_set alerts [] in
  let* t := now in
  set_result (λ r, dict_update r
    [("status", JStr "success");
     ("alert_count", JInt alert_count);
     ("high_severity_alerts", JInt high_severity_alerts);
     ("threat_types", JList threat_types);
     ("alerts", JList (take 10 alerts));
     ("edr_detected", JBool (bool_decide (alert_count > 0)));
     ("end_time", JStr (isoformat t))]) ;;
  let* r := get_result in
  on_store (JobManager.add_file_result job_id "phase3" (JDict r)) ;;
  ret (JDict r).

(** The [except Exception as e] clause; [retries] is
    [self.request.retries]. [self.retry] raises [Retry]. *)
Definition except_block (job_id : string) (retries : Z) (e : exn)
    : M frame json :=
  let* t := now in
  set_result (λ r, dict_update r
    [("status", JStr "error"); ("error", JStr (str_exn e));
     ("end_time", JStr (isoformat t))]) ;;
  let* r := get_result in
  on_store (JobManager.add_file_result job_id "phase3" (JDict r)) ;;
  if decide (retries < max_retries) then raise (Retry 60)
  else ret (JDict r).

(** The [finally] clause. *)
Definition finally_block : M frame unit :=
  let* v := get_vm in
  match v with
  | None => ret tt
  | Some v =>
      try_except
        (on_pool (VMPool.release_vm cloud max_vm_uses base_images
                    azure_resource_group v true))
        (λ _, ret tt)
  end.

Definition test_single_file_edr (retries : Z) (job_id : string)
    (container_name : pyval) (file_info : json) (edr_solution_name : string)
    : M frame json :=
  let* file_path := jitem file_info "file_path" in
  let* version := jitem file_info "version" in
  let* cdr_engine := jget file_info "cdr_engine" in
  let* original_file := jget file_info "original_file" in
  let* t := now in
  put_locals
    [("job_id", JStr job_id); ("file_path", file_path); ("version", version);
     ("cdr_engine", cdr_engine); ("original_file", original_file);
     ("edr_solution_name", JStr edr_solution_name);
     ("status", JStr "pending"); ("start_time", JStr (isoformat t))] ;;
  try_finally
    (try_except
       (try_block job_id container_name file_path edr_solution_name)
       (except_block job_id retries))
    finally_block.

(** The cleaning threads that were started run to their end. *)
Definition run_threads : M frame unit :=
  let* f := get in
  for_each (VMPool.threads (vms f))
    (λ _, on_pool (VMPool.run_thread cloud base_images azure_resource_group)).

(** The worker. A task that raised [Retry] is run again after the
    countdown with [self.request.retries] one higher; the cleaning threads
    have finished by then. The answer is the result of the last attempt
    with the number of attempts; [None] when [fuel] attempts were not
    enough. *)
Fixpoint run_task (fuel : nat) (retries : Z) (job_id : string)
    (container_name : pyval) (file_info : json) (edr_solution_name : string)
    : M frame (option (json * Z)) :=
  match fuel with
  | O => ret None
  | Datatypes.S fuel' =>
      let* r := attempt (test_single_file_edr retries job_id container_name
                           file_info edr_solution_name) in
      match r with
      | inr res => ret (Some (res, retries + 1))
      | inl (Retry countdown) =>
          on_pool (VMPool.sleep countdown) ;;
          run_threads ;;
          run_task fuel' (retries + 1) job_id container_name file_info
                   edr_solution_name
      | inl e => raise e
      end
  end.

(** [r.get(k) == s] *)
Definition field_is (k s : string) (r : json) : M redis bool :=
  let* v := jget r k in ret (is_str v s).



Definition alert_count_of (r : json) : M redis json :=
  jget_default r "alert_count" (JInt 0).

(** [[r for r in rs if p(r)]] *)
Fixpoint filter_m (p : json → M redis bool) (rs : list json)
    : M redis (list json) :=
  match rs with
  | [] => ret []
  | r :: rs' =>
      let* b := p r in
      let* rest := filter_m p rs' in
      ret (if b : bool then r :: rest else rest)
  end.

Definition always (r : json) : M redis bool := ret true.

Definition calculate_edr_effectiveness (results : list json)
    (edr_solution : string) : M redis json :=
  let* edr_results := filter_m (field_is "edr_solution_name" edr_solution) results in
  let* pre_cdr := filter_m (field_is "version" "pre-cdr") edr_results in
  let* post_cdr := filter_m (field_is "version" "post-cdr") edr_results in
  let* pre_alerts := sum_if always alert_count_of (inl 0) pre_cdr in
  let* post_alerts := sum_if always alert_count_of (inl 0) post_cdr in
  ret (JDict
    [("tests_performed", JInt (Z.of_nat (length edr_results)));
     ("pre_cdr_alerts", num_json pre_alerts);
     ("post_cdr_alerts", num_json post_alerts);
     ("alert_reduction", num_json (num_sub pre_alerts post_alerts));
     ("alert_reduction_pct",
      num_json (num_pct (num_sub pre_alerts post_alerts) pre_alerts))]).


End defs.
End Phase3.

(** ** A reference JSON codec

    A printer in the layout of [json.dumps] (separators [", "] and
    [": "]) and a recursive-descent reader, for the values without
    floats; a float is written as the fraction it stands for. It is the
    instance at which the statements below are exercised. *)

Module RefJson.

Definition chr (n : nat) : Ascii.ascii := Ascii.ascii_of_nat n.
Definition dquote : Ascii.ascii := chr 34.
Definition backslash : Ascii.ascii := chr 92.

Fixpoint escape (s : string) : string :=
  match s with
  | EmptyString => EmptyString
  | String c r =>
      if (Ascii.eqb c dquote || Ascii.eqb c backslash)%bool
      then String backslash (String c (escape r))
      else String c (escape r)
  end.

Definition quoted (s : string) : string :=
  String dquote (escape s ++ String dquote "").

Fixpoint print (j : json) : string :=
  match j with
  | JNull => "null"
  | JBool true => "true"
  | JBool false => "false"
  | JInt z => pretty z
  | JFloat q => pretty (Qnum q) ++ "/" ++ pretty (Z.pos (Qden q))
  | JStr s => quoted s
  | JList l =>
      "[" ++ (fix items (l : list json) : string :=
                match l with
                | [] => ""
                | [x] => print x
                | x :: r => print x ++ ", " ++ items r
                end) l ++ "]"
  | JDict d =>
      "{" ++ (fix members (d : list (string * json)) : string :=
                match d with
                | [] => ""
                | [(k, v)] => quoted k ++ ": " ++ print v
                | (k, v) :: r => quoted k ++ ": " ++ print v ++ ", " ++ members r
                end) d ++ "}"
  end.

Fixpoint skip_ws (s : string) : string :=
  match s with
  | String c r => if Ascii.eqb c (chr 32) then skip_ws r else s
  | EmptyString => EmptyString
  end.

Definition digit (c : Ascii.ascii) : option Z :=
  let n := Z.of_nat (Ascii.nat_of_ascii c) in
  if decide (48 ≤ n ≤ 57) then Some (n - 48) else None.

Fixpoint digits (acc : Z) (s : string) : Z * string :=
  match s with
  | String c r =>
      match digit c with
      | Some d => digits (acc * 10 + d) r
      | None => (acc, s)
      end
  | EmptyString => (acc, EmptyString)
  end.

Definition natural (s : string) : option (Z * string) :=
  match s with
  | String c _ =>
      match digit c with
      | Some _ => Some (digits 0 s)
      | None => None
      end
  | EmptyString => None
  end.

Definition integer (s : string) : option (Z * string) :=
  match s with
  | String c r =>
      if Ascii.eqb c (chr 45) then
        match natural r with
        | Some (n, r') => Some (- n, r')
        | None => None
        end
      else natural s
  | EmptyString => None
  end.

Definition number (s : string) : option (json * string) :=
  match integer s with
  | Some (n, String c r) =>
      if Ascii.eqb c (chr 47) then
        match natural r with
        | Some (Zpos d, r') => Some (JFloat (n # d), r')
        | _ => None
        end
      else Some (JInt n, String c r)
  | Some (n, EmptyString) => Some (JInt n, EmptyString)
  | None => None
  end.

Fixpoint string_body (acc : string) (s : string) : option (string * string) :=
  match s with
  | EmptyString => None
  | String c r =>
      if Ascii.eqb c dquote then Some (acc, r)
      else if Ascii.eqb c backslash then
        match r with
        | String c2 r2 => string_body (acc ++ String c2 "") r2
        | EmptyString => None
        end
      else string_body (acc ++ String c "") r
  end.

Fixpoint strip (p s : string) : option string :=
  match p, s with
  | EmptyString, _ => Some s
  | String a p', String b s' => if Ascii.eqb a b then strip p' s' else None
  | _, _ => None
  end.

Definition keyword (p : string) (v : json) (s : string) : option (json * string) :=
  match strip p s with
  | Some r => Some (v, r)
  | None => None
  end.

Fixpoint value (fuel : nat) (s : string) : option (json * string) :=
  match fuel with
  | O => None
  | Datatypes.S n =>
      match skip_ws s with
      | EmptyString => None
      | String c r =>
          if Ascii.eqb c (chr 110) then keyword "ull" JNull r
          else if Ascii.eqb c (chr 116) then keyword "rue" (JBool true) r
          else if Ascii.eqb c (chr 102) then keyword "alse" (JBool false) r
          else if Ascii.eqb c dquote then
            match string_body "" r with
            | Some (str, r') => Some (JStr str, r')
            | None => None
            end
          else if Ascii.eqb c (chr 91) then
            match skip_ws r with
            | String c' r' =>
                if Ascii.eqb c' (chr 93) then Some (JList [], r')
                else match elements n (String c' r') with
                     | Some (l, r'') => Some (JList l, r'')
                     | None => None
                     end
            | EmptyString => None
            end
          else if Ascii.eqb c (chr 123) then
            match skip_ws r with
            | String c' r' =>
                if Ascii.eqb c' (chr 125) then Some (JDict [], r')
                else match members n (String c' r') with
                     | Some (d, r'') => Some (JDict d, r'')
                     | None => None
                     end
            | EmptyString => None
            end
          else number (String c r)
      end
  end
with elements (fuel : nat) (s : string) : option (list json * string) :=
  match fuel with
  | O => None
  | Datatypes.S n =>
      match value n s with
      | None => None
      | Some (v, r) =>
          match skip_ws r with
          | String c r' =>
              if Ascii.eqb c (chr 44) then
                match elements n r' with
                | Some (vs, r'') => Some (v :: vs, r'')
                | None => None
                end
              else if Ascii.eqb c (chr 93) then Some ([v], r')
              else None
          | EmptyString => None
          end
      end
  end
with members (fuel : nat) (s : string) : option (list (string * json) * string) :=
  match fuel with
  | O => None
  | Datatypes.S n =>
      match skip_ws s with
      | String c r =>
          if Ascii.eqb c dquote then
            match string_body "" r with
            | None => None
            | Some (k, r1) =>
                match skip_ws r1 with
                | String c1 r2 =>
                    if Ascii.eqb c1 (chr 58) then
                      match value n r2 with
                      | None => None
                      | Some (v, r3) =>
                          match skip_ws r3 with
                          | String c3 r4 =>
                              if Ascii.eqb c3 (chr 44) then
                                match members n r4 with
                                | Some (d, r5) => Some ((k, v) :: d, r5)
                                | None => None
                                end
                              else if Ascii.eqb c3 (chr 125) then Some ([(k, v)], r4)
                              else None
                          | EmptyString => None
                          end
                      end
                    else None
                | EmptyString => None
                end
            end
          else None
      | EmptyString => None
      end
  end.

Definition parse (s : string) : option json :=
  match value (2 * String.length s + 2) s with
  | Some (v, r) =>
      match skip_ws r with
      | EmptyString => Some v
      | _ => None
      end
  | None => None
  end.

Definition codec : JsonCodec :=
  {| json_dumps := print; json_loads := parse |}.

End RefJson.

(** ** Vocabulary of the statements *)

(** The hash stored under [job:<id>], if there is one. *)
Definition job_record (r : redis) (job_id : string) : option (gmap string pyval) :=
  match data r !! JobManager.job_key job_id with
  | Some (RHash h) => Some h
  | _ => None
  end.

Definition job_field (r : redis) (job_id field : string) : option pyval :=
  h ← job_record r job_id; h !! field.

(** The entries of the list stored under [job:<id>:<phase>]. *)
Definition phase_list (r : redis) (job_id phase : string) : list string :=
  match data r !! JobManager.phase_key job_id phase with
  | Some (RList l) => l
  | _ => []
  end.

(** A record with the fields that [create_job] lays out for the queries
    and the counters, each of the type it is given there. *)
Definition well_formed `{JsonCodec} (h : gmap string pyval) : Prop :=
  (∃ s, h !! "status" = Some (PStr s)) ∧
  (∃ z, h !! "total_files" = Some (PInt z)) ∧
  (∃ z, h !! "processed_files" = Some (PInt z)) ∧
  (∃ z, h !! "failed_files" = Some (PInt z)) ∧
  (∃ q, h !! "progress_percentage" = Some (PFloat q)) ∧
  (∃ s j, h !! "phases" = Some (PStr s) ∧ json_loads s = Some j).

(** The key [job:<id>] is free or holds a well-formed record. *)
Definition job_ok `{JsonCodec} (r : redis) (job_id : string) : Prop :=
  match data r !! JobManager.job_key job_id with
  | None => True
  | Some (RHash h) => well_formed h
  | Some (RList _) => False
  end.

Definition set_record (r : redis) (job_id : string) (h : gmap string pyval) : redis :=
  Redis (<[JobManager.job_key job_id := RHash h]> (data r)) (ttl r).

(** What [update_progress] leaves of a well-formed record. *)
Definition refresh (h : gmap string pyval) : gmap string pyval :=
  match h !! "total_files", h !! "processed_files" with
  | Some (PInt total), Some (PInt processed) =>
      if decide (total > 0)
      then <["progress_percentage" := PFloat (JobManager.percentage processed total)]> h
      else h
  | _, _ => h
  end.

Definition counter (r : redis) (job_id field : string) : Z :=
  match job_field r job_id field with
  | Some (PInt z) => z
  | _ => 0
  end.


(** A job that [cancel_job] can still cancel: it has a record, and the
    status of the record is not one of the three terminal ones. *)
Definition cancellable (r : redis) (job_id : string) : bool :=
  match job_field r job_id "status" with
  | Some status => negb (JobManager.is_terminal status)
  | None => false
  end.


(** The patch that [cancel_job] applies. *)
Definition cancel_patch (now : Z) : gmap string pyval :=
  {[ "status" := PStr "cancelled"; "cancelled_at" := PDatetime now ]}.

(** ** Concrete scenarios *)

(** The store as [create_job] means to leave it: the record of the job,
    its id at the head of [jobs:list] and seven days for the record to
    live. The record has no [current_phase]: that field is a [None], which
    the client refuses (see [hset]), so [create_job] itself writes nothing
    and the scenarios start from records put into the store this way. *)
Definition seeded `{JsonCodec} (job_id container_name : string)
    (phases : list Z) (priority : string) (now : Z) (r : redis) : redis :=
  final_state
    ((hset (JobManager.job_key job_id)
        (list_to_map [
           ("job_id", PStr job_id);
           ("container_name", PStr container_name);
           ("phases", PStr (json_dumps (JList (JInt <$> phases))));
           ("priority", PStr priority);
           ("status", PStr "pending");
           ("created_at", PStr (isoformat now));
           ("total_files", PInt 0);
           ("processed_files", PInt 0);
           ("failed_files", PInt 0);
           ("progress_percentage", PFloat 0) ]) ;;
      lpush JobManager.jobs_list job_id ;;
      expire (JobManager.job_key job_id) JobManager.job_ttl) r).

Module Scenario.

(** A job with a fresh record, under the reference codec. *)
Definition fresh_job : redis :=
  @seeded RefJson.codec "j1" "test-files" [1; 2; 3] "normal" 100 (Redis ∅ ∅).

End Scenario.

(** [well_formed] and [job_ok] as tests that run. *)
Definition well_formedb `{JsonCodec} (h : gmap string pyval) : bool :=
  match h !! "status", h !! "total_files", h !! "processed_files",
        h !! "failed_files", h !! "progress_percentage", h !! "phases" with
  | Some (PStr _), Some (PInt _), Some (PInt _), Some (PInt _),
    Some (PFloat _), Some (PStr s) =>
      match json_loads s with Some _ => true | None => false end
  | _, _, _, _, _, _ => false
  end.

Definition job_okb `{JsonCodec} (r : redis) (job_id : string) : bool :=
  match data r !! JobManager.job_key job_id with
  | None => true
  | Some (RHash h) => well_formedb h
  | Some (RList _) => false
  end.

Module Scenario2.

Definition cdr_success : json :=
  JDict [("file_path", JStr "a.pdf"); ("engine_name", JStr "glasswall");
         ("status", JStr "success");
         ("sanitized_blob_path", JStr "post-cdr/glasswall/a.pdf")].

(** The fresh job with one Phase-1 result appended. *)
Definition with_result : redis :=
  final_state
    (@JobManager.add_file_result RefJson.codec "j1" "phase1" cdr_success
       Scenario.fresh_job).

(** Eight days later. *)
Definition eight_days_on : redis := elapse 691200 with_result.

End Scenario2.

Module Scenario3.

Definition cdr_failed : json :=
  JDict [("file_path", JStr "b.docx"); ("engine_name", JStr "votiro");
         ("status", JStr "failed"); ("error", JNull); ("threats_found", JInt 0);
         ("notes", JList [JStr "a \ b"; JBool false])].

(** A store whose Phase-1 list holds an entry that is not JSON. *)
Definition with_garbage : redis :=
  final_state (rpush (JobManager.phase_key "j1" "phase1") "{not json"
                 Scenario2.with_result).

End Scenario3.

(** [m] neither changes the state nor blocks. *)
Definition reads_only {S A} (m : M S A) : Prop :=
  ∀ s, (∃ a, m s = Ok a s) ∨ (∃ e, m s = Raise e s).

(** A patch that the client takes: once [update_job] has serialised the
    datetimes, lists and dicts, every value can be encoded. *)
Definition storable `{JsonCodec} (m : gmap string pyval) : Prop :=
  map_Forall (λ _ v, encodable (JobManager.serialize v) = true) m.

(** A patch for [update_job] that leaves the counters, the phases and the
    progress alone, whose status, if it has one, is a string, and that the
    client takes. *)
Definition harmless `{JsonCodec} (m : gmap string pyval) : Prop :=
  m !! "total_files" = None ∧ m !! "processed_files" = None ∧
  m !! "failed_files" = None ∧ m !! "progress_percentage" = None ∧
  m !! "phases" = None ∧
  (m !! "status" = None ∨ ∃ s, m !! "status" = Some (PStr s)) ∧
  storable m.

Module Scenario4.

(** The record of the fresh job. *)
Definition fresh_record : gmap string pyval :=
  default ∅ (job_record Scenario.fresh_job "j1").

(** The fresh job, cancelled through [cancel_job]. *)
Definition cancelled_job : redis :=
  final_state (@JobManager.cancel_job RefJson.codec "j1" 160 Scenario.fresh_job).

(** Two results of Phase-3 units, as the chord hands them to the
    callback. *)
Definition edr_results : list json :=
  [ JDict [("file_path", JStr "a.pdf"); ("version", JStr "pre-cdr");
           ("edr_solution_name", JStr "sophos"); ("status", JStr "success");
           ("alert_count", JInt 4); ("edr_detected", JBool true)];
    JDict [("file_path", JStr "post-cdr/glasswall/a.pdf");
           ("version", JStr "post-cdr");
           ("edr_solution_name", JStr "sophos"); ("status", JStr "success");
           ("alert_count", JInt 1); ("edr_detected", JBool true)] ].

End Scenario4.

(** A computation that either writes status [s] into the record of the
    job or raises before touching the store. *)
Definition writes_status (s : string) (job_id : string) (r : redis)
    (m : M redis unit) : Prop :=
  (∃ h', m r = Ok tt (set_record r job_id h') ∧ h' !! "status" = Some (PStr s))
  ∨ (∃ e, m r = Raise e r).

(** The state of a job while the units of Phase 1 settle: a well-formed
    record with the three counters at [total], [processed] and [failed],
    and a Phase-1 list of [n] entries. *)
Definition counting `{JsonCodec} (r : redis) (job_id : string)
    (total processed failed : Z) (n : nat) : Prop :=
  ∃ h, data r !! JobManager.job_key job_id = Some (RHash h)
    ∧ well_formed h
    ∧ h !! "total_files" = Some (PInt total)
    ∧ h !! "processed_files" = Some (PInt processed)
    ∧ h !! "failed_files" = Some (PInt failed)
    ∧ (∀ h0, data r !! JobManager.phase_key job_id "phase1" ≠ Some (RHash h0))
    ∧ length (phase_list r job_id "phase1") = n.

Module Scenario5.

(** Collaborators that always succeed: every download, sanitisation and
    upload goes through. *)
Definition all_good : Phase1.adapters :=
  {| Phase1.list_files := λ _, inr ["a.pdf"];
     Phase1.download_file := λ _ path, inr ("/tmp/" ++ path);
     Phase1.sanitize_file := λ engine local,
       inr {| Phase1.success := true;
              Phase1.sanitized_file_path := local ++ ".clean";
              Phase1.processing_time_ms := JInt 12;
              Phase1.original_size := JInt 2048;
              Phase1.sanitized_size := JInt 1024;
              Phase1.threats_found := JInt 0;
              Phase1.error_message := JNull |};
     Phase1.upload_file := λ _ _ _, inr tt |}.

(** Phase 1 of the fresh job, whose request names the single file
    [a.pdf]: the batch task, then its units. *)
Definition dispatched : outcome redis (list Phase1.task) :=
  @Phase1.process_cdr_batch RefJson.codec all_good "j1" "test-files"
    (Some ["a.pdf"]) 110 Scenario.fresh_job.

Definition tasks : list Phase1.task :=
  match dispatched with Ok ts _ => ts | _ => [] end.

Definition settled : redis :=
  final_state
    (@Phase1.run_units RefJson.codec all_good tasks 120 (final_state dispatched)).

End Scenario5.

(** ** The file plan, as a function *)

(** The value a hashable JSON value is hashed and compared by: numbers by
    their value, strings by their text, [None] alone. *)
Inductive pykey : Type :=
| KNone
| KNum (q : Qc)
| KStr (s : string).

#[global] Instance pykey_eq_dec : EqDecision pykey.
Proof. solve_decision. Defined.

#[global] Instance pykey_countable : Countable pykey :=
  inj_countable'
    (λ k, match k with
          | KNone => inl tt
          | KNum q => inr (inl q)
          | KStr s => inr (inr s)
          end)
    (λ x, match x with
          | inl _ => KNone
          | inr (inl q) => KNum q
          | inr (inr s) => KStr s
          end)
    (λ k, match k with KNone | KNum _ | KStr _ => eq_refl end).

Definition key_of (v : json) : pykey :=
  match to_num v with
  | Some n => KNum (Q2Qc (num_Q n))
  | None => match v with JStr s => KStr s | _ => KNone end
  end.

Definition is_dict (r : json) : bool :=
  match r with JDict _ => true | _ => false end.

(** [r.get(k)] when [r] is known to be a dict. *)
Definition field (r : json) (k : string) : json :=
  match r with
  | JDict d => default JNull (dict_get d k)
  | _ => JNull
  end.

Definition is_success (r : json) : bool := is_str (field r "status") "success".

(** The successful Phase-1 results and the paths of their original
    files. *)
Definition successes (results : list json) : list json :=
  List.filter is_success results.

Definition success_paths (results : list json) : list json :=
  (λ r, field r "file_path") <$> successes results.

(** [S]: the successful Phase-1 results; [U]: the distinct original files
    among them. *)
Definition S_count (results : list json) : nat := length (successes results).

Definition U_count (results : list json) : nat :=
  size (list_to_set (key_of <$> success_paths results) : gset pykey).

(** [result.get('file_path') == original_file and
    result.get('status') == 'success'] *)
Definition matches (original_file : json) (r : json) : bool :=
  py_eq (field r "file_path") original_file && is_success r.

Definition pre_of (original_file : json) : json :=
  JDict [("file_path", original_file); ("version", JStr "pre-cdr");
         ("cdr_engine", JNull)].

Definition post_of (original_file : json) (r : json) : json :=
  JDict [("file_path", field r "sanitized_blob_path");
         ("version", JStr "post-cdr");
         ("cdr_engine", field r "engine_name");
         ("original_file", original_file)].

(** The element of the set of originals that stands for the file of the
    result [res]: the one equal to its [file_path]. *)
Definition original_of (originals : list json) (res : json) : json :=
  default JNull (List.find (py_eq (field res "file_path")) originals).

Definition files_of (originals results : list json) : list json :=
  original_file ← originals;
  pre_of original_file :: (post_of original_file <$> List.filter (matches original_file) results).

Definition originals_of (results : list json) (acc : list json) : list json :=
  foldl (λ acc r, if is_success r then set_add (field r "file_path") acc else acc)
        acc results.

(** The version a unit of Phase 2 scans. *)
Definition scans (version : string) (t : Phase2.task) : bool :=
  is_str (field (Phase2.file_info t) "version") version.

(** How often the key [k] occurs among the keys of [paths]. *)
Definition occ (k : pykey) (paths : list json) : nat :=
  length (List.filter (λ p, bool_decide (key_of p = k)) paths).

(** The set being filled, as a fold over the paths. *)
Definition dedup_into (acc paths : list json) : list json :=
  foldl (λ acc p, set_add p acc) acc paths.

Definition has_version (version : string) (file_info : json) : bool :=
  is_str (field file_info "version") version.

(** [m] writes under [key] at most: when it returns, every other key of
    the store holds what it held. *)
Definition writes_only {A} (key : string) (m : M redis A) : Prop :=
  ∀ r a r', m r = Ok a r' → ∀ k, k ≠ key → data r' !! k = data r !! k.

Module Scenario6.

(** Phase 1 has left five results for two files: every engine succeeded
    on [a.pdf], and [votiro] failed on [b.docx]. *)
Definition phase1_result (path engine status : string) : json :=
  JDict [("job_id", JStr "j1"); ("file_path", JStr path);
         ("engine_name", JStr engine); ("status", JStr status);
         ("sanitized_blob_path", JStr ("post-cdr/" ++ engine ++ "/" ++ path))].

Definition phase1_results : list json :=
  [ phase1_result "a.pdf" "glasswall" "success";
    phase1_result "a.pdf" "opswat" "success";
    phase1_result "a.pdf" "votiro" "success";
    phase1_result "b.docx" "glasswall" "success";
    phase1_result "b.docx" "opswat" "success";
    JDict [("job_id", JStr "j1"); ("file_path", JStr "b.docx");
           ("engine_name", JStr "votiro"); ("status", JStr "failed");
           ("error", JStr "unsupported")] ].

Definition after_phase1 : redis :=
  final_state
    (for_each phase1_results
       (@JobManager.add_file_result RefJson.codec "j1" "phase1")
       Scenario.fresh_job).

(** An order in which the set of originals may come out: here the last
    file added comes first. *)
Definition set_order : list json → list json := reverse.

Definition dispatched : outcome redis (list Phase2.task) :=
  @Phase2.scan_av_batch RefJson.codec set_order "j1" 500 after_phase1.

Definition tasks : list Phase2.task :=
  match dispatched with Ok ts _ => ts | _ => [] end.

End Scenario6.

Module Scenario7.

(** A backend on which every call succeeds. *)
Definition cloud : VMPool.azure :=
  {| VMPool.begin_create_or_update := λ name, inr ("20.0.0.1", "10.0.0.1");
     VMPool.begin_delete := λ _, inr tt;
     VMPool.begin_run_command := λ _, inr tt |}.

Definition base_images : gmap string string :=
  {[ "sophos" := "/images/sophos-base" ]}.

(** [max_vm_uses = 3], one VM in the pool of [sophos]. *)
Definition max_vm_uses : Z := 3.

Definition provisioned : VMPool.pool :=
  final_state
    (VMPool._provision_pool cloud base_images "rg-edr" "sophos" 1
       (VMPool.init_pool 1000)).

(** One use of the VM: acquire, release with cleaning, and the cleaning
    thread runs to its end. *)
Definition use_once (p : VMPool.pool) : VMPool.pool :=
  match VMPool.acquire_vm "sophos" 3600 p with
  | Ok vm p1 =>
      final_state
        (VMPool.run_thread cloud base_images "rg-edr"
           (final_state
              (VMPool.release_vm cloud max_vm_uses base_images "rg-edr" vm true p1)))
  | _ => p
  end.

(** The third acquisition, after two uses. *)
Definition third_acquire : outcome VMPool.pool VMPool.vm_dict :=
  VMPool.acquire_vm "sophos" 3600 (use_once (use_once provisioned)).

Definition held : VMPool.pool := final_state third_acquire.

Definition vm : VMPool.vm_dict :=
  match third_acquire with
  | Ok d _ => d
  | _ => {| VMPool.d_vm_name := ""; VMPool.d_resource_group := "";
            VMPool.d_public_ip := ""; VMPool.d_private_ip := "";
            VMPool.d_edr_solution := "" |}
  end.

(** The third release. *)
Definition third_release : outcome VMPool.pool unit :=
  VMPool.release_vm cloud max_vm_uses base_images "rg-edr" vm true held.

(** A VM that the pool does not track. *)
Definition stranger : VMPool.vm_dict :=
  {| VMPool.d_vm_name := "edr-test-sophos-99-1";
     VMPool.d_resource_group := "rg-edr";
     VMPool.d_public_ip := "20.0.0.9"; VMPool.d_private_ip := "10.0.0.9";
     VMPool.d_edr_solution := "sophos" |}.

End Scenario7.

(** [m] leaves the component [g] of the state as it was, however it
    ends. *)
Definition preserves {S A B} (g : S → B) (m : M S A) : Prop :=
  ∀ s, g (final_state (m s)) = g s.

(** [m] does not return. *)
Definition never_returns {S A} (m : M S A) : Prop :=
  ∀ s a s', m s ≠ Ok a s'.

(** What the world outside the worker sees of a frame: the job store and
    the queries that reached the EDR consoles. *)
Definition outside (f : Phase3.frame) : redis * list Phase3.edr_query :=
  (Phase3.store f, Phase3.queries f).

(** The key of a phase list does not hold a hash: [rpush] on it is
    accepted. *)
Definition appendable (r : redis) (job_id phase : string) : Prop :=
  ∀ h, data r !! JobManager.phase_key job_id phase ≠ Some (RHash h).

(** The record that the [except] clause of a Phase-3 unit builds from the
    locals. *)
Definition error_record (e : exn) (f : Phase3.frame) : list (string * json) :=
  dict_update (Phase3.result f)
    [("status", JStr "error"); ("error", JStr (str_exn e));
     ("end_time", JStr (isoformat (VMPool.clock (Phase3.vms f))))].

(** A Phase-3 unit on one file, with one [sophos] VM in the pool and
    [max_vm_uses = 20]. *)
Module Scenario8.

Definition max_vm_uses : Z := 20.

(** The blob has gone: every download fails. *)
Definition no_blob : Phase3.adapters :=
  {| Phase3.download_file := λ _ _ _, inl (BackendError "BlobNotFound");
     Phase3.run_execute := λ _ _ _, inr tt;
     Phase3.get_alerts := λ _ _, inr [] |}.

(** Every collaborator answers, and the console has an alert to report. *)
Definition all_good : Phase3.adapters :=
  {| Phase3.download_file := λ _ _ _, inr "/tmp/edr/a.pdf";
     Phase3.run_execute := λ _ _ _, inr tt;
     Phase3.get_alerts := λ _ _,
       inr [JDict [("severity", JStr "high"); ("threat_type", JStr "trojan")]] |}.

Definition file_info : json :=
  JDict [("file_path", JStr "a.pdf"); ("version", JStr "pre-cdr");
         ("cdr_engine", JNull); ("original_file", JStr "a.pdf")].

Definition start : Phase3.frame :=
  Phase3.Frame Scenario.fresh_job Scenario7.provisioned [] [] None.

(** The unit, dispatched once and run by the worker until it settles. *)
Definition unit_run (env : Phase3.adapters)
    : outcome Phase3.frame (option (json * Z)) :=
  @Phase3.run_task RefJson.codec env Scenario7.cloud max_vm_uses
    Scenario7.base_images "rg-edr" 4 0 "j1" (PStr "test-files") file_info
    "sophos" start.

Definition answer (env : Phase3.adapters) : option (json * Z) :=
  match unit_run env with
  | Ok o _ => o
  | _ => None
  end.

Definition settled (env : Phase3.adapters) : Phase3.frame :=
  final_state (unit_run env).

(** The [status] and [error] fields of the records of the Phase-3 list. *)
Definition verdicts (f : Phase3.frame) : list (option json * option json) :=
  (λ r, match r with
        | JDict d => (dict_get d "status", dict_get d "error")
        | _ => (None, None)
        end)
  <$> omap (@json_loads RefJson.codec) (phase_list (Phase3.store f) "j1" "phase3").

End Scenario8.

(** ** tasks/job_manager.py: listing and statistics *)

(** [lrange(key, start, stop)] as Redis does it: both ends count, a
    negative index counts from the end of the list, and the range is cut
    to the list. *)
Definition lrange (key : string) (start stop : Z) : M redis (list string) :=
  λ r, match data r !! key with
       | None => Ok [] r
       | Some (RList l) =>
           let llen := Z.of_nat (length l) in
           let start := if decide (start < 0) then llen + start else start in
           let stop := if decide (stop < 0) then llen + stop else stop in
           let start := if decide (start < 0) then 0 else start in
           if decide (stop < start ∨ llen ≤ start) then Ok [] r else
           let stop := if decide (llen ≤ stop) then llen - 1 else stop in
           Ok (take (Z.to_nat (stop - start + 1)) (drop (Z.to_nat start) l)) r
       | Some (RHash _) => Raise ResponseError r
       end.

Module JobQueries.

(** The dict that [get_job_results] builds, and what a [.get] on it can
    answer. *)
Inductive entry : Type :=
| EJob (job : gmap string pyval)
| EResults (results : list json)
| EStr (s : string).

(** [d.get(k, dflt)] on that dict. *)
Fixpoint entry_get (d : list (string * entry)) (k : string) (dflt : entry)
    : entry :=
  match d with
  | [] => dflt
  | (k', v) :: d' => if decide (k' = k) then v else entry_get d' k dflt
  end.

Record statistics : Type := {
  total_jobs : Z;
  completed_jobs : Z;
  running_jobs : Z;
  failed_jobs : Z;
  pending_jobs : Z;
  total_files : Z;
  processed_files : Z
}.

Section defs.
Context `{JsonCodec}.
Import JobManager.

(** The loop of [list_jobs]; [get_job] answers [None] or a dict that is
    not empty, so [if job] is the test for [None]. *)
Fixpoint collect_jobs (job_ids : list string) (jobs : list (gmap string pyval))
    : M redis (list (gmap string pyval)) :=
  match job_ids with
  | [] => ret jobs
  | job_id :: rest =>
      let* job := get_job job_id in
      match job with
      | Some job => collect_jobs rest (jobs ++ [job])%list
      | None => collect_jobs rest jobs
      end
  end.

Definition list_jobs (limit : Z) : M redis (list (gmap string pyval)) :=
  let* job_ids := lrange jobs_list 0 (limit - 1) in
  collect_jobs job_ids [].

Definition get_job_results (job_id : string)
    : M redis (option (list (string * entry))) :=
  let* job := get_job job_id in
  match job with
  | None => ret None
  | Some job =>
      let* phase1 := get_phase_results job_id "phase1" in
      let* phase2 := get_phase_results job_id "phase2" in
      let* phase3 := get_phase_results job_id "phase3" in
      ret (Some [("job", EJob job);
                 ("phase1_results", EResults phase1);
                 ("phase2_results", EResults phase2);
                 ("phase3_results", EResults phase3)])
  end.

(** [j['status'] == s] *)
Definition status_eq (s : string) (j : gmap string pyval) : M redis bool :=
  let* st := getitem j "status" in
  ret (match st with
       | PStr s' => bool_decide (s' = s)
       | _ => false
       end).

(** [sum(1 for j in jobs if p(j))] *)
Fixpoint count_jobs (p : gmap string pyval → M redis bool)
    (jobs : list (gmap string pyval)) : M redis Z :=
  match jobs with
  | [] => ret 0
  | j :: rest =>
      let* b := p j in
      let* n := count_jobs p rest in
      ret ((if b : bool then 1 else 0) + n)
  end.

(** [sum(j[field] for j in jobs)] *)
Fixpoint sum_field (field : string) (jobs : list (gmap string pyval))
    : M redis Z :=
  match jobs with
  | [] => ret 0
  | j :: rest =>
      let* v := getitem j field in
      let* z := as_int v in
      let* n := sum_field field rest in
      ret (z + n)
  end.

Definition get_statistics : M redis statistics :=
  let* all_jobs := list_jobs 1000 in
  let* completed := count_jobs (status_eq "completed") all_jobs in
  let* running := count_jobs (status_eq "running") all_jobs in
  let* failed := count_jobs (status_eq "failed") all_jobs in
  let* pending := count_jobs (status_eq "pending") all_jobs in
  let* total_files := sum_field "total_files" all_jobs in
  let* processed_files := sum_field "processed_files" all_jobs in
  ret {| total_jobs := Z.of_nat (length all_jobs);
         completed_jobs := completed;
         running_jobs := running;
         failed_jobs := failed;
         pending_jobs := pending;
         total_files := total_files;
         processed_files := processed_files |}.

End defs.
End JobQueries.

(** ** app.py: the endpoints that read *)

Module Api.

(** The body of the answer of [GET /api/jobs/{job_id}/results]. *)
Record results_response : Type := {
  rr_job_id : string;
  rr_status : JobQueries.entry;
  rr_results : list (string * JobQueries.entry)
}.

(** [except HTTPException: raise / except Exception as e: raise
    HTTPException(500)] *)
Definition http_errors {A} (m : M redis A) : M redis A :=
  try_except m
    (λ e, match e with
          | HTTPException code => raise (HTTPException code)
          | _ => raise (HTTPException 500)
          end).

(** [priority_map.get(priority, 5)] *)
Definition get_celery_priority (priority : string) : Z :=
  default 5 (({[ "low" := 3; "normal" := 5; "high" := 7 ]} : gmap string Z)
             !! priority).

Section defs.
Context `{JsonCodec}.

Definition list_jobs (limit : Z) : M redis (list (gmap string pyval)) :=
  try_except (JobQueries.list_jobs limit) (λ e, raise (HTTPException 500)).

Definition get_job_status (job_id : string) : M redis (gmap string pyval) :=
  http_errors
    (let* job := JobManager.get_job job_id in
     match job with
     | None => raise (HTTPException 404)
     | Some job => ret job
     end).

Definition get_job_results (job_id : string) : M redis results_response :=
  http_errors
    (let* results := JobQueries.get_job_results job_id in
     match results with
     | None => raise (HTTPException 404)
     | Some results =>
         ret {| rr_job_id := job_id;
                rr_status :=
                  JobQueries.entry_get results "status" (JobQueries.EStr "unknown");
                rr_results := results |}
     end).

End defs.
End Api.

(** The number of jobs of a list that have status [s]. *)
Definition has_status (s : string) (j : gmap string pyval) : bool :=
  match j !! "status" with
  | Some (PStr s') => bool_decide (s' = s)
  | _ => false
  end.

Definition with_status (s : string) (jobs : list (gmap string pyval)) : Z :=
  Z.of_nat (length (List.filter (has_status s) jobs)).

(** Two jobs, the older one cancelled. *)
Module Scenario9.

Definition two_jobs : redis :=
  final_state
    (@JobManager.cancel_job RefJson.codec "j1" 300
       (@seeded RefJson.codec "j2" "test-files" [1] "high" 200
          (@seeded RefJson.codec "j1" "test-files" [1; 2; 3] "normal" 100
             (Redis ∅ ∅)))).

Definition jobs (limit : Z) : list (gmap string pyval) :=
  match @JobQueries.list_jobs RefJson.codec limit two_jobs with
  | Ok jobs _ => jobs
  | _ => []
  end.

Definition stats : JobQueries.statistics :=
  match @JobQueries.get_statistics RefJson.codec two_jobs with
  | Ok st _ => st
  | _ => JobQueries.Build_statistics 0 0 0 0 0 0 0
  end.

Definition response : Api.results_response :=
  match @Api.get_job_results RefJson.codec "j1" two_jobs with
  | Ok resp _ => resp
  | _ => Api.Build_results_response "" (JobQueries.EStr "") []
  end.

End Scenario9.

(** The keys that [delete_job] deletes or rewrites. *)
Definition job_keys (job_id : string) : list string :=
  [JobManager.job_key job_id; JobManager.phase_key job_id "phase1";
   JobManager.phase_key job_id "phase2"; JobManager.phase_key job_id "phase3";
   JobManager.jobs_list].

(** The ids of the recent-jobs list. *)
Definition recent_jobs (r : redis) : list string :=
  match data r !! JobManager.jobs_list with
  | Some (RList l) => l
  | _ => []
  end.

Module Scenario10.

(** The record of the job has expired; its batch task starts, with the
    first patch of [process_cdr_batch]. *)
Definition expired_store : redis := elapse 691200 Scenario.fresh_job.

Definition late_patch : gmap string pyval :=
  {[ "status" := PStr "running"; "current_phase" := PInt 1;
     "started_at" := PDatetime 691300 ]}.

(** The fresh job with its total set to two. *)
Definition two_files : redis :=
  final_state
    (@JobManager.update_job RefJson.codec "j1" {[ "total_files" := PInt 2 ]}
       Scenario.fresh_job).

End Scenario10.

(** ** Vocabulary for the VM pool *)

(** The dict that describes a VM object to the callers of the pool. *)
Definition as_dict (v : VMPool.VMInfo) : VMPool.vm_dict :=
  {| VMPool.d_vm_name := VMPool.vm_name v;
     VMPool.d_resource_group := VMPool.resource_group v;
     VMPool.d_public_ip := VMPool.public_ip v;
     VMPool.d_private_ip := VMPool.private_ip v;
     VMPool.d_edr_solution := VMPool.edr_solution v |}.

(** The queue of an EDR solution, front first. *)
Definition queue_of (p : VMPool.pool) (edr : string) : list nat :=
  default [] (VMPool.pools p !! edr).

(** A backend whose cleanup command fails, and one on which deleting
    fails as well. *)
Module Scenario11.

Definition no_cleanup : VMPool.azure :=
  {| VMPool.begin_create_or_update := λ name, inr ("20.0.0.2", "10.0.0.2");
     VMPool.begin_delete := λ _, inr tt;
     VMPool.begin_run_command := λ _, inl (BackendError "RunCommandFailed") |}.

Definition no_cleanup_no_delete : VMPool.azure :=
  {| VMPool.begin_create_or_update := λ name, inr ("20.0.0.2", "10.0.0.2");
     VMPool.begin_delete := λ _, inl (BackendError "DeleteFailed");
     VMPool.begin_run_command := λ _, inl (BackendError "RunCommandFailed") |}.

(** The VM of the pool, acquired once. *)
Definition first_acquire : outcome VMPool.pool VMPool.vm_dict :=
  VMPool.acquire_vm "sophos" 3600 Scenario7.provisioned.

Definition held : VMPool.pool := final_state first_acquire.

Definition vm : VMPool.vm_dict :=
  match first_acquire with
  | Ok d _ => d
  | _ => Scenario7.stranger
  end.

Definition info : VMPool.VMInfo :=
  {| VMPool.vm_name := "edr-test-sophos-00-1000";
     VMPool.resource_group := "rg-edr";
     VMPool.edr_solution := "sophos";
     VMPool.status := "available";
     VMPool.public_ip := "20.0.0.1";
     VMPool.private_ip := "10.0.0.1";
     VMPool.created_at := 1000;
     VMPool.last_used_at := None;
     VMPool.use_count := 0 |}.

Definition in_use : VMPool.VMInfo := VMPool.mark_in_use 1000 info.

Definition being_cleaned : VMPool.VMInfo := VMPool.with_status "cleaning" in_use.

(** The VM released for cleaning; the cleaning thread has not run yet. *)
Definition cleaning : VMPool.pool :=
  final_state
    (VMPool.release_vm no_cleanup 20 Scenario7.base_images "rg-edr" vm true held).

End Scenario11.

(** ** tasks/phase2_av.py: a unit *)

Module Phase2Unit.

(** The scan result of an AV client, as the task reads it. *)
Record ScanResult : Type := {
  is_malicious : json;
  threat_name : json;
  confidence : json;
  scan_time_ms : json;
  engine_version : json
}.

(** The collaborators of the phase: the blob store and the AV engines. *)
Record adapters : Type := {
  download_file : pyval → json → exn + string;
  scan_file : string → string → exn + ScanResult
}.

Section defs.
Context `{JsonCodec}.
Variable env : adapters.

(** The [try] block up to the point where the result dict is complete. *)
Definition scan_unit (container_name : pyval) (file_path : json)
    (av_engine_name : string) (result : list (string * json)) (ended : Z)
    : M redis (list (string * json)) :=
  let* local_file_path := call (download_file env container_name file_path) in
  (if bool_decide (av_engine_name ∈ Phase2.av_engines) then ret tt
   else raise ValueError) ;;
  let* scan_result := call (scan_file env av_engine_name local_file_path) in
  ret (dict_update result
         [("status", JStr "success");
          ("is_malicious", is_malicious scan_result);
          ("threat_name", threat_name scan_result);
          ("confidence", confidence scan_result);
          ("scan_time_ms", scan_time_ms scan_result);
          ("engine_version", engine_version scan_result);
          ("end_time", JStr (isoformat ended))]).

(** The [except] clause. *)
Definition unit_failed (job_id : string) (result : list (string * json))
    (ended : Z) (e : exn) : M redis json :=
  let result := dict_update result
    [("status", JStr "error"); ("error", JStr (str_exn e));
     ("end_time", JStr (isoformat ended))] in
  JobManager.add_file_result job_id "phase2" (JDict result) ;;
  ret (JDict result).

Definition scan_single_file_av (job_id : string) (container_name : pyval)
    (file_info : json) (av_engine_name : string) (started ended : Z)
    : M redis json :=
  let* file_path := Phase3.jitem file_info "file_path" in
  let* version := Phase3.jitem file_info "version" in
  let* cdr_engine := jget file_info "cdr_engine" in
  let* original_file := jget file_info "original_file" in
  let result :=
    [("job_id", JStr job_id); ("file_path", file_path); ("version", version);
     ("cdr_engine", cdr_engine); ("original_file", original_file);
     ("av_engine_name", JStr av_engine_name);
     ("status", JStr "pending"); ("start_time", JStr (isoformat started))] in
  let* r := attempt (scan_unit container_name file_path av_engine_name result ended) in
  match r with
  | inl e => unit_failed job_id result ended e
  | inr result =>
      try_except
        (JobManager.add_file_result job_id "phase2" (JDict result) ;;
         ret (JDict result))
        (unit_failed job_id result ended)
  end.

End defs.
End Phase2Unit.

(** A path component: a string without [/]. *)
Fixpoint no_slash (s : string) : bool :=
  match s with
  | EmptyString => true
  | String c rest =>
      if decide (c = Ascii.ascii_of_nat 47) then false else no_slash rest
  end.

Module Scenario12.

(** An engine that reports that it could not sanitize the file. *)
Definition refusing : Phase1.adapters :=
  {| Phase1.list_files := λ _, inr ["a.pdf"];
     Phase1.download_file := λ _ _, inr "/tmp/a.pdf";
     Phase1.sanitize_file := λ _ _,
       inr {| Phase1.success := false;
              Phase1.sanitized_file_path := "";
              Phase1.processing_time_ms := JInt 12;
              Phase1.original_size := JInt 100;
              Phase1.sanitized_size := JInt 0;
              Phase1.threats_found := JList [];
              Phase1.error_message := JStr "unsupported file type" |};
     Phase1.upload_file := λ _ _ _, inr tt |}.

Definition unit : Phase1.task := Phase1.Task "j1" "test-files" "a.pdf" "glasswall".

(** A scanner that answers, and one whose blob store has lost the file. *)
Definition scanner : Phase2Unit.adapters :=
  {| Phase2Unit.download_file := λ _ _, inr "/tmp/a.pdf";
     Phase2Unit.scan_file := λ _ _,
       inr {| Phase2Unit.is_malicious := JBool true;
              Phase2Unit.threat_name := JStr "EICAR";
              Phase2Unit.confidence := JInt 99;
              Phase2Unit.scan_time_ms := JInt 40;
              Phase2Unit.engine_version := JStr "5.1" |} |}.

Definition pre_cdr_file : list (string * json) :=
  [("file_path", JStr "a.pdf"); ("version", JStr "pre-cdr"); ("cdr_engine", JNull)].

End Scenario12.

(** ** tasks/phase3_edr.py: the batch task *)

Module Phase3Batch.

(** The signature [test_single_file_edr.s(...)] of a unit. *)
Record task : Type := Task {
  job_id : string;
  container_name : pyval;
  file_info : json;
  edr_solution_name : string
}.

Section defs.
Context `{JsonCodec}.
Variable set_order : list json → list json.

Definition test_edr_batch (job_id : string) (now : Z) : M redis (list task) :=
  try_except
    (JobManager.update_job job_id
       {[ "current_phase" := PInt 3; "phase3_started_at" := PDatetime now ]} ;;
     let* job := JobManager.get_job job_id in
     let* container_name :=
       match job with
       | None => raise AttributeError
       | Some job => ret (default PNone (job !! "container_name"))
       end in
     let* phase1_results := JobManager.get_phase_results job_id "phase1" in
     let* files_to_test := Plan.plan set_order phase1_results in
     let tasks :=
       file_info ← files_to_test;
       edr_solution_name ← Phase3.edr_clients;
       [Task job_id container_name file_info edr_solution_name] in
     ret tasks)
    (λ e,
     JobManager.update_job job_id
       {[ "status" := PStr "failed"; "error" := PStr (str_exn e) ]} ;;
     raise e).

End defs.
End Phase3Batch.

Module Scenario13.

(** A container that cannot be listed. *)
Definition unlistable : Phase1.adapters :=
  {| Phase1.list_files := λ _, inl (BackendError "ContainerNotFound");
     Phase1.download_file := λ _ _, inr "/tmp/a.pdf";
     Phase1.sanitize_file := λ _ _, inl (BackendError "unreachable");
     Phase1.upload_file := λ _ _ _, inr tt |}.

(** The units of Phase 3 for the job of [Scenario6]. *)
Definition dispatched : outcome redis (list Phase3Batch.task) :=
  @Phase3Batch.test_edr_batch RefJson.codec Scenario6.set_order "j1" 900
    Scenario6.after_phase1.

Definition tasks : list Phase3Batch.task :=
  match dispatched with
  | Ok tasks _ => tasks
  | _ => []
  end.

End Scenario13.

(** ** tasks/phase2_av.py: the completion callback *)

Module Phase2Callback.
Section defs.
Context `{JsonCodec}.

(** [r.get('is_malicious')] as a condition *)
Definition malicious (r : json) : M redis bool :=
  let* v := jget r "is_malicious" in ret (truthy v).

(** [r.get('version') == s and r.get('is_malicious')] *)
Definition version_malicious (s : string) (r : json) : M redis bool :=
  let* b := Phase3.field_is "version" s r in
  if b : bool then malicious r else ret false.

(** Returns whether Phase 3 was scheduled. *)
Definition on_av_batch_complete (results : list json) (job_id : string)
    (now : Z) : M redis bool :=
  try_except
    (let total_scans := Z.of_nat (length results) in
     let* successful := count_if (Phase3.field_is "status" "success") results in
     let* detections := count_if malicious results in
     let* pre_cdr_detections := count_if (version_malicious "pre-cdr") results in
     let* post_cdr_detections := count_if (version_malicious "post-cdr") results in
     JobManager.update_job job_id
       {[ "phase2_completed" := PBool true;
          "phase2_summary" := PJson (JDict
            [("total_scans", JInt total_scans);
             ("successful", JInt successful);
             ("pre_cdr_detections", JInt pre_cdr_detections);
             ("post_cdr_detections", JInt post_cdr_detections);
             ("detection_reduction",
              JInt (pre_cdr_detections - post_cdr_detections));
             ("detection_reduction_pct",
              if decide (pre_cdr_detections > 0)
              then JFloat (inject_Z (pre_cdr_detections - post_cdr_detections)
                           / inject_Z pre_cdr_detections * 100)%Q
              else JInt 0)]) ]} ;;
     let* job := JobManager.get_job job_id in
     let* phase3 :=
       match job with
       | None => ret false
       | Some job => phase_enabled 3 job
       end in
     if phase3 then ret true
     else
       JobManager.update_job job_id
         {[ "status" := PStr "completed"; "completed_at" := PDatetime now ]} ;;
       ret false)
    (λ e,
     JobManager.update_job job_id
       {[ "status" := PStr "failed";
          "error" := PStr ("Phase 2 completion error: " ++ str_exn e) ]} ;;
     ret false).

End defs.
End Phase2Callback.

(** ** app.py: [POST /api/jobs/batch] *)

Module ApiBatch.

Record BatchJobRequest : Type := {
  file_paths : option (list string);
  container_name : string;
  phases : list Z;
  priority : string
}.

(** A call [process_cdr_batch.apply_async(args=..., queue=..., priority=...)]. *)
Record dispatch : Type := {
  d_job_id : string;
  d_container_name : string;
  d_file_paths : option (list string);
  d_queue : string;
  d_priority : Z
}.

(** The body of the answer. *)
Record created : Type := {
  c_job_id : string;
  c_status : string;
  c_message : string
}.

(** [len(request.file_paths) if request.file_paths else 'all'] *)
Definition how_many (file_paths : option (list string)) : string :=
  match file_paths with
  | Some (x :: l) => pretty (Z.of_nat (length (x :: l)))
  | _ => "all"
  end.

Section defs.
Context `{JsonCodec}.
(** The broker: whether it takes the message. *)
Variable apply_async : dispatch → exn + unit.

(** [job_id] is the fresh [uuid4]. The answer comes with the message that
    was handed to the broker, if one was. *)
Definition create_batch_job (job_id : string) (request : BatchJobRequest)
    (now : Z) : M redis (created * option dispatch) :=
  try_except
    (JobManager.create_job job_id (container_name request) (file_paths request)
       (phases request) (priority request) now ;;
     let* sent :=
       if bool_decide (1 ∈ phases request) then
         let d := {| d_job_id := job_id;
                     d_container_name := container_name request;
                     d_file_paths := file_paths request;
                     d_queue := "phase1";
                     d_priority := Api.get_celery_priority (priority request) |} in
         call (apply_async d) ;; ret (Some d)
       else ret None in
     ret ({| c_job_id := job_id; c_status := "pending";
             c_message := "Batch job created successfully. Processing "
                          ++ how_many (file_paths request) ++ " files." |},
          sent))
    (λ e, raise (HTTPException 500)).

End defs.
End ApiBatch.

(** [sum(r.get('alert_count', 0) for r in rs)] from [acc] on, for dicts
    whose counts are numbers. *)
Definition alert_count (r : json) : json :=
  match r with
  | JDict d => default (JInt 0) (dict_get d "alert_count")
  | _ => JNull
  end.

Fixpoint alerts_total (acc : Z + Q) (rs : list json) : option (Z + Q) :=
  match rs with
  | [] => Some acc
  | r :: rs' =>
      match to_num (alert_count r) with
      | Some n => alerts_total (num_add acc n) rs'
      | None => None
      end
  end.

(** The results of one EDR solution, and those of one version. *)
Definition of_edr (edr : string) (x : json) : bool :=
  is_str (field x "edr_solution_name") edr.

Definition of_version (version : string) (x : json) : bool :=
  is_str (field x "version") version.

Module Scenario14.

(** A request for the last two phases only. *)
Definition late_phases : ApiBatch.BatchJobRequest :=
  {| ApiBatch.file_paths := Some ["a.pdf"];
     ApiBatch.container_name := "test-files";
     ApiBatch.phases := [2; 3];
     ApiBatch.priority := "high" |}.

Definition all_phases : ApiBatch.BatchJobRequest :=
  {| ApiBatch.file_paths := Some ["a.pdf"];
     ApiBatch.container_name := "test-files";
     ApiBatch.phases := [1; 2; 3];
     ApiBatch.priority := "high" |}.

(** Three EDR results: two of CrowdStrike, one of SentinelOne. *)
Definition edr_results : list json :=
  [JDict [("edr_solution_name", JStr "crowdstrike"); ("version", JStr "pre-cdr");
          ("alert_count", JInt 4)];
   JDict [("edr_solution_name", JStr "crowdstrike"); ("version", JStr "post-cdr");
          ("alert_count", JInt 1)];
   JDict [("edr_solution_name", JStr "sentinelone"); ("version", JStr "pre-cdr");
          ("alert_count", JInt 2)]].

Definition crowdstrike : json :=
  JDict [("tests_performed", JInt 2); ("pre_cdr_alerts", JInt 4);
         ("post_cdr_alerts", JInt 1); ("alert_reduction", JInt 3);
         ("alert_reduction_pct", JFloat (300 # 4))].

Definition broker_up : ApiBatch.dispatch → exn + unit := λ _, inr tt.
Definition broker_down : ApiBatch.dispatch → exn + unit :=
  λ _, inl (BackendError "ConnectionRefused").

End Scenario14.

Module Scenario15.


End Scenario15.
(** ** The job store: basic facts *)

Section job_store.
Context `{JsonCodec}.
Import JobManager.

Lemma well_formed_nonempty (h : gmap string pyval) :
  well_formed h → size h ≠ 0%nat.
Proof.
  intros [[s Hs] _] Hz. apply map_size_empty_iff in Hz. subst h.
  by rewrite lookup_empty in Hs.
Qed.

Lemma get_job_missing (r : redis) (job_id : string) :
  data r !! job_key job_id = None → get_job job_id r = Ok None r.
Proof.
  intros Hk. unfold get_job, bind, hgetall. rewrite Hk.
  destruct (decide _) as [_|Hne]; [done|]. by rewrite map_size_empty in Hne.
Qed.

Lemma convert_hit (field : string) (f : pyval → M redis pyval)
    (d : gmap string pyval) (v v' : pyval) (r : redis) :
  d !! field = Some v → f v r = Ok v' r →
  convert field f d r = Ok (<[field := v']> d) r.
Proof. intros Hd Hf. unfold convert, bind. by rewrite Hd, Hf. Qed.

(** [get_job] on a well-formed record: the record, with its phases parsed. *)
Lemma get_job_well_formed (r : redis) (job_id : string) (h : gmap string pyval) :
  data r !! job_key job_id = Some (RHash h) → well_formed h →
  ∃ j, get_job job_id r = Ok (Some (<["phases" := PJson j]> h)) r.
Proof.
  intros Hk Hwf. pose proof (well_formed_nonempty h Hwf) as Hne.
  destruct Hwf as (_ & [t Ht] & [p Hp] & [f Hf] & [q Hq] & (s & j & Hs & Hj)).
  exists j. unfold get_job, bind, hgetall. rewrite Hk.
  destruct (decide _) as [?|_]; [done|].
  set (h' := <["phases":=PJson j]> h).
  rewrite (convert_hit "phases" _ h (PStr s) (PJson j)); [|done|by cbn; rewrite Hj].
  fold h'.
  rewrite (convert_hit "total_files" _ h' (PInt t) (PInt t));
    [|by unfold h'; rewrite lookup_insert_ne|done].
  rewrite (insert_id h' "total_files") by (by unfold h'; rewrite lookup_insert_ne).
  rewrite (convert_hit "processed_files" _ h' (PInt p) (PInt p));
    [|by unfold h'; rewrite lookup_insert_ne|done].
  rewrite (insert_id h' "processed_files") by (by unfold h'; rewrite lookup_insert_ne).
  rewrite (convert_hit "failed_files" _ h' (PInt f) (PInt f));
    [|by unfold h'; rewrite lookup_insert_ne|done].
  rewrite (insert_id h' "failed_files") by (by unfold h'; rewrite lookup_insert_ne).
  rewrite (convert_hit "progress_percentage" _ h' (PFloat q) (PFloat q));
    [|by unfold h'; rewrite lookup_insert_ne|done].
  rewrite (insert_id h' "progress_percentage") by (by unfold h'; rewrite lookup_insert_ne).
  done.
Qed.

(** The state after [hset] of a non-empty mapping that the client takes
    on a stored record. *)
Lemma hset_record (r : redis) (job_id : string) (h m : gmap string pyval) :
  data r !! job_key job_id = Some (RHash h) → size m ≠ 0%nat →
  map_Forall (λ _ v, encodable v = true) m →
  hset (job_key job_id) m r = Ok tt (set_record r job_id (m ∪ h)).
Proof.
  intros Hk Hm Henc. unfold hset. destruct (decide _) as [?|_]; [done|].
  rewrite bool_decide_eq_true_2 by exact Henc. cbn [negb].
  by rewrite Hk.
Qed.

(** A mapping with a value that cannot be encoded never reaches the
    store. *)
Lemma hset_refused (key : string) (m : gmap string pyval) (k : string)
    (v : pyval) (r : redis) :
  m !! k = Some v → encodable v = false → hset key m r = Raise DataError r.
Proof.
  intros Hk Hv. unfold hset. destruct (decide _) as [?|_]; [reflexivity|].
  rewrite bool_decide_eq_false_2; [reflexivity|].
  intros Hall. specialize (Hall k v Hk). cbn in Hall. congruence.
Qed.

Lemma storable_serialized (m : gmap string pyval) :
  storable m → map_Forall (λ _ v, encodable v = true) (serialize <$> m).
Proof. intros Hm. apply map_Forall_fmap. exact Hm. Qed.

Lemma encodable_singleton (k : string) (v : pyval) :
  encodable v = true →
  map_Forall (λ _ v, encodable v = true) ({[ k := v ]} : gmap string pyval).
Proof. intros Hv. apply map_Forall_singleton. exact Hv. Qed.

Lemma set_record_lookup (r : redis) (job_id : string) (h : gmap string pyval) :
  data (set_record r job_id h) !! job_key job_id = Some (RHash h).
Proof. unfold set_record. cbn. by rewrite lookup_insert_eq. Qed.

Lemma set_record_twice (r : redis) (job_id : string) (h h' : gmap string pyval) :
  set_record (set_record r job_id h) job_id h' = set_record r job_id h'.
Proof. unfold set_record. cbn. by rewrite insert_insert_eq. Qed.

Lemma refresh_well_formed (h : gmap string pyval) :
  well_formed h → well_formed (refresh h).
Proof.
  intros Hwf. unfold refresh.
  destruct Hwf as (Hs & [t Ht] & [p Hp] & Hf & Hq & Hph).
  rewrite Ht, Hp. destruct (decide (t > 0)); [|by repeat split; eauto].
  destruct Hs as [s Hs], Hf as [f Hf], Hph as (s' & j & Hs' & Hj).
  repeat split.
  - exists s. by rewrite lookup_insert_ne.
  - exists t. by rewrite lookup_insert_ne.
  - exists p. by rewrite lookup_insert_ne.
  - exists f. by rewrite lookup_insert_ne.
  - eexists. by rewrite lookup_insert_eq.
  - exists s', j. by rewrite lookup_insert_ne.
Qed.

(** [update_progress] on a well-formed record never fails. *)
Lemma update_progress_well_formed (r : redis) (job_id : string)
    (h : gmap string pyval) :
  data r !! job_key job_id = Some (RHash h) → well_formed h →
  update_progress job_id r = Ok tt (set_record r job_id (refresh h)).
Proof.
  intros Hk Hwf.
  destruct (get_job_well_formed r job_id h Hk Hwf) as [j Hj].
  destruct Hwf as (Hs & [t Ht] & [p Hp] & Hf & Hq & Hph).
  unfold update_progress, bind. rewrite Hj. unfold getitem.
  rewrite lookup_insert_ne by done. rewrite Ht. cbn.
  unfold refresh. rewrite Ht, Hp.
  destruct (decide (t > 0)).
  - rewrite lookup_insert_ne by done. rewrite Hp. cbn.
    rewrite (hset_record r job_id h)
      by (done || (by rewrite map_size_singleton)
          || (by apply encodable_singleton)).
    f_equal. unfold set_record. f_equal. f_equal. f_equal.
    by rewrite insert_union_singleton_l.
  - cbn. unfold set_record. destruct r as [d tt']. cbn in *. f_equal. f_equal.
    by rewrite insert_id.
Qed.

End job_store.

Section update_job.
Context `{JsonCodec}.
Import JobManager.

Lemma update_job_well_formed (r : redis) (job_id : string)
    (h updates : gmap string pyval) :
  data r !! job_key job_id = Some (RHash h) → size updates ≠ 0%nat →
  storable updates →
  well_formed ((serialize <$> updates) ∪ h) →
  update_job job_id updates r
  = Ok tt (set_record r job_id (refresh ((serialize <$> updates) ∪ h))).
Proof.
  intros Hk Hne Hst Hwf. unfold update_job, bind.
  rewrite (hset_record r job_id h)
    by (done || (by rewrite map_size_fmap) || (by apply storable_serialized)).
  rewrite (update_progress_well_formed _ job_id _ (set_record_lookup _ _ _) Hwf).
  by rewrite set_record_twice.
Qed.

Lemma refresh_lookup_ne (h : gmap string pyval) (k : string) :
  k ≠ "progress_percentage" → refresh h !! k = h !! k.
Proof.
  intros Hk. unfold refresh.
  destruct (h !! "total_files") as [[]|]; try done.
  destruct (h !! "processed_files") as [[]|]; try done.
  destruct (decide _); [|done]. by rewrite lookup_insert_ne.
Qed.


(** A patch with a [None] or a [bool] in it is refused whole: nothing of
    it is written. *)
Lemma update_job_refused (r : redis) (job_id : string)
    (updates : gmap string pyval) (k : string) (v : pyval) :
  updates !! k = Some v → encodable (serialize v) = false →
  update_job job_id updates r = Raise DataError r.
Proof.
  intros Hk Hv. unfold update_job, bind.
  rewrite (hset_refused _ _ k (serialize v)); [reflexivity| |exact Hv].
  rewrite lookup_fmap, Hk. reflexivity.
Qed.

Lemma cancel_patch_storable (now : Z) : storable (cancel_patch now).
Proof.
  unfold storable, cancel_patch. apply map_Forall_insert_2; [reflexivity|].
  apply map_Forall_singleton. reflexivity.
Qed.

Lemma cancel_patch_serialized (now : Z) :
  serialize <$> cancel_patch now
  = {[ "status" := PStr "cancelled"; "cancelled_at" := PStr (isoformat now) ]}.
Proof.
  unfold cancel_patch. rewrite fmap_insert, map_fmap_singleton. done.
Qed.

Lemma cancel_patch_well_formed (now : Z) (h : gmap string pyval) :
  well_formed h → well_formed ((serialize <$> cancel_patch now) ∪ h).
Proof.
  rewrite cancel_patch_serialized.
  intros ([s Hs] & [t Ht] & [p Hp] & [f Hf] & [q Hq] & (s' & j & Hs' & Hj)).
  assert (Hother : ∀ k, k ≠ "status" → k ≠ "cancelled_at" →
    ({[ "status" := PStr "cancelled"; "cancelled_at" := PStr (isoformat now) ]} ∪ h) !! k
    = h !! k).
  { intros k H1 H2. rewrite lookup_union_r; [done|].
    rewrite lookup_insert_ne by done. by rewrite lookup_singleton_ne. }
  repeat split.
  - exists "cancelled". erewrite lookup_union_Some_l; [done|].
    by rewrite lookup_insert_eq.
  - exists t. by rewrite Hother.
  - exists p. by rewrite Hother.
  - exists f. by rewrite Hother.
  - exists q. by rewrite Hother.
  - exists s', j. by rewrite Hother.
Qed.

End update_job.

(** ** Cancellation *)

Section cancel.
Context `{JsonCodec}.
Import JobManager.

Lemma job_field_set_record (r : redis) (job_id k : string) (h : gmap string pyval) :
  job_field (set_record r job_id h) job_id k = h !! k.
Proof. unfold job_field, job_record. by rewrite set_record_lookup. Qed.

(** What [cancel_job] and the endpoint do, by cases on [cancellable]. *)
Lemma cancel_job_cases (r : redis) (job_id : string) (now : Z) :
  job_ok r job_id →
  if cancellable r job_id then
    ∃ r', cancel_job job_id now r = Ok true r'
      ∧ job_field r' job_id "status" = Some (PStr "cancelled")
      ∧ job_field r' job_id "cancelled_at" = Some (PStr (isoformat now))
      ∧ App.cancel_job job_id now r
        = Ok ("Job " ++ job_id ++ " cancelled successfully") r'
  else
    cancel_job job_id now r = Ok false r
    ∧ App.cancel_job job_id now r = Raise (HTTPException 404) r.
Proof.
  unfold job_ok, cancellable, job_field, job_record.
  destruct (data r !! job_key job_id) as [[h|l]|] eqn:Hk; [|done|].
  - intros Hwf. cbn.
    destruct (get_job_well_formed r job_id h Hk Hwf) as [j Hj].
    pose proof Hwf as ([s Hs] & _). rewrite Hs.
    assert (Hget : getitem (<["phases":=PJson j]> h) "status" r = Ok (PStr s) r).
    { unfold getitem. rewrite lookup_insert_ne by done. by rewrite Hs. }
    destruct (is_terminal (PStr s)) eqn:Hterm; cbn.
    + assert (Hc : cancel_job job_id now r = Ok false r).
      { unfold cancel_job, bind. rewrite Hj, Hget. by rewrite Hterm. }
      split; [done|]. unfold App.cancel_job, try_except, bind. by rewrite Hc.
    + pose proof (update_job_well_formed r job_id h (cancel_patch now) Hk) as Hu.
      rewrite cancel_patch_serialized in Hu.
      pose proof (cancel_patch_well_formed now h Hwf) as Hwf'.
      rewrite cancel_patch_serialized in Hwf'.
      specialize (Hu ltac:(unfold cancel_patch; by rewrite map_size_insert_None)
                    (cancel_patch_storable now) Hwf').
      set (r' := set_record r job_id _) in Hu.
      exists r'.
      assert (Hc : cancel_job job_id now r = Ok true r').
      { unfold cancel_job, bind. rewrite Hj, Hget, Hterm.
        fold (cancel_patch now). by rewrite Hu. }
      split; [exact Hc|]. unfold r'. repeat split.
      * rewrite set_record_lookup. cbn. rewrite refresh_lookup_ne by done.
        erewrite lookup_union_Some_l; [done|]. by rewrite lookup_insert_eq.
      * rewrite set_record_lookup. cbn. rewrite refresh_lookup_ne by done.
        erewrite lookup_union_Some_l; [done|].
        rewrite lookup_insert_ne by done. by rewrite lookup_singleton_eq.
      * unfold App.cancel_job, try_except, bind. by rewrite Hc.
  - intros _. cbn.
    assert (Hc : cancel_job job_id now r = Ok false r).
    { unfold cancel_job, bind. by rewrite (get_job_missing r job_id Hk). }
    split; [done|]. unfold App.cancel_job, try_except, bind. by rewrite Hc.
Qed.


End cancel.

Lemma well_formedb_true `{JsonCodec} (h : gmap string pyval) :
  well_formedb h = true → well_formed h.
Proof.
  unfold well_formedb, well_formed. intros Hb.
  destruct (h !! "status") as [[]|]; try done.
  destruct (h !! "total_files") as [[]|]; try done.
  destruct (h !! "processed_files") as [[]|]; try done.
  destruct (h !! "failed_files") as [[]|]; try done.
  destruct (h !! "progress_percentage") as [[]|]; try done.
  destruct (h !! "phases") as [[]|]; try done.
  destruct (json_loads s0) eqn:Hl; [|done].
  repeat split; eauto.
Qed.

Lemma job_okb_true `{JsonCodec} (r : redis) (job_id : string) :
  job_okb r job_id = true → job_ok r job_id.
Proof.
  unfold job_okb, job_ok.
  destruct (data r !! JobManager.job_key job_id) as [[h|l]|]; [|done..].
  apply well_formedb_true.
Qed.


(** ** Retention *)

Section retention.
Context `{JsonCodec}.
Import JobManager.

Lemma job_key_not_jobs_list (job_id : string) : job_key job_id ≠ jobs_list.
Proof. unfold job_key, jobs_list. cbn. intros Heq. discriminate Heq. Qed.

(** A key without a time to live survives the passing of time. *)
Lemma elapse_keeps (r : redis) (seconds : Z) (key : string) :
  ttl r !! key = None → data (elapse seconds r) !! key = data r !! key.
Proof.
  intros Hk. unfold elapse. cbn.
  destruct (data r !! key) as [v|] eqn:Hd.
  - apply map_lookup_filter_Some. split; [done|]. cbn.
    unfold expired. by rewrite Hk.
  - apply map_lookup_filter_None. left. done.
Qed.

(** A key whose time to live is used up is gone. *)
Lemma elapse_drops (r : redis) (seconds left : Z) (key : string) :
  ttl r !! key = Some left → left ≤ seconds →
  data (elapse seconds r) !! key = None.
Proof.
  intros Hk Hle. unfold elapse. cbn.
  apply map_lookup_filter_None. right. intros v _. cbn.
  unfold expired. rewrite Hk. rewrite bool_decide_eq_true_2; done.
Qed.

(** A key with time left is still there. *)
Lemma elapse_not_yet (r : redis) (seconds left : Z) (key : string) :
  ttl r !! key = Some left → seconds < left →
  data (elapse seconds r) !! key = data r !! key.
Proof.
  intros Hk Hlt. unfold elapse. cbn.
  destruct (data r !! key) as [v|] eqn:Hd.
  - apply map_lookup_filter_Some. split; [done|]. cbn.
    unfold expired. rewrite Hk. rewrite bool_decide_eq_false_2; [done|lia].
  - apply map_lookup_filter_None. left. done.
Qed.

Lemma rpush_ttl (key x : string) (r : redis) :
  ttl (final_state (rpush key x r)) = ttl r.
Proof. unfold rpush. by destruct (data r !! key) as [[]|]. Qed.

(** [create_job] hands [current_phase = None] to [hset]: the client
    refuses the mapping, and the call ends there with the store as it
    was. *)
Lemma create_job_refused (r : redis) (job_id container_name : string)
    (file_paths : option (list string)) (phases : list Z) (priority : string)
    (now : Z) :
  create_job job_id container_name file_paths phases priority now r
  = Raise DataError r.
Proof.
  unfold create_job, bind.
  rewrite (hset_refused _ _ "current_phase" PNone); reflexivity.
Qed.

(** The writes of the store other than [expire] leave every time to live
    as it is. *)
Lemma hset_ttl (key : string) (m : gmap string pyval) (r : redis) :
  ttl (final_state (hset key m r)) = ttl r.
Proof.
  unfold hset. destruct (decide _); [reflexivity|].
  destruct (negb _); [reflexivity|]. by destruct (data r !! key) as [[]|].
Qed.

Lemma hincrby_ttl (key field : string) (n : Z) (r : redis) :
  ttl (final_state (hincrby key field n r)) = ttl r.
Proof.
  unfold hincrby. destruct (data r !! key) as [[h|l]|]; try reflexivity.
  by destruct (h !! field) as [[]|].
Qed.

Lemma bind_ttl {A B} (m : M redis A) (k : A → M redis B) (r : redis) :
  (∀ r0, ttl (final_state (m r0)) = ttl r0) →
  (∀ a r0, ttl (final_state (k a r0)) = ttl r0) →
  ttl (final_state (bind m k r)) = ttl r.
Proof.
  intros Hm Hk. unfold bind. specialize (Hm r).
  destruct (m r) as [a r1|e r1|r1]; cbn [final_state] in *; [|done..].
  by rewrite Hk.
Qed.

Lemma reads_only_ttl {A} (m : M redis A) (r : redis) :
  reads_only m → ttl (final_state (m r)) = ttl r.
Proof. intros Hm. by destruct (Hm r) as [[a ->]|[e ->]]. Qed.

End retention.

(** ** Per-phase result lists *)

Section phase_results.
Context `{JsonCodec}.
Import JobManager.

Lemma foldl_collect (entries : list string) (acc : list json) :
  foldl collect acc entries = (acc ++ omap json_loads entries)%list.
Proof.
  revert acc. induction entries as [|e entries IH]; intros acc; cbn.
  - by rewrite app_nil_r.
  - rewrite IH. unfold collect. destruct (json_loads e); [|done].
    by rewrite <- app_assoc.
Qed.

(** Reading a list: the entries that parse, in order. *)
Lemma get_phase_results_list (r : redis) (job_id phase : string) :
  (∀ h, data r !! phase_key job_id phase ≠ Some (RHash h)) →
  get_phase_results job_id phase r
  = Ok (omap json_loads (phase_list r job_id phase)) r.
Proof.
  intros Hl. unfold get_phase_results, bind, lrange_all, phase_list.
  destruct (data r !! phase_key job_id phase) as [[h|l]|]; [by destruct (Hl h)|..].
  - unfold ret. by rewrite foldl_collect.
  - done.
Qed.

(** Appending: the list grows at its end and nothing else changes. *)
Lemma add_file_result_list (r : redis) (job_id phase : string) (result : json) :
  (∀ h, data r !! phase_key job_id phase ≠ Some (RHash h)) →
  ∃ r', add_file_result job_id phase result r = Ok tt r'
    ∧ data r' = <[phase_key job_id phase :=
                   RList (phase_list r job_id phase ++ [json_dumps result])%list]> (data r)
    ∧ ttl r' = ttl r.
Proof.
  intros Hl. unfold add_file_result, rpush, phase_list.
  destruct (data r !! phase_key job_id phase) as [[h|l]|]; [by destruct (Hl h)|..];
    eexists; split; done.
Qed.




End phase_results.


(** The entry that is not JSON is skipped: the list of the scenario holds
    two entries and one result is read. *)
Example garbage_is_skipped :
  phase_list Scenario3.with_garbage "j1" "phase1"
    = [RefJson.print Scenario2.cdr_success; "{not json"]
  ∧ @JobManager.get_phase_results RefJson.codec "j1" "phase1" Scenario3.with_garbage
    = Ok [Scenario2.cdr_success] Scenario3.with_garbage.
Proof. vm_compute. split; reflexivity. Qed.

(** ** Computations that only read *)


Section reads_only.
Context {S : Type}.

Lemma reads_only_ret {A} (a : A) : reads_only (ret a : M S A).
Proof. intros s. left. by exists a. Qed.

Lemma reads_only_raise {A} (e : exn) : reads_only (raise e : M S A).
Proof. intros s. right. by exists e. Qed.

Lemma reads_only_bind {A B} (m : M S A) (k : A → M S B) :
  reads_only m → (∀ a, reads_only (k a)) → reads_only (bind m k).
Proof.
  intros Hm Hk s. unfold bind. destruct (Hm s) as [[a Ha]|[e He]].
  - rewrite Ha. apply Hk.
  - rewrite He. right. by exists e.
Qed.

Lemma reads_only_jget_default (r : json) (k : string) (d : json) :
  reads_only (jget_default r k d : M S json).
Proof. destruct r; try apply reads_only_raise. apply reads_only_ret. Qed.

Lemma reads_only_jget (r : json) (k : string) : reads_only (jget r k : M S json).
Proof. apply reads_only_jget_default. Qed.

Lemma reads_only_count_if (p : json → M S bool) (rs : list json) :
  (∀ r, reads_only (p r)) → reads_only (count_if p rs).
Proof.
  intros Hp. induction rs as [|r rs IH]; cbn; [apply reads_only_ret|].
  apply reads_only_bind; [apply Hp|]. intros b.
  apply reads_only_bind; [apply IH|]. intros n. apply reads_only_ret.
Qed.


End reads_only.

Create HintDb reads.
#[local] Hint Resolve reads_only_ret reads_only_raise reads_only_jget
  reads_only_jget_default : reads.

Section callbacks.
Context `{JsonCodec}.
Import JobManager.

Lemma reads_only_field_is (k s : string) (r : json) :
  reads_only (Phase3.field_is k s r).
Proof.
  unfold Phase3.field_is. apply reads_only_bind; auto with reads.
Qed.






End callbacks.

(** ** Patches *)

Ltac patch_lookup :=
  repeat first
    [ rewrite lookup_insert_eq
    | rewrite lookup_insert_ne by discriminate
    | rewrite lookup_singleton_eq
    | rewrite lookup_singleton_ne by discriminate
    | rewrite lookup_empty ].

(** A patch written out with its fields is harmless when none of them is
    a counter, the phases or the progress, its status is a string and its
    values are of the kinds the client takes. *)
Ltac storable_patch :=
  unfold storable;
  repeat (apply map_Forall_insert_2; [reflexivity|]);
  first [apply map_Forall_singleton; reflexivity | apply map_Forall_empty].

Ltac harmless_patch :=
  unfold harmless;
  repeat (split; [patch_lookup; reflexivity|]);
  split; [first [ left; patch_lookup; reflexivity
                | right; eexists; patch_lookup; reflexivity ]
         | storable_patch ].

Section patches.
Context `{JsonCodec}.
Import JobManager.

Lemma serialize_lookup (m : gmap string pyval) (k : string) :
  (serialize <$> m) !! k = serialize <$> (m !! k).
Proof. apply lookup_fmap. Qed.

Lemma patched_lookup_untouched (m h : gmap string pyval) (k : string) :
  m !! k = None → ((serialize <$> m) ∪ h) !! k = h !! k.
Proof.
  intros Hk. apply lookup_union_r. by rewrite serialize_lookup, Hk.
Qed.

Lemma patched_lookup_set (m h : gmap string pyval) (k : string) (v : pyval) :
  m !! k = Some v → ((serialize <$> m) ∪ h) !! k = Some (serialize v).
Proof.
  intros Hk. apply lookup_union_Some_l. by rewrite serialize_lookup, Hk.
Qed.

Lemma harmless_well_formed (m h : gmap string pyval) :
  well_formed h → harmless m → well_formed ((serialize <$> m) ∪ h).
Proof.
  intros (Hs & Ht & Hp & Hf & Hq & Hph) (Mt & Mp & Mf & Mq & Mph & Ms & _).
  unfold well_formed.
  rewrite (patched_lookup_untouched m h "total_files") by done.
  rewrite (patched_lookup_untouched m h "processed_files") by done.
  rewrite (patched_lookup_untouched m h "failed_files") by done.
  rewrite (patched_lookup_untouched m h "progress_percentage") by done.
  rewrite (patched_lookup_untouched m h "phases") by done.
  split; [|done].
  destruct Ms as [Ms|[s Ms]].
  - by rewrite patched_lookup_untouched.
  - exists s. by rewrite (patched_lookup_set m h "status" (PStr s)).
Qed.

(** [update_job] with a harmless patch on a well-formed record. *)
Lemma update_job_harmless (r : redis) (job_id : string)
    (h updates : gmap string pyval) :
  data r !! job_key job_id = Some (RHash h) → well_formed h →
  harmless updates → size updates ≠ 0%nat →
  ∃ h', update_job job_id updates r = Ok tt (set_record r job_id h')
    ∧ well_formed h'
    ∧ h' !! "status" = ((serialize <$> updates) ∪ h) !! "status"
    ∧ h' !! "total_files" = h !! "total_files"
    ∧ h' !! "processed_files" = h !! "processed_files"
    ∧ h' !! "failed_files" = h !! "failed_files".
Proof.
  intros Hk Hwf Hm Hsz.
  pose proof (harmless_well_formed updates h Hwf Hm) as Hwf'.
  exists (refresh ((serialize <$> updates) ∪ h)).
  split; [apply update_job_well_formed; try done; apply Hm|].
  split; [by apply refresh_well_formed|].
  destruct Hm as (Mt & Mp & Mf & _).
  rewrite !refresh_lookup_ne by discriminate.
  rewrite (patched_lookup_untouched updates h "total_files") by done.
  rewrite (patched_lookup_untouched updates h "processed_files") by done.
  by rewrite (patched_lookup_untouched updates h "failed_files") by done.
Qed.

(** The same, with the record that is left written out. *)
Lemma update_job_harmless_eq (r : redis) (job_id : string)
    (h updates : gmap string pyval) :
  data r !! job_key job_id = Some (RHash h) → well_formed h →
  harmless updates → size updates ≠ 0%nat →
  update_job job_id updates r
  = Ok tt (set_record r job_id (refresh ((serialize <$> updates) ∪ h)))
  ∧ well_formed (refresh ((serialize <$> updates) ∪ h)).
Proof.
  intros Hk Hwf Hm Hsz.
  pose proof (harmless_well_formed updates h Hwf Hm) as Hwf'.
  split; [apply update_job_well_formed; try done; apply Hm|].
  by apply refresh_well_formed.
Qed.

End patches.

(** ** Keys *)

Lemma string_length_app (a b : string) :
  String.length (a ++ b) = (String.length a + String.length b)%nat.
Proof.
  induction a as [|c a IH]; [done|].
  change (String c a ++ b) with (String c (a ++ b)). cbn. by rewrite IH.
Qed.

(** The record of a job and its result lists live under different keys. *)
Lemma job_key_not_phase_key (job_id phase : string) :
  JobManager.job_key job_id ≠ JobManager.phase_key job_id phase.
Proof.
  unfold JobManager.job_key, JobManager.phase_key. intros Heq.
  apply (inj (String.append "job:")) in Heq.
  apply (f_equal String.length) in Heq.
  rewrite !string_length_app in Heq. cbn in Heq. lia.
Qed.

(** ** Counters *)

Section counters.
Context `{JsonCodec}.
Import JobManager.

Lemma hincrby_record (r : redis) (job_id field : string)
    (h : gmap string pyval) (z : Z) :
  data r !! job_key job_id = Some (RHash h) → h !! field = Some (PInt z) →
  hincrby (job_key job_id) field 1 r
  = Ok (z + 1) (set_record r job_id (<[field := PInt (z + 1)]> h)).
Proof. intros Hk Hf. unfold hincrby. by rewrite Hk, Hf. Qed.

(** Writing an integer into a counter keeps a record well formed. *)
Lemma counter_well_formed (h : gmap string pyval) (field : string) (z : Z) :
  field = "total_files" ∨ field = "processed_files" ∨ field = "failed_files" →
  well_formed h → well_formed (<[field := PInt z]> h).
Proof.
  intros Hcase ([s Hs] & [t Ht] & [p Hp] & [f Hf] & [q Hq] & (s' & j & Hs' & Hj)).
  destruct Hcase as [ -> | [ -> | -> ] ]; repeat split;
    first [ by eexists; rewrite lookup_insert_eq
          | by eexists; rewrite lookup_insert_ne by discriminate; eassumption
          | by exists s', j; rewrite lookup_insert_ne by discriminate ].
Qed.

Lemma increment_processed_record (r : redis) (job_id : string)
    (h : gmap string pyval) (p : Z) :
  data r !! job_key job_id = Some (RHash h) → well_formed h →
  h !! "processed_files" = Some (PInt p) →
  increment_processed job_id r
  = Ok tt (set_record r job_id (refresh (<["processed_files" := PInt (p + 1)]> h))).
Proof.
  intros Hk Hwf Hp. unfold increment_processed, bind.
  rewrite (hincrby_record r job_id "processed_files" h p Hk Hp).
  rewrite (update_progress_well_formed _ job_id _ (set_record_lookup _ _ _)).
  - by rewrite set_record_twice.
  - apply counter_well_formed; [by right; left|done].
Qed.

Lemma increment_failed_record (r : redis) (job_id : string)
    (h : gmap string pyval) (p f : Z) :
  data r !! job_key job_id = Some (RHash h) → well_formed h →
  h !! "processed_files" = Some (PInt p) → h !! "failed_files" = Some (PInt f) →
  increment_failed job_id r
  = Ok tt (set_record r job_id
             (refresh (<["processed_files" := PInt (p + 1)]>
                         (<["failed_files" := PInt (f + 1)]> h)))).
Proof.
  intros Hk Hwf Hp Hf. unfold increment_failed, bind.
  rewrite (hincrby_record r job_id "failed_files" h f Hk Hf).
  rewrite (increment_processed_record _ job_id _ p (set_record_lookup _ _ _)).
  - by rewrite set_record_twice.
  - apply counter_well_formed; [by right; right|done].
  - by rewrite lookup_insert_ne by discriminate.
Qed.

End counters.

(** ** Terminal statuses *)

Section terminal.
Context `{JsonCodec}.
Import JobManager.

Lemma size_nonzero_lookup (m : gmap string pyval) (k : string) (v : pyval) :
  m !! k = Some v → size m ≠ 0%nat.
Proof.
  intros Hk Hz. apply map_size_empty_iff in Hz. subst m.
  by rewrite lookup_empty in Hk.
Qed.


Lemma writes_status_bind {A} (s job_id : string) (r : redis)
    (a : M redis A) (k : A → M redis unit) :
  reads_only a → (∀ x, writes_status s job_id r (k x)) →
  writes_status s job_id r (bind a k).
Proof.
  intros Ha Hk. unfold writes_status, bind.
  destruct (Ha r) as [[x Hx]|[e He]].
  - rewrite Hx. apply Hk.
  - rewrite He. right. by exists e.
Qed.

Lemma writes_status_update (s job_id : string) (r : redis)
    (h updates : gmap string pyval) :
  data r !! job_key job_id = Some (RHash h) → well_formed h →
  harmless updates → updates !! "status" = Some (PStr s) →
  writes_status s job_id r (update_job job_id updates).
Proof.
  intros Hk Hwf Hm Hs.
  destruct (update_job_harmless r job_id h updates Hk Hwf Hm
              (size_nonzero_lookup _ _ _ Hs)) as (h' & Hu & _ & Hst & _).
  left. exists h'. split; [done|].
  by rewrite Hst, (patched_lookup_set updates h "status" (PStr s)).
Qed.


(** The handler of a completion callback, on a well-formed record: the
    job is marked failed and the error recorded. *)
Lemma callback_failed (r : redis) (job_id : string) (h : gmap string pyval)
    (text : string) :
  data r !! job_key job_id = Some (RHash h) → well_formed h →
  ∃ h', update_job job_id {[ "status" := PStr "failed"; "error" := PStr text ]} r
        = Ok tt (set_record r job_id h')
    ∧ well_formed h'
    ∧ h' !! "status" = Some (PStr "failed")
    ∧ h' !! "error" = Some (PStr text)
    ∧ (∀ k, k ≠ "status" → k ≠ "error" → k ≠ "progress_percentage" →
         h' !! k = h !! k).
Proof.
  intros Hk Hwf.
  destruct (update_job_harmless_eq r job_id h
              {[ "status" := PStr "failed"; "error" := PStr text ]} Hk Hwf)
    as [Hu Hwf'].
  { harmless_patch. }
  { apply (size_nonzero_lookup _ "status" (PStr "failed")). patch_lookup.
    reflexivity. }
  eexists. split; [exact Hu|]. split; [exact Hwf'|].
  split.
  { rewrite refresh_lookup_ne by discriminate.
    apply (patched_lookup_set _ h "status" (PStr "failed")). patch_lookup.
    reflexivity. }
  split.
  { rewrite refresh_lookup_ne by discriminate.
    apply (patched_lookup_set _ h "error" (PStr text)). patch_lookup.
    reflexivity. }
  intros k H1 H2 H3. rewrite refresh_lookup_ne by exact H3.
  apply patched_lookup_untouched.
  rewrite lookup_insert_ne by (intros Heq; apply H1; symmetry; exact Heq).
  apply lookup_singleton_ne. intros Heq. apply H2. symmetry. exact Heq.
Qed.



End terminal.



(** ** Phase 1: counters *)

Section phase1.
Context `{JsonCodec}.
Variable env : Phase1.adapters.
Import JobManager.

Lemma reads_only_call {S A} (x : exn + A) : reads_only (call x : M S A).
Proof. destruct x; [apply reads_only_raise|apply reads_only_ret]. Qed.

Lemma reads_only_sanitize_unit (t : Phase1.task)
    (result : list (string * json)) (ended : Z) :
  reads_only (Phase1.sanitize_unit env t result ended).
Proof.
  unfold Phase1.sanitize_unit.
  apply reads_only_bind; [apply reads_only_call|]. intros local.
  apply reads_only_bind;
    [destruct (bool_decide _); [apply reads_only_ret|apply reads_only_raise]|].
  intros _.
  apply reads_only_bind; [apply reads_only_call|]. intros cdr_result.
  destruct (Phase1.success cdr_result); [|apply reads_only_ret].
  apply reads_only_bind; [apply reads_only_call|]. intros _. apply reads_only_ret.
Qed.

Lemma refresh_counters (h : gmap string pyval) (k : string) :
  k = "total_files" ∨ k = "processed_files" ∨ k = "failed_files" →
  refresh h !! k = h !! k.
Proof.
  intros [ -> | [ -> | -> ] ]; by rewrite refresh_lookup_ne by discriminate.
Qed.

(** Appending a result leaves the counters where they are. *)
Lemma counting_add_file_result (r : redis) (job_id : string)
    (total processed failed : Z) (n : nat) (result : json) :
  counting r job_id total processed failed n →
  ∃ r', add_file_result job_id "phase1" result r = Ok tt r'
    ∧ counting r' job_id total processed failed (Datatypes.S n).
Proof.
  intros (h & Hk & Hwf & Ht & Hp & Hf & Hl & Hn).
  destruct (add_file_result_list r job_id "phase1" result Hl) as (r' & Ha & Hd & _).
  exists r'. split; [done|]. exists h.
  assert (Hne : phase_key job_id "phase1" ≠ job_key job_id).
  { intros Heq. by apply (job_key_not_phase_key job_id "phase1"). }
  split; [by rewrite Hd, lookup_insert_ne|].
  do 4 (split; [done|]). split.
  - intros h0. rewrite Hd, lookup_insert_eq. discriminate.
  - unfold phase_list at 1. rewrite Hd, lookup_insert_eq.
    rewrite length_app, Hn. cbn. lia.
Qed.

Lemma counting_set_record (r : redis) (job_id : string)
    (h : gmap string pyval) (total processed failed : Z) (n : nat) :
  (∀ h0, data r !! phase_key job_id "phase1" ≠ Some (RHash h0)) →
  length (phase_list r job_id "phase1") = n →
  well_formed h → h !! "total_files" = Some (PInt total) →
  h !! "processed_files" = Some (PInt processed) →
  h !! "failed_files" = Some (PInt failed) →
  counting (set_record r job_id h) job_id total processed failed n.
Proof.
  intros Hl Hn Hwf Ht Hp Hf. exists h.
  assert (Hne : job_key job_id ≠ phase_key job_id "phase1")
    by apply job_key_not_phase_key.
  split; [apply set_record_lookup|]. do 4 (split; [done|]).
  unfold phase_list, set_record. cbn. rewrite lookup_insert_ne by done.
  split; [done|]. exact Hn.
Qed.

Lemma counting_increment_processed (r : redis) (job_id : string)
    (total processed failed : Z) (n : nat) :
  counting r job_id total processed failed n →
  ∃ r', increment_processed job_id r = Ok tt r'
    ∧ counting r' job_id total (processed + 1) failed n.
Proof.
  intros (h & Hk & Hwf & Ht & Hp & Hf & Hl & Hn).
  eexists. split; [exact (increment_processed_record r job_id h _ Hk Hwf Hp)|].
  apply counting_set_record; try done.
  - apply refresh_well_formed, counter_well_formed; [by right; left|done].
  - rewrite refresh_counters by (by left). by rewrite lookup_insert_ne by discriminate.
  - rewrite refresh_counters by (by right; left). by rewrite lookup_insert_eq.
  - rewrite refresh_counters by (by right; right).
    by rewrite lookup_insert_ne by discriminate.
Qed.

Lemma counting_increment_failed (r : redis) (job_id : string)
    (total processed failed : Z) (n : nat) :
  counting r job_id total processed failed n →
  ∃ r', increment_failed job_id r = Ok tt r'
    ∧ counting r' job_id total (processed + 1) (failed + 1) n.
Proof.
  intros (h & Hk & Hwf & Ht & Hp & Hf & Hl & Hn).
  eexists. split; [exact (increment_failed_record r job_id h _ _ Hk Hwf Hp Hf)|].
  apply counting_set_record; try done.
  - apply refresh_well_formed, counter_well_formed; [by right; left|].
    apply counter_well_formed; [by right; right|done].
  - rewrite refresh_counters by (by left). by rewrite !lookup_insert_ne by discriminate.
  - rewrite refresh_counters by (by right; left). by rewrite lookup_insert_eq.
  - rewrite refresh_counters by (by right; right).
    rewrite lookup_insert_ne by discriminate. by rewrite lookup_insert_eq.
Qed.

(** A unit settles once: one more entry in the list, one more processed,
    at most one more failed. *)
Lemma unit_settles_once (r : redis) (t : Phase1.task) (started ended : Z)
    (total processed failed : Z) (n : nat) :
  counting r (Phase1.job_id t) total processed failed n →
  ∃ res r' failed',
    Phase1.process_single_file_cdr env t started ended r = Ok res r'
    ∧ counting r' (Phase1.job_id t) total (processed + 1) failed' (Datatypes.S n)
    ∧ failed ≤ failed' ≤ failed + 1.
Proof.
  intros Hc. unfold Phase1.process_single_file_cdr, bind, attempt.
  set (result0 := [_; _; _; _; _]).
  destruct (reads_only_sanitize_unit t result0 ended r) as [[res ->]|[e ->]].
  - unfold try_except, bind.
    destruct (counting_add_file_result r _ _ _ _ _ (JDict res) Hc) as (r1 & -> & Hc1).
    destruct (counting_increment_processed r1 _ _ _ _ _ Hc1) as (r2 & -> & Hc2).
    exists (JDict res), r2, failed. split; [done|]. split; [done|lia].
  - unfold Phase1.unit_failed, bind.
    match goal with
    | |- context [add_file_result _ _ ?j r] =>
        destruct (counting_add_file_result r _ _ _ _ _ j Hc) as (r1 & -> & Hc1)
    end.
    destruct (counting_increment_failed r1 _ _ _ _ _ Hc1) as (r2 & -> & Hc2).
    eexists _, r2, (failed + 1). split; [done|]. split; [done|lia].
Qed.

Lemma units_settle_once (tasks : list Phase1.task) (job_id : string) (clock : Z)
    (r : redis) (total processed failed : Z) (n : nat) :
  Forall (λ t, Phase1.job_id t = job_id) tasks →
  counting r job_id total processed failed n →
  ∃ results r' failed',
    Phase1.run_units env tasks clock r = Ok results r'
    ∧ counting r' job_id total (processed + Z.of_nat (length tasks)) failed'
        (n + length tasks)
    ∧ failed ≤ failed' ≤ failed + Z.of_nat (length tasks).
Proof.
  intros Hall. revert r processed failed n.
  induction Hall as [|t tasks Ht Hall IH]; intros r processed failed n Hc.
  - exists [], r, failed. cbn. rewrite Z.add_0_r, Nat.add_0_r.
    split; [done|]. split; [done|lia].
  - rewrite <- Ht in Hc.
    destruct (unit_settles_once r t clock clock _ _ _ _ Hc) as (res & r1 & f1 & Hu & Hc1 & Hf1).
    rewrite Ht in Hc1.
    destruct (IH r1 _ _ _ Hc1) as (results & r' & f' & Hr & Hc' & Hf').
    exists (res :: results), r', f'.
    unfold Phase1.run_units in *. cbn [map_m]. unfold bind at 1. rewrite Hu.
    unfold bind at 1. rewrite Hr. split; [done|].
    cbn [length].
    replace (processed + Z.of_nat (Datatypes.S (length tasks)))
      with (processed + 1 + Z.of_nat (length tasks)) by lia.
    replace (n + Datatypes.S (length tasks))%nat with (Datatypes.S n + length tasks)%nat by lia.
    split; [done|lia].
Qed.

End phase1.

Section phase1_batch.
Context `{JsonCodec}.
Variable env : Phase1.adapters.
Import JobManager.

Lemma length_fan_out {A B C} (xs : list A) (ys : list B) (f : A → B → C) :
  length (x ← xs; y ← ys; [f x y]) = (length xs * length ys)%nat.
Proof.
  induction xs as [|x xs IH]; [done|].
  cbn. rewrite length_app, IH. f_equal. clear IH.
  induction ys as [|y ys IHy]; [done|]. cbn. by rewrite IHy.
Qed.

Lemma fan_out_job_id (job_id container_name : string) (fps engines : list string) :
  Forall (λ t, Phase1.job_id t = job_id)
    (file_path ← fps; engine_name ← engines;
     [Phase1.Task job_id container_name file_path engine_name]).
Proof.
  induction fps as [|fp fps IH]; [constructor|].
  cbn. apply Forall_app. split; [|exact IH]. clear IH.
  induction engines as [|e engines IHe]; [constructor|].
  cbn. constructor; [reflexivity|]. exact IHe.
Qed.

Lemma counting_update_harmless (r : redis) (job_id : string)
    (updates : gmap string pyval) (total processed failed : Z) (n : nat) :
  harmless updates → size updates ≠ 0%nat →
  counting r job_id total processed failed n →
  ∃ r', update_job job_id updates r = Ok tt r'
    ∧ counting r' job_id total processed failed n.
Proof.
  intros Hm Hsz (h & Hk & Hwf & Ht & Hp & Hf & Hl & Hn).
  destruct (update_job_harmless r job_id h updates Hk Hwf Hm Hsz)
    as (h' & Hu & Hwf' & _ & Ht' & Hp' & Hf').
  eexists. split; [exact Hu|].
  apply counting_set_record; try done; congruence.
Qed.

Lemma counting_set_total (r : redis) (job_id : string)
    (total total' processed failed : Z) (n : nat) :
  counting r job_id total processed failed n →
  ∃ r', update_job job_id {[ "total_files" := PInt total' ]} r = Ok tt r'
    ∧ counting r' job_id total' processed failed n.
Proof.
  intros (h & Hk & Hwf & Ht & Hp & Hf & Hl & Hn).
  pose proof (update_job_well_formed r job_id h {[ "total_files" := PInt total' ]} Hk)
    as Hu.
  rewrite map_fmap_singleton in Hu. cbn [serialize] in Hu.
  rewrite <- insert_union_singleton_l in Hu.
  assert (Hwf' : well_formed (<["total_files" := PInt total']> h)).
  { apply counter_well_formed; [left; reflexivity|exact Hwf]. }
  eexists. split.
  { apply Hu; [|storable_patch|exact Hwf']. rewrite map_size_singleton.
    discriminate. }
  apply counting_set_record.
  - exact Hl.
  - exact Hn.
  - apply refresh_well_formed. exact Hwf'.
  - rewrite refresh_counters by (left; reflexivity). apply lookup_insert_eq.
  - rewrite refresh_counters by (right; left; reflexivity).
    rewrite lookup_insert_ne by discriminate. exact Hp.
  - rewrite refresh_counters by (right; right; reflexivity).
    rewrite lookup_insert_ne by discriminate. exact Hf.
Qed.

(** The batch task: the total is the number of files, the units are the
    files times the engines. *)
Lemma process_cdr_batch_counting (r : redis) (job_id container_name : string)
    (file_paths : option (list string)) (fps : list string) (now : Z)
    (total processed failed : Z) (n : nat) :
  file_paths = Some fps
  ∨ (file_paths = None ∧ Phase1.list_files env container_name = inr fps) →
  counting r job_id total processed failed n →
  ∃ r', Phase1.process_cdr_batch env job_id container_name file_paths now r
        = Ok (file_path ← fps; engine_name ← Phase1.cdr_engines;
              [Phase1.Task job_id container_name file_path engine_name]) r'
    ∧ counting r' job_id (Z.of_nat (length fps)) processed failed n.
Proof.
  intros Hfps Hc. unfold Phase1.process_cdr_batch, try_except, bind.
  match goal with
  | |- context [update_job job_id ?m r] =>
      destruct (counting_update_harmless r job_id m total processed failed n)
        as (r1 & -> & Hc1); [| |exact Hc|]
  end.
  { harmless_patch. }
  { apply (size_nonzero_lookup _ "status" (PStr "running")). patch_lookup.
    reflexivity. }
  assert (Hlist : (match file_paths with
                   | None => call (Phase1.list_files env container_name)
                   | Some l => ret l
                   end) r1 = Ok fps r1).
  { destruct Hfps as [Hs|[Hn Hl]].
    - rewrite Hs. reflexivity.
    - rewrite Hn. unfold call. rewrite Hl. reflexivity. }
  rewrite Hlist.
  destruct (counting_set_total r1 job_id _ (Z.of_nat (length fps)) _ _ _ Hc1)
    as (r2 & -> & Hc2).
  exists r2. split; [reflexivity|exact Hc2].
Qed.

(** C2, where the code departs from it. After Phase 1 of a job whose
    counters start at zero, with [n] files to process: [total_files] is
    [n], the number of files, while [processed_files] is [3 * n], one for
    each of the units dispatched (a unit per file and CDR engine), and
    the Phase-1 list has [3 * n] entries; [failed_files] lies between 0 and
    [processed_files]. So [Processed ≤ TotalUnits] is broken as soon as
    there is a file. *)
Theorem processed_counts_units_total_counts_files (r : redis)
    (job_id container_name : string) (file_paths : option (list string))
    (fps : list string) (now clock total : Z) :
  file_paths = Some fps
  ∨ (file_paths = None ∧ Phase1.list_files env container_name = inr fps) →
  counting r job_id total 0 0 0 →
  ∃ tasks r1 results r2,
    Phase1.process_cdr_batch env job_id container_name file_paths now r = Ok tasks r1
    ∧ Phase1.run_units env tasks clock r1 = Ok results r2
    ∧ length tasks = (3 * length fps)%nat
    ∧ length (phase_list r2 job_id "phase1") = (3 * length fps)%nat
    ∧ counter r2 job_id "total_files" = Z.of_nat (length fps)
    ∧ counter r2 job_id "processed_files" = 3 * Z.of_nat (length fps)
    ∧ 0 ≤ counter r2 job_id "failed_files" ≤ counter r2 job_id "processed_files"
    ∧ (fps ≠ [] →
       counter r2 job_id "total_files" < counter r2 job_id "processed_files").
Proof.
  intros Hfps Hc.
  destruct (process_cdr_batch_counting r job_id container_name file_paths fps now
              _ _ _ _ Hfps Hc) as (r1 & Hb & Hc1).
  set (tasks := _ ← fps; _) in Hb.
  assert (Hlen : length tasks = (3 * length fps)%nat).
  { unfold tasks. rewrite length_fan_out. cbn. lia. }
  destruct (units_settle_once env tasks job_id clock r1 _ _ _ _
              (fan_out_job_id job_id container_name fps Phase1.cdr_engines) Hc1)
    as (results & r2 & failed' & Hr & Hc2 & Hf).
  exists tasks, r1, results, r2.
  split; [exact Hb|]. split; [exact Hr|]. split; [exact Hlen|].
  destruct Hc2 as (h & Hk & _ & Ht & Hp & Hfl & _ & Hn).
  assert (Hct : counter r2 job_id "total_files" = Z.of_nat (length fps)).
  { unfold counter, job_field, job_record. rewrite Hk. cbn [mbind option_bind].
    rewrite Ht. reflexivity. }
  assert (Hcp : counter r2 job_id "processed_files" = 3 * Z.of_nat (length fps)).
  { unfold counter, job_field, job_record. rewrite Hk. cbn [mbind option_bind].
    rewrite Hp. lia. }
  assert (Hcf : counter r2 job_id "failed_files" = failed').
  { unfold counter, job_field, job_record. rewrite Hk. cbn [mbind option_bind].
    rewrite Hfl. reflexivity. }
  split; [lia|]. split; [exact Hct|]. split; [exact Hcp|]. split; [lia|].
  intros Hne. destruct fps as [|fp fps]; [by destruct Hne|].
  rewrite Hct, Hcp. cbn [length]. lia.
Qed.

End phase1_batch.

Lemma fresh_job_counting : @counting RefJson.codec Scenario.fresh_job "j1" 0 0 0 0.
Proof.
  exists Scenario4.fresh_record.
  split; [vm_compute; reflexivity|].
  split; [apply well_formedb_true; vm_compute; reflexivity|].
  split; [vm_compute; reflexivity|].
  split; [vm_compute; reflexivity|].
  split; [vm_compute; reflexivity|].
  split; [intros h0; vm_compute; discriminate|].
  vm_compute. reflexivity.
Qed.

Lemma processed_counts_units_total_counts_files_witness :
  @counting RefJson.codec Scenario.fresh_job "j1" 0 0 0 0
  ∧ ∃ tasks r1 results r2,
      @Phase1.process_cdr_batch RefJson.codec Scenario5.all_good "j1" "test-files"
        (Some ["a.pdf"]) 110 Scenario.fresh_job = Ok tasks r1
      ∧ @Phase1.run_units RefJson.codec Scenario5.all_good tasks 120 r1 = Ok results r2
      ∧ length tasks = (3 * length ["a.pdf"])%nat
      ∧ length (phase_list r2 "j1" "phase1") = (3 * length ["a.pdf"])%nat
      ∧ counter r2 "j1" "total_files" = Z.of_nat (length ["a.pdf"])
      ∧ counter r2 "j1" "processed_files" = 3 * Z.of_nat (length ["a.pdf"])
      ∧ 0 ≤ counter r2 "j1" "failed_files" ≤ counter r2 "j1" "processed_files"
      ∧ (["a.pdf"] ≠ [] →
         counter r2 "j1" "total_files" < counter r2 "j1" "processed_files").
Proof.
  split; [exact fresh_job_counting|].
  apply (@processed_counts_units_total_counts_files RefJson.codec Scenario5.all_good
           Scenario.fresh_job "j1" "test-files" (Some ["a.pdf"]) ["a.pdf"] 110 120 0).
  - left. reflexivity.
  - exact fresh_job_counting.
Defined.

(** The run of the scenario: one file, three engines, every unit
    succeeds; the job ends with one file in total, three processed, and a
    progress of 300 percent. *)
Example one_file_three_processed :
  length Scenario5.tasks = 3%nat
  ∧ counter Scenario5.settled "j1" "total_files" = 1
  ∧ counter Scenario5.settled "j1" "processed_files" = 3
  ∧ counter Scenario5.settled "j1" "failed_files" = 0
  ∧ job_field Scenario5.settled "j1" "progress_percentage"
    = Some (PFloat (JobManager.percentage 3 1))
  ∧ (JobManager.percentage 3 1 == 300)%Q.
Proof. vm_compute. repeat split; reflexivity. Qed.

(** ** The file plan *)

Section plan.
Context {S : Type}.
Variable set_order : list json → list json.

Lemma bind_ok {A B} (m : M S A) (k : A → M S B) (s : S) (a : A) (s' : S) :
  m s = Ok a s' → bind m k s = k a s'.
Proof. intros Hm. unfold bind. by rewrite Hm. Qed.

Lemma jget_field (r : json) (k : string) (s : S) :
  is_dict r = true → jget r k s = Ok (field r k) s.
Proof. by destruct r. Qed.

Lemma jget_not_dict (r : json) (k : string) (s : S) (v : json) (s' : S) :
  jget r k s = Ok v s' → is_dict r = true.
Proof. by destruct r. Qed.

(** The first loop succeeds only on dicts whose successful entries have
    hashable paths, and then computes [originals_of]. *)
Lemma original_files_ok (results acc l : list json) (s s' : S) :
  Plan.original_files results acc s = Ok l s' →
  s' = s ∧ l = originals_of results acc
  ∧ Forall (λ r, is_dict r = true) results
  ∧ Forall (λ r, is_success r = true → hashable (field r "file_path") = true) results.
Proof.
  revert acc l s'. induction results as [|r results IH]; intros acc l s';
    cbn [Plan.original_files].
  - intros [= <- <-]. split; [reflexivity|]. split; [reflexivity|]. split; constructor.
  - unfold bind at 1. destruct (jget r "status" s) as [st s1|e s1|s1] eqn:Hst; try done.
    pose proof (jget_not_dict r _ _ _ _ Hst) as Hd.
    rewrite (jget_field r "status" s Hd) in Hst. injection Hst as <- <-.
    fold (is_success r). destruct (is_success r) eqn:Hs.
    + unfold bind at 1. rewrite (jget_field r "file_path" s Hd).
      destruct (hashable (field r "file_path")) eqn:Hh; [|done].
      intros Hr. destruct (IH _ _ _ Hr) as (-> & -> & Hds & Hhs).
      split; [reflexivity|]. split.
      { unfold originals_of. cbn [foldl]. by rewrite Hs. }
      split; constructor; done.
    + intros Hr. destruct (IH _ _ _ Hr) as (-> & -> & Hds & Hhs).
      split; [reflexivity|]. split.
      { unfold originals_of. cbn [foldl]. by rewrite Hs. }
      split; constructor; try done. congruence.
Qed.

Lemma original_files_total (results acc : list json) (s : S) :
  Forall (λ r, is_dict r = true) results →
  Forall (λ r, is_success r = true → hashable (field r "file_path") = true) results →
  Plan.original_files results acc s = Ok (originals_of results acc) s.
Proof.
  intros Hd. revert acc. induction Hd as [|r results Hr Hd IH]; intros acc Hh; [done|].
  apply Forall_cons in Hh as [Hh1 Hh]. cbn. unfold bind at 1.
  rewrite (jget_field r "status" s Hr). unfold originals_of. cbn.
  fold (is_success r). destruct (is_success r).
  - unfold bind at 1. rewrite (jget_field r "file_path" s Hr).
    rewrite Hh1 by done. by apply IH.
  - by apply IH.
Qed.

Lemma post_cdr_ok (original_file : json) (results : list json) (s : S) :
  Forall (λ r, is_dict r = true) results →
  Plan.post_cdr original_file results s
  = Ok (post_of original_file <$> List.filter (matches original_file) results) s.
Proof.
  induction 1 as [|r results Hr Hd IH]; [done|].
  cbn [Plan.post_cdr List.filter].
  rewrite (bind_ok _ _ _ _ _ (jget_field r "file_path" s Hr)).
  unfold matches at 1. fold (is_success r).
  destruct (py_eq (field r "file_path") original_file) eqn:Heq; cbn [andb].
  - rewrite (bind_ok (bind _ _) _ s (is_success r) s)
      by (by rewrite (bind_ok _ _ _ _ _ (jget_field r "status" s Hr))).
    destruct (is_success r).
    + rewrite (bind_ok (bind _ _) _ s [post_of original_file r] s).
      * rewrite (bind_ok _ _ _ _ _ IH). done.
      * rewrite (bind_ok _ _ _ _ _ (jget_field r "sanitized_blob_path" s Hr)).
        by rewrite (bind_ok _ _ _ _ _ (jget_field r "engine_name" s Hr)).
    + rewrite (bind_ok (ret []) _ s [] s) by done.
      by rewrite (bind_ok _ _ _ _ _ IH).
  - rewrite (bind_ok (ret false) _ s false s) by done.
    rewrite (bind_ok (ret []) _ s [] s) by done.
    by rewrite (bind_ok _ _ _ _ _ IH).
Qed.

Lemma files_for_ok (originals results : list json) (s : S) :
  Forall (λ r, is_dict r = true) results →
  Plan.files_for originals results s = Ok (files_of originals results) s.
Proof.
  intros Hd. induction originals as [|f originals IH]; [done|].
  cbn. unfold bind at 1. rewrite (post_cdr_ok f results s Hd).
  unfold bind at 1. by rewrite IH.
Qed.

(** The plan, when it does not raise. *)
Lemma plan_ok (results files : list json) (s s' : S) :
  Plan.plan set_order results s = Ok files s' →
  s' = s ∧ files = files_of (set_order (originals_of results [])) results
  ∧ Forall (λ r, is_dict r = true) results
  ∧ Forall (λ r, is_success r = true → hashable (field r "file_path") = true) results.
Proof.
  unfold Plan.plan, bind.
  destruct (Plan.original_files results [] s) as [l s1|e s1|s1] eqn:Ho; try done.
  destruct (original_files_ok _ _ _ _ _ Ho) as (-> & -> & Hd & Hh).
  rewrite (files_for_ok _ results s Hd). intros [= <- <-]. done.
Qed.

Lemma plan_total (results : list json) (s : S) :
  Forall (λ r, is_dict r = true) results →
  Forall (λ r, is_success r = true → hashable (field r "file_path") = true) results →
  Plan.plan set_order results s
  = Ok (files_of (set_order (originals_of results [])) results) s.
Proof.
  intros Hd Hh. unfold Plan.plan, bind.
  rewrite (original_files_total results [] s Hd Hh). by apply files_for_ok.
Qed.

End plan.

(** ** Counting the plan *)

Lemma py_eq_key (a b : json) :
  hashable a = true → hashable b = true →
  py_eq a b = true ↔ key_of a = key_of b.
Proof.
  intros Ha Hb. unfold py_eq, key_of.
  destruct (to_num a) as [x|] eqn:Hx, (to_num b) as [y|] eqn:Hy.
  - rewrite Qeq_bool_iff, <- Q2Qc_eq_iff. split; congruence.
  - split; [done|]. by destruct b.
  - split; [done|]. by destruct a.
  - destruct a, b; try done; cbn.
    rewrite bool_decide_eq_true. split; congruence.
Qed.

Lemma existsb_py_eq (x : json) (acc : list json) :
  hashable x = true → Forall (λ a, hashable a = true) acc →
  existsb (py_eq x) acc = true ↔ key_of x ∈ key_of <$> acc.
Proof.
  intros Hx Hacc. induction Hacc as [|a acc Ha Hacc IH]; cbn.
  - split; [done|]. by intros ?%elem_of_nil.
  - rewrite orb_true_iff, IH, elem_of_cons, (py_eq_key x a Hx Ha). done.
Qed.

Lemma originals_of_dedup (results acc : list json) :
  originals_of results acc = dedup_into acc (success_paths results).
Proof.
  revert acc. unfold originals_of, dedup_into, success_paths, successes.
  induction results as [|r results IH]; intros acc; [done|].
  cbn. destruct (is_success r); cbn; apply IH.
Qed.

(** The set holds one representative of every key that was added. *)
Lemma dedup_into_spec (acc paths : list json) :
  Forall (λ a, hashable a = true) acc →
  Forall (λ a, hashable a = true) paths →
  NoDup (key_of <$> acc) →
  NoDup (key_of <$> dedup_into acc paths)
  ∧ Forall (λ a, hashable a = true) (dedup_into acc paths)
  ∧ ∀ k, k ∈ key_of <$> dedup_into acc paths
         ↔ k ∈ key_of <$> acc ∨ k ∈ key_of <$> paths.
Proof.
  intros Hacc Hp. revert acc Hacc.
  induction Hp as [|p paths Hp Hps IH]; intros acc Hacc Hnd.
  - cbn. split; [done|]. split; [done|]. intros k. rewrite elem_of_nil. tauto.
  - unfold dedup_into. cbn [foldl]. fold (dedup_into (set_add p acc) paths).
    unfold set_add.
    destruct (existsb (py_eq p) acc) eqn:Hex.
    + apply (existsb_py_eq p acc Hp Hacc) in Hex.
      destruct (IH acc Hacc Hnd) as (H1 & H2 & H3).
      split; [done|]. split; [done|]. intros k. rewrite H3, fmap_cons, elem_of_cons.
      split; [tauto|]. intros [?|[->|?]]; tauto.
    + assert (Hnin : key_of p ∉ key_of <$> acc).
      { intros Hin. apply (existsb_py_eq p acc Hp Hacc) in Hin. congruence. }
      destruct (IH (acc ++ [p])%list) as (H1 & H2 & H3).
      * apply Forall_app. split; [done|]. by constructor.
      * rewrite fmap_app. apply NoDup_app. split; [done|]. split.
        -- intros k Hk Hk'. cbn in Hk'. apply list_elem_of_singleton in Hk'.
           by subst.
        -- cbn. apply NoDup_singleton.
      * split; [done|]. split; [done|]. intros k.
        rewrite H3, fmap_app, elem_of_app, !fmap_cons, !elem_of_cons, fmap_nil.
        rewrite elem_of_nil. tauto.
Qed.

Lemma one_hit (K : list pykey) (x : pykey) :
  NoDup K → x ∈ K →
  sum_list ((λ k, if bool_decide (x = k) then 1 else 0)%nat <$> K) = 1%nat.
Proof.
  induction 1 as [|k K Hk Hnd IH]; [by intros ?%elem_of_nil|].
  intros Hin. cbn. case_bool_decide as Hx.
  - subst k. f_equal. clear IH Hin.
    induction K as [|k K IHK]; [done|]. cbn.
    apply not_elem_of_cons in Hk as [Hne Hk].
    apply NoDup_cons in Hnd as [_ Hnd].
    rewrite bool_decide_eq_false_2 by done. by apply IHK.
  - apply elem_of_cons in Hin as [?|Hin]; [done|]. by rewrite IH.
Qed.

Lemma sum_list_add {A} (f g : A → nat) (l : list A) :
  sum_list ((λ x, f x + g x)%nat <$> l)
  = (sum_list (f <$> l) + sum_list (g <$> l))%nat.
Proof. induction l as [|x l IH]; [done|]. cbn. rewrite IH. lia. Qed.

(** Every path is counted once, under its key. *)
Lemma sum_occ (K : list pykey) (paths : list json) :
  NoDup K → (∀ p, p ∈ paths → key_of p ∈ K) →
  sum_list ((λ k, occ k paths) <$> K) = length paths.
Proof.
  intros Hnd. induction paths as [|p paths IH]; intros Hin.
  - unfold occ. cbn. clear. induction K as [|k K IHK]; [done|]. cbn. exact IHK.
  - assert (Hstep : ∀ k, occ k (p :: paths)
        = ((if bool_decide (key_of p = k) then 1 else 0) + occ k paths)%nat).
    { intros k. unfold occ. cbn. by destruct (bool_decide (key_of p = k)). }
    erewrite list_fmap_ext; [|intros i k _; apply Hstep].
    rewrite sum_list_add, one_hit, IH; [done| |done|].
    + intros q Hq. apply Hin. by right.
    + apply Hin. by left.
Qed.

Lemma matches_occ (f : json) (results : list json) :
  hashable f = true →
  Forall (λ r, is_success r = true → hashable (field r "file_path") = true) results →
  length (List.filter (matches f) results) = occ (key_of f) (success_paths results).
Proof.
  intros Hf. unfold occ, success_paths, successes.
  induction 1 as [|r results Hr Hrs IH]; [done|].
  cbn [List.filter]. unfold matches at 1.
  destruct (is_success r) eqn:Hs.
  - rewrite andb_true_r. cbn [fmap list_fmap List.filter].
    destruct (py_eq (field r "file_path") f) eqn:Heq.
    + rewrite bool_decide_eq_true_2
        by (apply py_eq_key; [by apply Hr|done|done]).
      cbn. f_equal. exact IH.
    + rewrite bool_decide_eq_false_2; [exact IH|].
      intros Hk. apply py_eq_key in Hk; [congruence|by apply Hr|done].
  - rewrite andb_false_r. exact IH.
Qed.

Lemma length_files_of (originals results : list json) :
  length (files_of originals results)
  = (length originals
     + sum_list ((λ f, length (List.filter (matches f) results)) <$> originals))%nat.
Proof.
  unfold files_of. induction originals as [|f originals IH]; [done|].
  cbn. rewrite length_app, length_fmap, IH. lia.
Qed.

Lemma has_version_pre (version : string) (f : json) :
  has_version version (pre_of f) = bool_decide ("pre-cdr" = version).
Proof.
  unfold has_version, pre_of, field.
  replace (dict_get _ "version") with (Some (JStr "pre-cdr"))
    by (vm_compute; reflexivity).
  reflexivity.
Qed.

Lemma has_version_post (version : string) (f r : json) :
  has_version version (post_of f r) = bool_decide ("post-cdr" = version).
Proof.
  unfold has_version, post_of. unfold field at 1.
  replace (dict_get _ "version") with (Some (JStr "post-cdr"))
    by (vm_compute; reflexivity).
  reflexivity.
Qed.

Lemma count_version_post (version : string) (f : json) (l : list json) :
  length (List.filter (has_version version) (post_of f <$> l))
  = if bool_decide ("post-cdr" = version) then length l else 0%nat.
Proof.
  induction l as [|x l IHl]; [by destruct (bool_decide _)|].
  cbn [fmap list_fmap List.filter]. rewrite has_version_post.
  change (list_fmap json json (post_of f) l) with (post_of f <$> l).
  destruct (bool_decide ("post-cdr" = version)); cbn [length]; by rewrite IHl.
Qed.

Lemma count_version_files_of (version : string) (originals results : list json) :
  length (List.filter (has_version version) (files_of originals results))
  = ((if bool_decide ("pre-cdr" = version) then length originals else 0)
     + (if bool_decide ("post-cdr" = version)
        then sum_list ((λ f, length (List.filter (matches f) results)) <$> originals)
        else 0))%nat.
Proof.
  unfold files_of. induction originals as [|f originals IH].
  - cbn. by destruct (bool_decide _), (bool_decide _).
  - cbn [mbind list_bind]. rewrite List.filter_app, length_app, IH.
    cbn [List.filter]. rewrite has_version_pre.
    assert (Hsum : ∀ (g : json → nat) l,
      sum_list (g <$> (f :: l)) = (g f + sum_list (g <$> l))%nat) by done.
    rewrite Hsum.
    destruct (bool_decide ("pre-cdr" = version)); cbn [length];
      rewrite count_version_post;
      destruct (bool_decide ("post-cdr" = version)); cbn [length]; lia.
Qed.

(** The plan has one pre-CDR entry for each distinct original file and
    one post-CDR entry for each successful result. *)
Lemma plan_counts (results : list json) :
  Forall (λ r, is_success r = true → hashable (field r "file_path") = true) results →
  length (originals_of results []) = U_count results
  ∧ sum_list ((λ f, length (List.filter (matches f) results))
               <$> originals_of results []) = S_count results.
Proof.
  intros Hh. rewrite originals_of_dedup.
  assert (Hp : Forall (λ a, hashable a = true) (success_paths results)).
  { unfold success_paths, successes. induction Hh as [|r results Hr Hrs IH]; [done|].
    cbn. destruct (is_success r) eqn:Hs; [|exact IH]. constructor; [by apply Hr|exact IH]. }
  destruct (dedup_into_spec [] (success_paths results)) as (Hnd & Hha & Hkeys);
    [done|done|constructor|].
  split.
  - unfold U_count. rewrite <- (length_fmap key_of).
    rewrite <- (size_list_to_set (C:=gset pykey) _ Hnd). f_equal.
    apply set_eq. intros k. rewrite !elem_of_list_to_set, Hkeys.
    cbn. rewrite elem_of_nil. tauto.
  - unfold S_count.
    erewrite list_fmap_ext.
    2:{ intros i f Hf. apply matches_occ; [|exact Hh].
        eapply Forall_lookup_1 in Hha; [exact Hha|exact Hf]. }
    transitivity (sum_list ((λ k, occ k (success_paths results))
                    <$> (key_of <$> dedup_into [] (success_paths results)))).
    { by rewrite <- list_fmap_compose. }
    rewrite sum_occ; [by unfold success_paths; rewrite length_fmap|done|].
    intros p Hp'. apply Hkeys. right. by apply list_elem_of_fmap_2.
Qed.

(** ** The plan, up to the order of the set *)

Lemma bind_nil_all {A B} (l : list A) : (x ← l; ([] : list B)) = [].
Proof. induction l as [|x l IH]; [reflexivity|]. cbn. exact IH. Qed.

Lemma bind_singleton_fmap {A B} (f : A → B) (l : list A) :
  (x ← l; [f x]) = f <$> l.
Proof. induction l as [|x l IH]; [reflexivity|]. cbn. by rewrite IH. Qed.

Lemma bind_app_perm {A B} (g k : A → list B) (l : list A) :
  (x ← l; (g x ++ k x)%list) ≡ₚ ((x ← l; g x) ++ (x ← l; k x))%list.
Proof.
  induction l as [|x l IH]; [reflexivity|].
  cbn [mbind list_bind]. rewrite IH, <- !app_assoc.
  apply Permutation_app_head. rewrite !app_assoc.
  apply Permutation_app_tail, Permutation_app_comm.
Qed.

(** The plan is the pre-CDR entries of the originals and the post-CDR
    entries of the results that match them. *)
Lemma files_of_split (originals results : list json) :
  files_of originals results
  ≡ₚ ((pre_of <$> originals)
      ++ (f ← originals; post_of f <$> List.filter (matches f) results))%list.
Proof.
  unfold files_of.
  rewrite <- (bind_singleton_fmap pre_of originals).
  rewrite <- bind_app_perm. reflexivity.
Qed.

Lemma py_eq_miss (x : json) (originals : list json) :
  hashable x = true → Forall (λ a, hashable a = true) originals →
  key_of x ∉ key_of <$> originals →
  Forall (λ f, py_eq x f = false) originals.
Proof.
  intros Hx Hh Hnin. induction Hh as [|f originals Hf Hh IH]; [constructor|].
  rewrite fmap_cons in Hnin. apply not_elem_of_cons in Hnin as [Hne Hnin].
  constructor; [|by apply IH].
  destruct (py_eq x f) eqn:Heq; [|reflexivity].
  apply py_eq_key in Heq; [contradiction|assumption..].
Qed.

(** The member of the set equal to [x] is found, and it is the only
    one. *)
Lemma find_original (x : json) (originals : list json) :
  hashable x = true → Forall (λ a, hashable a = true) originals →
  key_of x ∈ key_of <$> originals →
  ∃ f, List.find (py_eq x) originals = Some f ∧ f ∈ originals
       ∧ py_eq x f = true.
Proof.
  intros Hx Hh. induction Hh as [|f originals Hf Hh IH]; [by intros ?%elem_of_nil|].
  rewrite fmap_cons, elem_of_cons. intros Hin. cbn [List.find].
  destruct (py_eq x f) eqn:Heq.
  - exists f. split; [reflexivity|]. split; [by left|exact Heq].
  - destruct Hin as [Hk|Hin].
    + apply (py_eq_key x f Hx Hf) in Hk. congruence.
    + destruct (IH Hin) as (f' & Hfind & Hf' & Heq'). exists f'.
      split; [exact Hfind|]. split; [by right|exact Heq'].
Qed.

Lemma hit_once {B} (g : json → B) (x : json) (originals : list json) :
  hashable x = true → Forall (λ a, hashable a = true) originals →
  NoDup (key_of <$> originals) → key_of x ∈ key_of <$> originals →
  (f ← originals; if py_eq x f then [g f] else [])
  = [g (default JNull (List.find (py_eq x) originals))].
Proof.
  intros Hx Hh. induction Hh as [|f originals Hf Hh IH]; [by intros _ ?%elem_of_nil|].
  rewrite fmap_cons, NoDup_cons, elem_of_cons. intros [Hnin Hnd] Hin.
  cbn [mbind list_bind List.find].
  destruct (py_eq x f) eqn:Heq.
  - cbn [default app]. f_equal.
    assert (Hmiss : Forall (λ f', py_eq x f' = false) originals).
    { apply py_eq_miss; [assumption..|].
      apply (py_eq_key x f Hx Hf) in Heq. by rewrite Heq. }
    clear IH Hnin Hnd Hin Hh. induction Hmiss as [|f' originals Hf' _ IH']; [reflexivity|].
    cbn [mbind list_bind]. by rewrite Hf'.
  - destruct Hin as [Hk|Hin].
    + apply (py_eq_key x f Hx Hf) in Hk. congruence.
    + cbn [app]. by apply IH.
Qed.

(** Every successful result gives one post-CDR entry, under the member
    of the set that stands for its file. *)
Lemma posts_perm (originals results : list json) :
  Forall (λ a, hashable a = true) originals →
  NoDup (key_of <$> originals) →
  Forall (λ r, is_success r = true → hashable (field r "file_path") = true) results →
  (∀ r, r ∈ results → is_success r = true →
     key_of (field r "file_path") ∈ key_of <$> originals) →
  (f ← originals; post_of f <$> List.filter (matches f) results)
  ≡ₚ (λ res, post_of (original_of originals res) res) <$> successes results.
Proof.
  intros Hho Hnd Hh. induction Hh as [|r results Hr Hh IH]; intros Hcov.
  - cbn [List.filter fmap list_fmap]. rewrite bind_nil_all. reflexivity.
  - assert (Hcov' : ∀ r0, r0 ∈ results → is_success r0 = true →
                      key_of (field r0 "file_path") ∈ key_of <$> originals).
    { intros r0 Hr0. apply Hcov. by right. }
    specialize (IH Hcov'). unfold successes in *. cbn [List.filter].
    destruct (is_success r) eqn:Hs.
    + rewrite fmap_cons.
      transitivity
        ((f ← originals;
          ((if py_eq (field r "file_path") f then [post_of f r] else [])
           ++ (post_of f <$> List.filter (matches f) results))%list)).
      { erewrite list_bind_ext; [reflexivity| |reflexivity].
        intros f. unfold matches at 1. rewrite Hs, andb_true_r.
        by destruct (py_eq (field r "file_path") f). }
      rewrite bind_app_perm.
      rewrite (hit_once (λ f, post_of f r)); [|by apply Hr|assumption..|].
      * unfold original_of at 1. cbn [app]. by apply Permutation_skip.
      * apply Hcov; [by left|exact Hs].
    + rewrite <- IH. erewrite list_bind_ext; [reflexivity| |reflexivity].
      intros f. unfold matches at 1. by rewrite Hs, andb_false_r.
Qed.

Lemma dedup_into_elem (acc paths : list json) (f : json) :
  f ∈ dedup_into acc paths → f ∈ acc ∨ f ∈ paths.
Proof.
  revert acc. induction paths as [|p paths IH]; intros acc; [by left|].
  unfold dedup_into. cbn [foldl]. fold (dedup_into (set_add p acc) paths).
  intros Hin. apply IH in Hin as [Hin|Hin]; [|right; by right].
  unfold set_add in Hin. destruct (existsb (py_eq p) acc); [by left|].
  apply elem_of_app in Hin as [Hin|Hin]; [by left|].
  apply list_elem_of_singleton in Hin as ->. right. by left.
Qed.

(** What the plan holds, whatever the order in which the set comes out:
    the originals are the distinct file paths of the successful results,
    each standing for the results whose path is equal to it, and the
    entries are one pre-CDR entry for each original and one post-CDR entry
    for each successful result. *)
Lemma plan_shape (set_order : list json → list json) (results : list json) :
  (∀ l, set_order l ≡ₚ l) →
  Forall (λ r, is_success r = true → hashable (field r "file_path") = true) results →
  let originals := set_order (originals_of results []) in
  NoDup (key_of <$> originals)
  ∧ length originals = U_count results
  ∧ (∀ f, f ∈ originals →
       ∃ res, res ∈ results ∧ is_success res = true ∧ field res "file_path" = f)
  ∧ (∀ res, res ∈ results → is_success res = true →
       original_of originals res ∈ originals
       ∧ py_eq (field res "file_path") (original_of originals res) = true)
  ∧ files_of originals results
    ≡ₚ ((pre_of <$> originals)
        ++ ((λ res, post_of (original_of originals res) res) <$> successes results))%list
  ∧ length (files_of originals results) = (U_count results + S_count results)%nat
  ∧ length (List.filter (has_version "pre-cdr") (files_of originals results))
    = U_count results
  ∧ length (List.filter (has_version "post-cdr") (files_of originals results))
    = S_count results.
Proof.
  intros Hperm Hh originals.
  assert (Hp : Forall (λ a, hashable a = true) (success_paths results)).
  { unfold success_paths, successes.
    clear originals. induction Hh as [|r results Hr Hrs IH]; [constructor|].
    cbn [List.filter]. destruct (is_success r) eqn:Hs; [|exact IH].
    rewrite fmap_cons. constructor; [by apply Hr|exact IH]. }
  destruct (dedup_into_spec [] (success_paths results)) as (Hnd0 & Hha0 & Hkeys0);
    [constructor|exact Hp|constructor|].
  rewrite <- originals_of_dedup in Hnd0, Hha0, Hkeys0.
  assert (Hpo : originals ≡ₚ originals_of results []) by apply Hperm.
  assert (Hnd : NoDup (key_of <$> originals)) by (by rewrite Hpo).
  assert (Hha : Forall (λ a, hashable a = true) originals) by (by rewrite Hpo).
  assert (Hkeys : ∀ k, k ∈ key_of <$> originals ↔ k ∈ key_of <$> success_paths results).
  { intros k. rewrite Hpo, Hkeys0, fmap_nil, elem_of_nil. tauto. }
  assert (Hcov : ∀ r, r ∈ results → is_success r = true →
                   key_of (field r "file_path") ∈ key_of <$> originals).
  { intros r Hr Hs. apply Hkeys. apply list_elem_of_fmap_2.
    unfold success_paths, successes.
    apply (list_elem_of_fmap_2 (λ r0, field r0 "file_path")).
    apply list_elem_of_In, List.filter_In. split; [by apply list_elem_of_In|exact Hs]. }
  destruct (plan_counts results Hh) as [HU HS].
  assert (Hlen : length originals = U_count results) by (by rewrite Hpo).
  assert (Hsum : sum_list ((λ f, length (List.filter (matches f) results)) <$> originals)
                 = S_count results) by (by rewrite Hpo).
  split; [exact Hnd|]. split; [exact Hlen|]. split.
  { intros f Hf. rewrite Hpo, originals_of_dedup in Hf.
    apply dedup_into_elem in Hf as [Hf|Hf]; [by apply elem_of_nil in Hf|].
    unfold success_paths, successes in Hf.
    apply list_elem_of_fmap in Hf as (res & -> & Hres).
    apply list_elem_of_In, List.filter_In in Hres as [Hres Hs].
    exists res. split; [by apply list_elem_of_In|]. split; [exact Hs|reflexivity]. }
  split.
  { intros res Hres Hs. unfold original_of.
    destruct (find_original (field res "file_path") originals) as (f & -> & Hf & Heq).
    - eapply Forall_forall in Hh; [by apply Hh|exact Hres].
    - exact Hha.
    - by apply Hcov.
    - split; [exact Hf|exact Heq]. }
  split.
  { rewrite files_of_split. apply Permutation_app_head.
    by apply posts_perm. }
  split; [by rewrite length_files_of, Hlen, Hsum|].
  split.
  - rewrite count_version_files_of, Hlen.
    rewrite bool_decide_eq_true_2 by reflexivity.
    rewrite bool_decide_eq_false_2 by discriminate. lia.
  - rewrite count_version_files_of, Hsum.
    rewrite bool_decide_eq_false_2 by discriminate.
    rewrite bool_decide_eq_true_2 by reflexivity. lia.
Qed.

(** ** Phase 2: the units dispatched *)

Lemma reads_only_ok {S A} (m : M S A) (s s' : S) (a : A) :
  reads_only m → m s = Ok a s' → s' = s.
Proof.
  intros Hm Hs. destruct (Hm s) as [[a' Ha]|[e He]]; congruence.
Qed.

Section phase2.
Context `{JsonCodec}.
Import JobManager.

Lemma reads_only_hgetall (key : string) : reads_only (hgetall key).
Proof.
  intros r. unfold hgetall. destruct (data r !! key) as [[h|l]|]; eauto.
Qed.

Lemma reads_only_convert (field : string) (f : pyval → M redis pyval)
    (d : gmap string pyval) :
  (∀ v, reads_only (f v)) → reads_only (convert field f d).
Proof.
  intros Hf. unfold convert. destruct (d !! field); [|apply reads_only_ret].
  apply reads_only_bind; [apply Hf|]. intros v. apply reads_only_ret.
Qed.

Lemma reads_only_py_int (v : pyval) : reads_only (py_int v).
Proof. destruct v; first [apply reads_only_ret|apply reads_only_raise]. Qed.

Lemma reads_only_py_float (v : pyval) : reads_only (py_float v).
Proof. destruct v; first [apply reads_only_ret|apply reads_only_raise]. Qed.

Lemma reads_only_py_json_loads (v : pyval) : reads_only (py_json_loads v).
Proof.
  destruct v; try apply reads_only_raise. cbn.
  destruct (json_loads s); [apply reads_only_ret|apply reads_only_raise].
Qed.

Lemma reads_only_get_job (job_id : string) : reads_only (get_job job_id).
Proof.
  unfold get_job. apply reads_only_bind; [apply reads_only_hgetall|]. intros d.
  destruct (decide (size d = 0%nat)); [apply reads_only_ret|].
  apply reads_only_bind; [apply reads_only_convert, reads_only_py_json_loads|]. intros d1.
  apply reads_only_bind; [apply reads_only_convert, reads_only_py_int|]. intros d2.
  apply reads_only_bind; [apply reads_only_convert, reads_only_py_int|]. intros d3.
  apply reads_only_bind; [apply reads_only_convert, reads_only_py_int|]. intros d4.
  apply reads_only_bind; [apply reads_only_convert, reads_only_py_float|]. intros d5.
  apply reads_only_ret.
Qed.

Lemma writes_only_reads {A} (key : string) (m : M redis A) :
  reads_only m → writes_only key m.
Proof.
  intros Hm r a r' Hr k _. by rewrite (reads_only_ok m r r' a Hm Hr).
Qed.

Lemma writes_only_bind {A B} (key : string) (m : M redis A) (f : A → M redis B) :
  writes_only key m → (∀ a, writes_only key (f a)) → writes_only key (bind m f).
Proof.
  intros Hm Hf r b r' Hr k Hk. unfold bind in Hr.
  destruct (m r) as [a r1|e r1|r1] eqn:Hm1; try discriminate Hr.
  rewrite (Hf a r1 b r' Hr k Hk). exact (Hm r a r1 Hm1 k Hk).
Qed.

(** [hset] writes under its key only. *)
Lemma writes_only_hset (key : string) (m : gmap string pyval) :
  writes_only key (hset key m).
Proof.
  intros r a r'. unfold hset. destruct (decide (size m = 0%nat)); [discriminate|].
  destruct (negb _); [discriminate|].
  destruct (data r !! key) as [[h|l]|]; try discriminate;
    intros [= _ <-] k Hk; cbn [data]; by rewrite lookup_insert_ne.
Qed.

Lemma writes_only_hincrby (key field : string) (n : Z) :
  writes_only key (hincrby key field n).
Proof.
  intros r a r'. unfold hincrby.
  destruct (data r !! key) as [[h|l]|]; try discriminate.
  - destruct (h !! field) as [[]|]; try discriminate;
      intros [= _ <-] k Hk; cbn [data]; by rewrite lookup_insert_ne.
  - intros [= _ <-] k Hk; cbn [data]; by rewrite lookup_insert_ne.
Qed.

Lemma reads_only_getitem (d : gmap string pyval) (k : string) :
  reads_only (getitem d k).
Proof.
  unfold getitem. destruct (d !! k); [apply reads_only_ret|apply reads_only_raise].
Qed.

Lemma reads_only_as_int (v : pyval) : reads_only (as_int v).
Proof. destruct v; first [apply reads_only_ret|apply reads_only_raise]. Qed.

Lemma writes_only_update_progress (job_id : string) :
  writes_only (job_key job_id) (update_progress job_id).
Proof.
  unfold update_progress.
  apply writes_only_bind; [apply writes_only_reads, reads_only_get_job|].
  intros [job|]; [|apply writes_only_reads, reads_only_ret].
  apply writes_only_bind; [apply writes_only_reads, reads_only_getitem|]. intros v.
  apply writes_only_bind; [apply writes_only_reads, reads_only_as_int|]. intros total.
  destruct (decide (total > 0)); [|apply writes_only_reads, reads_only_ret].
  apply writes_only_bind; [apply writes_only_reads, reads_only_getitem|]. intros v'.
  apply writes_only_bind; [apply writes_only_reads, reads_only_as_int|]. intros p.
  apply writes_only_hset.
Qed.

Lemma writes_only_update_job (job_id : string) (updates : gmap string pyval) :
  writes_only (job_key job_id) (update_job job_id updates).
Proof.
  unfold update_job. apply writes_only_bind; [apply writes_only_hset|].
  intros _. apply writes_only_update_progress.
Qed.

(** [get_phase_results] depends on the list of the phase only. *)
Lemma get_phase_results_ext (job_id phase : string) (r r' : redis)
    (results : list json) :
  data r' !! phase_key job_id phase = data r !! phase_key job_id phase →
  get_phase_results job_id phase r' = Ok results r' →
  get_phase_results job_id phase r = Ok results r.
Proof.
  unfold get_phase_results, bind, lrange_all. intros ->.
  destruct (data r !! phase_key job_id phase) as [[h|l]|]; try discriminate;
    by intros [= <-].
Qed.

Lemma count_scans (version : string) (job_id : string) (container_name : pyval)
    (files : list json) (engines : list string) :
  length (List.filter (scans version)
            (file_info ← files; av_engine_name ← engines;
             [Phase2.Task job_id container_name file_info av_engine_name]))
  = (length (List.filter (has_version version) files) * length engines)%nat.
Proof.
  induction files as [|fi files IH]; [done|].
  cbn [mbind list_bind]. rewrite List.filter_app, length_app, IH.
  cbn [List.filter].
  assert (Hfi : length (List.filter (scans version)
                  (av_engine_name ← engines;
                   [Phase2.Task job_id container_name fi av_engine_name]))
                = if has_version version fi then length engines else 0%nat).
  { clear IH. induction engines as [|e engines IHe]; [by destruct (has_version _ _)|].
    cbn [mbind list_bind app List.filter]. unfold scans at 1. cbn [Phase2.file_info].
    fold (has_version version fi).
    destruct (has_version version fi); cbn [length]; by rewrite IHe. }
  rewrite Hfi. destruct (has_version version fi); cbn [length]; lia.
Qed.

End phase2.

Lemma bind_inv {S A B} (m : M S A) (k : A → M S B) (s s' : S) (b : B) :
  bind m k s = Ok b s' → ∃ a s1, m s = Ok a s1 ∧ k a s1 = Ok b s'.
Proof.
  unfold bind. destruct (m s) as [a s1|e s1|s1]; try discriminate. eauto.
Qed.

Lemma files_of_elem (originals results : list json) (fi : json) :
  fi ∈ files_of originals results →
  (∃ f, f ∈ originals ∧ fi = pre_of f)
  ∨ (∃ f res, f ∈ originals ∧ res ∈ results ∧ matches f res = true
              ∧ fi = post_of f res).
Proof.
  unfold files_of. intros Hin. apply list_elem_of_bind in Hin as (f & Hfi & Hf).
  apply elem_of_cons in Hfi as [->|Hfi]; [left; eauto|].
  apply list_elem_of_fmap in Hfi as (res & -> & Hres).
  apply list_elem_of_In in Hres. apply List.filter_In in Hres as [Hres Hm].
  apply list_elem_of_In in Hres. right. exists f, res. done.
Qed.

Section phase2_claim.
Context `{JsonCodec}.
Variable set_order : list json → list json.
Import JobManager.

Lemma reads_only_get_phase_results (job_id phase : string) :
  reads_only (get_phase_results job_id phase).
Proof.
  unfold get_phase_results. apply reads_only_bind; [|intros l; apply reads_only_ret].
  intros r. unfold lrange_all.
  destruct (data r !! phase_key job_id phase) as [[h|l]|]; eauto.
Qed.

(** The handler of a batch task re-raises: the task returns only when
    its [try] block did. *)
Lemma try_reraise_ok {A} (body : M redis A) (cleanup : exn → M redis unit)
    (r r' : redis) (a : A) :
  try_except body (λ e, cleanup e ;; raise e) r = Ok a r' → body r = Ok a r'.
Proof.
  unfold try_except, bind, raise. destruct (body r) as [a1 r1|e r1|r1]; [done| |done].
  by destruct (cleanup e r1).
Qed.

(** C4. When [scan_av_batch] dispatches, its units are the planned files
    crossed with the AV engines. The planned files are, in the order in
    which the set of originals comes out, one pre-CDR entry for each
    original and one post-CDR entry for each successful Phase-1 result,
    carrying the sanitized path and the engine label of that result and
    the original that stands for its file; the originals are the distinct
    file paths of the successful results. So with [U] originals and [S]
    successful results there are [(U + S) * A] units, [U * A] on a
    pre-CDR file and [S * A] on a post-CDR file. It does dispatch whenever
    the record of the job is well formed and the Phase-1 results are dicts
    whose successful entries have hashable paths. *)
Theorem scan_av_batch_units (r : redis) (job_id : string) (now : Z) :
  (∀ l, set_order l ≡ₚ l) →
  (∀ tasks r', Phase2.scan_av_batch set_order job_id now r = Ok tasks r' →
     ∃ results originals files container_name,
       get_phase_results job_id "phase1" r = Ok results r
       ∧ NoDup (key_of <$> originals)
       ∧ length originals = U_count results
       ∧ (∀ f, f ∈ originals →
            ∃ res, res ∈ results ∧ is_success res = true
                   ∧ field res "file_path" = f)
       ∧ (∀ res, res ∈ results → is_success res = true →
            original_of originals res ∈ originals
            ∧ py_eq (field res "file_path") (original_of originals res) = true)
       ∧ files ≡ₚ ((pre_of <$> originals)
                   ++ ((λ res, post_of (original_of originals res) res)
                         <$> successes results))%list
       ∧ tasks = (file_info ← files; av_engine_name ← Phase2.av_engines;
                  [Phase2.Task job_id container_name file_info av_engine_name])
       ∧ length tasks
         = ((U_count results + S_count results) * length Phase2.av_engines)%nat
       ∧ length (List.filter (scans "pre-cdr") tasks)
         = (U_count results * length Phase2.av_engines)%nat
       ∧ length (List.filter (scans "post-cdr") tasks)
         = (S_count results * length Phase2.av_engines)%nat)
  ∧ (∀ total processed failed n,
       counting r job_id total processed failed n →
       Forall (λ res, is_dict res = true)
         (omap json_loads (phase_list r job_id "phase1")) →
       Forall (λ res, is_success res = true → hashable (field res "file_path") = true)
         (omap json_loads (phase_list r job_id "phase1")) →
       ∃ tasks r', Phase2.scan_av_batch set_order job_id now r = Ok tasks r').
Proof.
  intros Hperm. split.
  - intros tasks r' Hbody. unfold Phase2.scan_av_batch in Hbody.
    apply try_reraise_ok in Hbody.
    apply bind_inv in Hbody as ([] & r1 & Hup & Hbody).
    apply bind_inv in Hbody as (job & r2 & Hjob & Hbody).
    apply (reads_only_ok _ _ _ _ (reads_only_get_job job_id)) in Hjob as Hr2. subst r2.
    apply bind_inv in Hbody as (container_name & r2 & Hcn & Hbody).
    assert (r2 = r1) as ->.
    { destruct job; [by injection Hcn as _ ->|discriminate]. }
    apply bind_inv in Hbody as (results & r2 & Hres & Hbody).
    assert (r2 = r1) as ->.
    { exact (reads_only_ok _ _ _ _ (reads_only_get_phase_results job_id "phase1") Hres). }
    apply bind_inv in Hbody as (files & r2 & Hplan & Hbody).
    destruct (plan_ok _ _ _ _ _ Hplan) as (-> & -> & Hd & Hh).
    unfold ret in Hbody.
    assert (Htasks : tasks
      = (file_info ← files_of (set_order (originals_of results [])) results;
         av_engine_name ← Phase2.av_engines;
         [Phase2.Task job_id container_name file_info av_engine_name])
      ∧ r' = r1) by (split; congruence).
    destruct Htasks as [-> ->]. clear Hbody.
    destruct (plan_shape set_order results Hperm Hh)
      as (Hnd & HU & Hrep & Hcov & Hfiles & Hlen & Hpre & Hpost).
    exists results, (set_order (originals_of results [])),
      (files_of (set_order (originals_of results [])) results), container_name.
    split.
    { apply (get_phase_results_ext job_id "phase1" r r1 results); [|exact Hres].
      apply (writes_only_update_job _ _ _ _ _ Hup).
      intros Heq. by apply (job_key_not_phase_key job_id "phase1"). }
    split; [exact Hnd|]. split; [exact HU|]. split; [exact Hrep|].
    split; [exact Hcov|]. split; [exact Hfiles|]. split; [reflexivity|].
    split.
    { rewrite (length_fan_out _ _ (Phase2.Task job_id container_name)).
      by rewrite Hlen. }
    split.
    { by rewrite count_scans, Hpre. }
    by rewrite count_scans, Hpost.
  - intros total processed failed n Hc Hd Hh.
    unfold Phase2.scan_av_batch, try_except, bind.
    match goal with
    | |- context [update_job job_id ?m r] =>
        destruct (counting_update_harmless r job_id m total processed failed n)
          as (r1 & Hup & Hc1); [| |exact Hc|]
    end.
    { harmless_patch. }
    { apply (size_nonzero_lookup _ "current_phase" (PInt 2)). patch_lookup.
      reflexivity. }
    rewrite Hup.
    destruct Hc1 as (h & Hk & Hwf & _ & _ & _ & Hl & _).
    destruct (get_job_well_formed r1 job_id h Hk Hwf) as [j ->].
    cbn [ret].
    rewrite (get_phase_results_list r1 job_id "phase1" Hl).
    assert (Hsame : phase_list r1 job_id "phase1" = phase_list r job_id "phase1").
    { unfold phase_list.
      rewrite (writes_only_update_job _ _ _ _ _ Hup (phase_key job_id "phase1")); [done|].
      intros Heq. by apply (job_key_not_phase_key job_id "phase1"). }
    rewrite Hsame. rewrite (plan_total set_order _ r1 Hd Hh). eauto.
Qed.

End phase2_claim.

Lemma scan_av_batch_units_witness :
  @Phase2.scan_av_batch RefJson.codec Scenario6.set_order "j1" 500
    Scenario6.after_phase1
    = Ok Scenario6.tasks (final_state Scenario6.dispatched)
  ∧ ∃ results originals files container_name,
      @JobManager.get_phase_results RefJson.codec "j1" "phase1" Scenario6.after_phase1
        = Ok results Scenario6.after_phase1
      ∧ NoDup (key_of <$> originals)
      ∧ length originals = U_count results
      ∧ (∀ f, f ∈ originals →
           ∃ res, res ∈ results ∧ is_success res = true
                  ∧ field res "file_path" = f)
      ∧ (∀ res, res ∈ results → is_success res = true →
           original_of originals res ∈ originals
           ∧ py_eq (field res "file_path") (original_of originals res) = true)
      ∧ files ≡ₚ ((pre_of <$> originals)
                  ++ ((λ res, post_of (original_of originals res) res)
                        <$> successes results))%list
      ∧ Scenario6.tasks
        = (file_info ← files; av_engine_name ← Phase2.av_engines;
           [Phase2.Task "j1" container_name file_info av_engine_name])
      ∧ length Scenario6.tasks
        = ((U_count results + S_count results) * length Phase2.av_engines)%nat
      ∧ length (List.filter (scans "pre-cdr") Scenario6.tasks)
        = (U_count results * length Phase2.av_engines)%nat
      ∧ length (List.filter (scans "post-cdr") Scenario6.tasks)
        = (S_count results * length Phase2.av_engines)%nat.
Proof.
  assert (Hrun : @Phase2.scan_av_batch RefJson.codec Scenario6.set_order "j1" 500
                   Scenario6.after_phase1
    = Ok Scenario6.tasks (final_state Scenario6.dispatched)).
  { vm_compute. reflexivity. }
  split; [exact Hrun|].
  exact (proj1 (@scan_av_batch_units RefJson.codec Scenario6.set_order
                  Scenario6.after_phase1 "j1" 500
                  (λ l, reverse_Permutation l))
           Scenario6.tasks (final_state Scenario6.dispatched) Hrun).
Defined.

(** The scenario of the specification with a partial CDR failure: two
    files, five successful Phase-1 results, two AV engines, fourteen
    units. *)
Example fourteen_scan_units :
  U_count Scenario6.phase1_results = 2%nat
  ∧ S_count Scenario6.phase1_results = 5%nat
  ∧ length Scenario6.tasks = 14%nat
  ∧ length (List.filter (scans "pre-cdr") Scenario6.tasks) = 4%nat
  ∧ length (List.filter (scans "post-cdr") Scenario6.tasks) = 10%nat.
Proof. vm_compute. repeat split; reflexivity. Qed.

(** ** The VM pool *)

Section vm_pool.
Import VMPool.
Variable cloud : azure.
Variable max_vm_uses : Z.
Variable base_images : gmap string string.
Variable azure_resource_group : string.

Lemma unlock_lock (p : pool) :
  vm_lock p = false → set_vm_lock false (set_vm_lock true p) = p.
Proof. destruct p. cbn. by intros ->. Qed.

(** C10. With the lock free, releasing a VM whose name the pool does not
    track returns normally and leaves the pool exactly as it was: no
    object, queue, thread or backend call is added or changed. *)
Theorem release_untracked_vm_is_noop (vm : vm_dict) (clean : bool) (p : pool) :
  vm_lock p = false → all_vms p !! d_vm_name vm = None →
  release_vm cloud max_vm_uses base_images azure_resource_group vm clean p = Ok tt p.
Proof.
  intros Hlock Hnone. unfold release_vm, with_lock. rewrite Hlock.
  unfold bind, get. cbn [all_vms set_vm_lock]. rewrite Hnone. unfold ret.
  by rewrite unlock_lock.
Qed.

(** With the lock held nothing is acquired: [acquire_vm] raises on an
    empty or unknown queue and blocks otherwise. *)
Lemma acquire_vm_locked (edr : string) (timeout : Z) (p p' : pool) (d : vm_dict) :
  vm_lock p = true → acquire_vm edr timeout p ≠ Ok d p'.
Proof.
  intros Hlock. unfold acquire_vm, bind, queue_get.
  destruct (pools p !! edr) as [[|a q]|]; [discriminate| |discriminate].
  unfold with_lock. cbn [vm_lock set_pools]. rewrite Hlock. discriminate.
Qed.

(** C5, where the code departs from it. Releasing a tracked VM whose use
    count has reached [max_vm_uses], with the lock free and a backend
    that deletes and creates without error: the old VM is deleted and a
    replacement is created at the backend, and then the release blocks
    for ever, because [_recycle_vm] takes the lock that [release_vm]
    still holds. The tracking map and the queues are as before, so the
    replacement is never enqueued, the lock stays held, and no later
    [acquire_vm] returns a VM. *)
Theorem release_at_max_uses_deadlocks (vm : vm_dict) (clean : bool) (p : pool)
    (a : nat) (v : VMInfo) (image : string) (ips : string * string) :
  vm_lock p = false →
  all_vms p !! d_vm_name vm = Some a →
  heap p !! a = Some v →
  max_vm_uses ≤ use_count v →
  begin_delete cloud (vm_name v) = inr tt →
  base_images !! edr_solution v = Some image → image ≠ "" →
  begin_create_or_update cloud
    ("edr-test-" ++ edr_solution v ++ "-" ++ pretty (clock p)) = inr ips →
  ∃ p', release_vm cloud max_vm_uses base_images azure_resource_group vm clean p
        = Hang p'
    ∧ vm_lock p' = true
    ∧ all_vms p' = all_vms p
    ∧ pools p' = pools p
    ∧ threads p' = threads p
    ∧ calls p'
      = (calls p ++ [DeleteVM (vm_name v);
                     CreateVM ("edr-test-" ++ edr_solution v ++ "-"
                               ++ pretty (clock p))])%list
    ∧ ∀ edr timeout d p'', acquire_vm edr timeout p' ≠ Ok d p''.
Proof.
  intros Hlock Htracked Hobj Hmax Hdel Himg Hne Hcreate.
  destruct p as [hp av ps lk th cs ck].
  cbn [vm_lock all_vms heap clock calls pools threads] in *. subst lk.
  unfold release_vm, _recycle_vm, _delete_vm, _provision_vm.
  repeat (unfold with_lock, try_except, bind, get, deref, azure_do, modify, call,
            ret, raise, now, alloc, set_vm_lock, set_heap, log_call;
          cbn [vm_lock all_vms heap clock calls pools threads];
          first [ rewrite Htracked | rewrite Hobj | rewrite Hdel | rewrite Himg
                | rewrite Hcreate
                | destruct (decide (max_vm_uses ≤ use_count v)) as [_|Hn];
                  [|contradiction]
                | destruct (decide (image = "")) as [?|_]; [contradiction|] ]).
  destruct (decide (image = "")) as [?|_]; [contradiction|].
  eexists. split; [reflexivity|].
  cbn [vm_lock all_vms heap clock calls pools threads].
  split; [reflexivity|]. split; [reflexivity|]. split; [reflexivity|].
  split; [reflexivity|]. split; [by rewrite <- app_assoc|].
  intros edr timeout d p''. apply acquire_vm_locked. reflexivity.
Qed.

End vm_pool.

Lemma release_untracked_vm_is_noop_witness :
  VMPool.vm_lock Scenario7.provisioned = false
  ∧ VMPool.all_vms Scenario7.provisioned !! VMPool.d_vm_name Scenario7.stranger = None
  ∧ VMPool.release_vm Scenario7.cloud Scenario7.max_vm_uses Scenario7.base_images
      "rg-edr" Scenario7.stranger true Scenario7.provisioned
    = Ok tt Scenario7.provisioned.
Proof.
  assert (Hlock : VMPool.vm_lock Scenario7.provisioned = false)
    by (vm_compute; reflexivity).
  assert (Hnone : VMPool.all_vms Scenario7.provisioned
                    !! VMPool.d_vm_name Scenario7.stranger = None)
    by (vm_compute; reflexivity).
  split; [exact Hlock|]. split; [exact Hnone|].
  exact (release_untracked_vm_is_noop Scenario7.cloud Scenario7.max_vm_uses
           Scenario7.base_images "rg-edr" Scenario7.stranger true
           Scenario7.provisioned Hlock Hnone).
Defined.

Lemma release_at_max_uses_deadlocks_witness :
  ∃ p', VMPool.release_vm Scenario7.cloud Scenario7.max_vm_uses Scenario7.base_images
          "rg-edr" Scenario7.vm true Scenario7.held = Hang p'
    ∧ VMPool.vm_lock p' = true
    ∧ VMPool.all_vms p' = VMPool.all_vms Scenario7.held
    ∧ VMPool.pools p' = VMPool.pools Scenario7.held
    ∧ VMPool.threads p' = VMPool.threads Scenario7.held
    ∧ VMPool.calls p'
      = (VMPool.calls Scenario7.held
         ++ [VMPool.DeleteVM "edr-test-sophos-00-1000";
             VMPool.CreateVM ("edr-test-" ++ "sophos" ++ "-"
                              ++ pretty (VMPool.clock Scenario7.held))])%list
    ∧ ∀ edr timeout d p'', VMPool.acquire_vm edr timeout p' ≠ Ok d p''.
Proof.
  apply (release_at_max_uses_deadlocks Scenario7.cloud Scenario7.max_vm_uses
           Scenario7.base_images "rg-edr" Scenario7.vm true Scenario7.held 0%nat
           {| VMPool.vm_name := "edr-test-sophos-00-1000";
              VMPool.resource_group := "rg-edr";
              VMPool.edr_solution := "sophos";
              VMPool.status := "in_use";
              VMPool.public_ip := "20.0.0.1";
              VMPool.private_ip := "10.0.0.1";
              VMPool.created_at := 1000;
              VMPool.last_used_at := Some 1020;
              VMPool.use_count := 3 |}
           "/images/sophos-base" ("20.0.0.1", "10.0.0.1")).
  - vm_compute. reflexivity.
  - vm_compute. reflexivity.
  - vm_compute. reflexivity.
  - vm_compute. discriminate.
  - reflexivity.
  - vm_compute. reflexivity.
  - discriminate.
  - reflexivity.
Defined.

(** The scenario of the specification: [max_vm_uses = 3], one VM. The
    third acquisition finds the use count at 3; the release that follows
    deletes the VM and creates a replacement at the backend, and blocks;
    the queue of [sophos] is empty, the lock is held, and the next
    [acquire_vm] times out instead of observing a fresh VM. *)
Example third_release_blocks :
  (∃ p, Scenario7.third_release = Hang p
        ∧ VMPool.pools p !! "sophos" = Some []
        ∧ VMPool.vm_lock p = true
        ∧ VMPool.calls p
          = [VMPool.CreateVM "edr-test-sophos-00-1000";
             VMPool.RunCleanup "edr-test-sophos-00-1000";
             VMPool.RunCleanup "edr-test-sophos-00-1000";
             VMPool.DeleteVM "edr-test-sophos-00-1000";
             VMPool.CreateVM "edr-test-sophos-1020"])
  ∧ ∃ p, VMPool.acquire_vm "sophos" 3600 (final_state Scenario7.third_release)
         = Raise TimeoutError p.
Proof.
  split; eexists; vm_compute; repeat split; reflexivity.
Qed.

(** ** Effects that leave a part of the state alone *)

Section preserves.
Context {S B : Type}.
Variable g : S → B.

Lemma preserves_ret {A} (a : A) : preserves g (ret a).
Proof. by intros s. Qed.

Lemma preserves_raise {A} (e : exn) : preserves g (raise e : M S A).
Proof. by intros s. Qed.

Lemma preserves_bind {A C} (m : M S A) (k : A → M S C) :
  preserves g m → (∀ a, preserves g (k a)) → preserves g (bind m k).
Proof.
  intros Hm Hk s. unfold bind. specialize (Hm s).
  destruct (m s) as [a s1|e s1|s1]; cbn in *; [|done..].
  by rewrite (Hk a s1).
Qed.

Lemma preserves_try_except {A} (m : M S A) (h : exn → M S A) :
  preserves g m → (∀ e, preserves g (h e)) → preserves g (try_except m h).
Proof.
  intros Hm Hh s. unfold try_except. specialize (Hm s).
  destruct (m s) as [a s1|e s1|s1]; cbn in *; [done| |done].
  by rewrite (Hh e s1).
Qed.

Lemma preserves_try_finally {A} (m : M S A) (f : M S unit) :
  preserves g m → preserves g f → preserves g (try_finally m f).
Proof.
  intros Hm Hf s. unfold try_finally. specialize (Hm s).
  destruct (m s) as [a s1|e s1|s1]; cbn in *; [| |done];
    specialize (Hf s1); destruct (f s1); cbn in *; congruence.
Qed.

Lemma preserves_attempt {A} (m : M S A) : preserves g m → preserves g (attempt m).
Proof.
  intros Hm s. unfold attempt. specialize (Hm s). by destruct (m s).
Qed.

Lemma preserves_call {A} (x : exn + A) : preserves g (call x).
Proof. destruct x; [apply preserves_raise|apply preserves_ret]. Qed.

Lemma preserves_jget_default (r : json) (k : string) (d : json) :
  preserves g (jget_default r k d).
Proof. destruct r; first [apply preserves_ret|apply preserves_raise]. Qed.

Lemma preserves_for_each {A} (xs : list A) (body : A → M S unit) :
  (∀ x, preserves g (body x)) → preserves g (for_each xs body).
Proof.
  intros Hb. induction xs as [|x xs IH]; [apply preserves_ret|].
  cbn. apply preserves_bind; [apply Hb|]. intros _. exact IH.
Qed.

End preserves.

Lemma never_returns_bind {S A C} (m : M S A) (k : A → M S C) :
  (∀ a, never_returns (k a)) → never_returns (bind m k).
Proof.
  intros Hk s c s'. unfold bind. destruct (m s) as [a s1|e s1|s1]; [|done..].
  apply Hk.
Qed.

Lemma never_returns_raise {S A} (e : exn) : never_returns (raise e : M S A).
Proof. by intros s a s'. Qed.

(** ** Dicts: lookup after update *)

Lemma dict_get_set_eq (d : list (string * json)) (k : string) (v : json) :
  dict_get (dict_set k v d) k = Some v.
Proof.
  induction d as [|[k' v'] d IH]; cbn.
  - by destruct (decide (k = k)).
  - destruct (decide (k' = k)) as [->|Hne]; cbn.
    + by destruct (decide (k = k)).
    + by destruct (decide (k' = k)).
Qed.

Lemma dict_get_set_ne (d : list (string * json)) (k k0 : string) (v : json) :
  k ≠ k0 → dict_get (dict_set k v d) k0 = dict_get d k0.
Proof.
  intros Hne. induction d as [|[k' v'] d IH]; cbn.
  - by destruct (decide (k = k0)).
  - destruct (decide (k' = k)) as [->|Hk]; cbn.
    + destruct (decide (k = k0)); [done|]. done.
    + destruct (decide (k' = k0)); [done|]. exact IH.
Qed.

(** ** Phase 3: one unit *)

Section phase3_unit.
Context `{JsonCodec}.
Variable env : Phase3.adapters.
Variable cloud : VMPool.azure.
Variable max_vm_uses : Z.
Variable base_images : gmap string string.
Variable azure_resource_group : string.
Import JobManager Phase3.

Lemma preserves_outside_store {A} (m : M frame A) :
  preserves outside m → preserves store m.
Proof. intros Hm f. specialize (Hm f). unfold outside in Hm. congruence. Qed.

Lemma preserves_outside_queries {A} (m : M frame A) :
  preserves outside m → preserves queries m.
Proof. intros Hm f. specialize (Hm f). unfold outside in Hm. congruence. Qed.

Lemma preserves_on_pool {A} (m : M VMPool.pool A) : preserves outside (on_pool m).
Proof. intros f. unfold on_pool. by destruct (m (vms f)). Qed.

Lemma preserves_on_store {A} (m : M redis A) : preserves queries (on_store m).
Proof. intros f. unfold on_store. by destruct (m (store f)). Qed.

Lemma preserves_set_result (g : list (string * json) → list (string * json)) :
  preserves outside (set_result g).
Proof. by intros f. Qed.

Lemma preserves_set_vm (v : VMPool.vm_dict) : preserves outside (set_vm v).
Proof. by intros f. Qed.

Lemma preserves_put_locals (r : list (string * json)) :
  preserves outside (put_locals r).
Proof. by intros f. Qed.

Lemma preserves_get_result : preserves outside get_result.
Proof. by intros f. Qed.

Lemma preserves_get_vm : preserves outside get_vm.
Proof. by intros f. Qed.

Lemma preserves_jitem {B} (g : frame → B) (d : json) (k : string) :
  preserves g (jitem d k).
Proof.
  destruct d; try apply preserves_raise. cbn.
  destruct (dict_get d k); [apply preserves_ret|apply preserves_raise].
Qed.

Lemma preserves_execute (v : VMPool.vm_dict) (path : string) (d : Z) :
  preserves outside (execute_file_on_vm env v path d).
Proof.
  unfold execute_file_on_vm.
  apply preserves_bind; [apply preserves_on_pool|intros t].
  apply preserves_bind; [apply preserves_call|intros _].
  apply preserves_bind; [apply preserves_on_pool|intros _].
  apply preserves_ret.
Qed.

(** [timedelta] is not a name of the module. *)
Lemma timedelta_unbound {S A} (k : unit → M S A) :
  bind (lookup_global "timedelta") k = raise (NameError "timedelta").
Proof.
  unfold lookup_global.
  assert (bool_decide ("timedelta" ∈ module_globals) = false) as ->
    by (vm_compute; reflexivity).
  reflexivity.
Qed.

Ltac leaf :=
  first [ apply preserves_on_pool | apply preserves_set_result
        | apply preserves_set_vm | apply preserves_call
        | apply preserves_execute | apply preserves_jget_default
        | apply preserves_ret | apply preserves_raise ].

Ltac walk :=
  cbv zeta;
  lazymatch goal with
  | |- preserves _ (bind (lookup_global "timedelta") _) =>
      rewrite timedelta_unbound; apply preserves_raise
  | |- preserves _ (bind _ _) =>
      apply preserves_bind; [|intros ?; walk]
  end.

(** The [try] block touches neither the store nor a console. *)
Lemma try_block_outside (job_id : string) (container_name : pyval)
    (file_path : json) (edr : string) :
  preserves outside
    (try_block env job_id container_name file_path edr).
Proof.
  unfold try_block. walk; try leaf.
  destruct (bool_decide _); leaf.
Qed.

Ltac walk_nr :=
  cbv zeta;
  lazymatch goal with
  | |- never_returns (bind (lookup_global "timedelta") _) =>
      rewrite timedelta_unbound; apply never_returns_raise
  | |- never_returns (bind _ _) =>
      apply never_returns_bind; intros ?; walk_nr
  end.

(** The [try] block never reaches its [return]. *)
Lemma try_block_never_returns (job_id : string) (container_name : pyval)
    (file_path : json) (edr : string) :
  never_returns (try_block env job_id container_name file_path edr).
Proof. unfold try_block. walk_nr. Qed.

Lemma status_of_error_record (e : exn) (f : frame) :
  dict_get (error_record e f) "status" = Some (JStr "error").
Proof.
  unfold error_record, dict_update. cbn [foldl fst snd].
  rewrite !dict_get_set_ne by discriminate. apply dict_get_set_eq.
Qed.

(** The [except] clause: what it returns is the record it built. *)
Lemma except_block_returns (job_id : string) (retries : Z) (e : exn)
    (f f' : frame) (res : json) :
  except_block job_id retries e f = Ok res f' → res = JDict (error_record e f).
Proof.
  unfold except_block, bind, now, on_pool, VMPool.now, set_result, modify,
    get_result, on_store.
  cbn [store vms queries result vm].
  destruct (add_file_result _ _ _ _) as [[] s|e' s|s]; [|discriminate..].
  destruct (decide (retries < max_retries)); unfold raise, ret; [discriminate|].
  intros Heq. unfold error_record. congruence.
Qed.

(** The [except] clause on a list that takes the record: one record more,
    then [Retry] or the record, by the number of retries. *)
Lemma except_block_appends (job_id : string) (retries : Z) (e : exn) (f : frame) :
  appendable (store f) job_id "phase3" →
  ∃ s', appendable s' job_id "phase3"
    ∧ phase_list s' job_id "phase3"
      = (phase_list (store f) job_id "phase3"
         ++ [json_dumps (JDict (error_record e f))])%list
    ∧ except_block job_id retries e f
      = let f' := Frame s' (vms f) (queries f) (error_record e f) (vm f) in
        if decide (retries < max_retries) then Raise (Retry 60) f'
        else Ok (JDict (error_record e f)) f'.
Proof.
  intros Hl.
  destruct (add_file_result_list (store f) job_id "phase3"
              (JDict (error_record e f)) Hl) as (s' & Ha & Hd & _).
  exists s'. split.
  { intros h. rewrite Hd, lookup_insert_eq. discriminate. }
  split.
  { unfold phase_list at 1. rewrite Hd, lookup_insert_eq. reflexivity. }
  unfold except_block, bind, now, on_pool, VMPool.now, set_result, modify,
    get_result, on_store.
  cbn [store vms queries result vm]. fold (error_record e f). rewrite Ha.
  cbv zeta. destruct (decide (retries < max_retries)); reflexivity.
Qed.

Lemma preserves_except_block (job_id : string) (retries : Z) (e : exn) :
  preserves queries (except_block job_id retries e).
Proof.
  unfold except_block.
  apply preserves_bind; [apply preserves_outside_queries, preserves_on_pool|intros t].
  apply preserves_bind; [apply preserves_outside_queries, preserves_set_result|intros _].
  apply preserves_bind; [apply preserves_outside_queries, preserves_get_result|intros r].
  apply preserves_bind; [apply preserves_on_store|intros _].
  destruct (decide (retries < max_retries));
    [apply preserves_raise|apply preserves_ret].
Qed.

Lemma preserves_finally_block :
  preserves outside
    (finally_block cloud max_vm_uses base_images azure_resource_group).
Proof.
  unfold finally_block.
  apply preserves_bind; [apply preserves_get_vm|intros [v|]].
  - apply preserves_try_except; [apply preserves_on_pool|].
    intros _. apply preserves_ret.
  - apply preserves_ret.
Qed.

(** The [finally] clause swallows what the release raises. *)
Lemma finally_block_never_raises (f f' : frame) (e : exn) :
  finally_block cloud max_vm_uses base_images azure_resource_group f
  ≠ Raise e f'.
Proof.
  unfold finally_block, bind, get_vm. destruct (vm f) as [v|]; [|discriminate].
  unfold try_except. by destruct (on_pool _ f).
Qed.

Lemma preserves_run_threads :
  preserves outside (run_threads cloud base_images azure_resource_group).
Proof.
  unfold run_threads. apply preserves_bind; [by intros f|intros f].
  apply preserves_for_each. intros _. apply preserves_on_pool.
Qed.

(** The body of the task below its header: an attempt that ends has put
    exactly one record at the end of the Phase-3 list, and ends in [Retry]
    or with that record, by the number of retries. *)
Lemma guarded_attempt (retries : Z) (job_id : string) (container_name : pyval)
    (file_path : json) (edr : string) (f : frame) :
  appendable (store f) job_id "phase3" →
  match try_finally
          (try_except (try_block env job_id container_name file_path edr)
                      (except_block job_id retries))
          (finally_block cloud max_vm_uses base_images azure_resource_group) f
  with
  | Ok res f' =>
      ¬ retries < max_retries
      ∧ appendable (store f') job_id "phase3"
      ∧ phase_list (store f') job_id "phase3"
        = (phase_list (store f) job_id "phase3" ++ [json_dumps res])%list
  | Raise e f' =>
      e = Retry 60 ∧ retries < max_retries
      ∧ appendable (store f') job_id "phase3"
      ∧ ∃ r, phase_list (store f') job_id "phase3"
             = (phase_list (store f) job_id "phase3" ++ [json_dumps r])%list
  | Hang _ => True
  end.
Proof.
  intros Hl. unfold try_finally, try_except.
  pose proof (try_block_never_returns job_id container_name file_path edr f) as Hnr.
  pose proof (preserves_outside_store _
                (try_block_outside job_id container_name file_path edr) f) as Hst.
  destruct (try_block env job_id container_name file_path edr f)
    as [a f1|e f1|f1]; [by destruct (Hnr a f1)| |exact I].
  cbn [final_state] in Hst. rewrite <- Hst in Hl |- *.
  destruct (except_block_appends job_id retries e f1 Hl) as (s' & Hl' & Hp & ->).
  cbv zeta.
  set (f2 := Frame s' (vms f1) (queries f1) (error_record e f1) (vm f1)).
  pose proof (preserves_outside_store _ preserves_finally_block f2) as Hfin.
  pose proof (finally_block_never_raises f2) as Hnraise.
  destruct (decide (retries < max_retries)) as [Hlt|Hge];
    destruct (finally_block cloud max_vm_uses base_images azure_resource_group f2)
      as [[] f3|e3 f3|f3]; try exact I; try (by destruct (Hnraise f3 e3));
    cbn [final_state] in Hfin; rewrite Hfin; cbn [store f2].
  - split; [reflexivity|]. split; [exact Hlt|]. split; [exact Hl'|].
    eexists. exact Hp.
  - split; [exact Hge|]. split; [exact Hl'|]. exact Hp.
Qed.

Lemma unit_attempt (retries : Z) (job_id : string) (container_name : pyval)
    (file_info : json) (edr : string) (f : frame) :
  appendable (store f) job_id "phase3" →
  match test_single_file_edr env cloud max_vm_uses base_images
          azure_resource_group retries job_id container_name file_info edr f
  with
  | Ok res f' =>
      ¬ retries < max_retries
      ∧ appendable (store f') job_id "phase3"
      ∧ phase_list (store f') job_id "phase3"
        = (phase_list (store f) job_id "phase3" ++ [json_dumps res])%list
  | Raise (Retry _) f' =>
      retries < max_retries
      ∧ appendable (store f') job_id "phase3"
      ∧ ∃ r, phase_list (store f') job_id "phase3"
             = (phase_list (store f) job_id "phase3" ++ [json_dumps r])%list
  | _ => True
  end.
Proof.
  intros Hl. unfold test_single_file_edr, bind at 1 2 3 4 5 6.
  destruct file_info as [| | | | | |d]; try exact I. cbn [jitem].
  destruct (dict_get d "file_path") as [file_path|]; [|exact I].
  destruct (dict_get d "version") as [version|]; [|exact I].
  unfold jget, jget_default, now, on_pool, VMPool.now, put_locals, modify, ret.
  cbn [store vms queries result vm].
  match goal with
  | |- context [try_finally _ _ ?f0] =>
      pose proof (guarded_attempt retries job_id container_name file_path edr f0 Hl)
        as Hg;
      destruct (try_finally
                  (try_except (try_block env job_id container_name file_path edr)
                              (except_block job_id retries))
                  (finally_block cloud max_vm_uses base_images
                     azure_resource_group) f0) as [res f'|e f'|f']
  end.
  - exact Hg.
  - destruct Hg as (-> & Hlt & Hl' & Hp). split; [exact Hlt|]. split; assumption.
  - exact I.
Qed.

(** The worker's run of a unit from retry [retries] on. *)
Lemma run_task_records (job_id : string) (container_name : pyval)
    (file_info : json) (edr : string) (fuel : nat) :
  ∀ (retries : Z) (f f' : frame) (o : option (json * Z)),
  appendable (store f) job_id "phase3" →
  (0 < fuel)%nat → max_retries + 1 - retries ≤ Z.of_nat fuel →
  run_task env cloud max_vm_uses base_images azure_resource_group fuel retries
    job_id container_name file_info edr f = Ok o f' →
  ∃ res n l,
    o = Some (res, n)
    ∧ retries < n ∧ n ≤ Z.max (retries + 1) (max_retries + 1)
    ∧ phase_list (store f') job_id "phase3"
      = (phase_list (store f) job_id "phase3" ++ l)%list
    ∧ Z.of_nat (length l) = n - retries
    ∧ last l = Some (json_dumps res).
Proof.
  induction fuel as [|fuel IH]; intros retries f f' o Hl Hpos Hfuel Hrun; [lia|].
  cbn [run_task] in Hrun. unfold bind at 1, attempt in Hrun.
  pose proof (unit_attempt retries job_id container_name file_info edr f Hl) as Ha.
  destruct (test_single_file_edr env cloud max_vm_uses base_images
              azure_resource_group retries job_id container_name file_info edr f)
    as [res f1|e f1|f1]; [| |discriminate].
  - destruct Ha as (Hge & _ & Hp). unfold ret in Hrun.
    assert (o = Some (res, retries + 1) ∧ f' = f1) as [-> ->] by (split; congruence).
    exists res, (retries + 1), [json_dumps res].
    split; [reflexivity|]. split; [lia|]. split; [lia|]. split; [exact Hp|].
    split; [cbn; lia|reflexivity].
  - destruct e; try discriminate.
    destruct Ha as (Hlt & Hl1 & r & Hp).
    apply bind_inv in Hrun as ([] & f2 & Hsleep & Hrun).
    apply bind_inv in Hrun as ([] & f3 & Hthreads & Hrun).
    pose proof (preserves_outside_store _ (preserves_on_pool (VMPool.sleep countdown)) f1)
      as H2.
    rewrite Hsleep in H2. cbn [final_state] in H2.
    pose proof (preserves_outside_store _ preserves_run_threads f2) as H3.
    rewrite Hthreads in H3. cbn [final_state] in H3.
    assert (Hst : store f3 = store f1) by congruence.
    unfold max_retries in *.
    destruct (IH (retries + 1) f3 f' o) as (res & n & l & -> & Hn1 & Hn2 & Hp' & Hlen & Hlast).
    { rewrite Hst. exact Hl1. }
    { lia. }
    { lia. }
    { exact Hrun. }
    exists res, n, (json_dumps r :: l).
    split; [reflexivity|]. split; [lia|]. split; [lia|]. split.
    { rewrite Hp', Hst, Hp, <- app_assoc. reflexivity. }
    split; [cbn [length]; lia|].
    rewrite last_cons, Hlast. reflexivity.
Qed.

(** C6, where the code departs from it. A Phase-3 unit never queries an
    EDR console: whatever the collaborators answer, however the attempt
    ends, the list of [get_alerts] calls is as it was, because the name
    [timedelta], needed for the end of the window, is not bound in the
    module and its evaluation raises before the call. Accordingly an
    attempt that returns a result returns one of status [error]. *)
Theorem edr_console_is_never_queried (retries : Z) (job_id : string)
    (container_name : pyval) (file_info : json) (edr : string) (f : frame) :
  queries (final_state
             (test_single_file_edr env cloud max_vm_uses base_images
                azure_resource_group retries job_id container_name file_info
                edr f))
  = queries f
  ∧ ∀ res f',
      test_single_file_edr env cloud max_vm_uses base_images
        azure_resource_group retries job_id container_name file_info edr f
      = Ok res f' →
      ∃ r, res = JDict r ∧ dict_get r "status" = Some (JStr "error").
Proof.
  split.
  - revert f. fold (preserves queries
      (test_single_file_edr env cloud max_vm_uses base_images
         azure_resource_group retries job_id container_name file_info edr)).
    unfold test_single_file_edr.
    apply preserves_bind; [apply preserves_jitem|intros file_path].
    apply preserves_bind; [apply preserves_jitem|intros version].
    apply preserves_bind; [apply preserves_jget_default|intros cdr_engine].
    apply preserves_bind; [apply preserves_jget_default|intros original_file].
    apply preserves_bind; [apply preserves_outside_queries, preserves_on_pool|intros t].
    apply preserves_bind; [apply preserves_outside_queries, preserves_put_locals|intros _].
    apply preserves_try_finally.
    + apply preserves_try_except.
      * apply preserves_outside_queries, try_block_outside.
      * intros e. apply preserves_except_block.
    + apply preserves_outside_queries, preserves_finally_block.
  - intros res f' Hok. unfold test_single_file_edr in Hok.
    apply bind_inv in Hok as (file_path & f1 & _ & Hok).
    apply bind_inv in Hok as (version & f2 & _ & Hok).
    apply bind_inv in Hok as (cdr_engine & f3 & _ & Hok).
    apply bind_inv in Hok as (original_file & f4 & _ & Hok).
    apply bind_inv in Hok as (t & f5 & _ & Hok).
    apply bind_inv in Hok as ([] & f6 & _ & Hok).
    unfold try_finally, try_except in Hok.
    pose proof (try_block_never_returns job_id container_name file_path edr f6) as Hnr.
    destruct (try_block env job_id container_name file_path edr f6)
      as [a f7|e f7|f7]; [by destruct (Hnr a f7)| |discriminate].
    destruct (except_block job_id retries e f7) as [res' f8|e8 f8|f8] eqn:Hex.
    + apply except_block_returns in Hex as ->.
      destruct (finally_block _ _ _ _ f8) as [[] f9|e9 f9|f9]; [|discriminate..].
      exists (error_record e f7). split; [congruence|].
      apply status_of_error_record.
    + destruct (finally_block _ _ _ _ f8); discriminate.
    + discriminate.
Qed.


End phase3_unit.

Lemma fresh_job_appendable : appendable Scenario.fresh_job "j1" "phase3".
Proof.
  intros h Hh.
  assert (Hnone : data Scenario.fresh_job !! JobManager.phase_key "j1" "phase3" = None)
    by (vm_compute; reflexivity).
  rewrite Hnone in Hh. discriminate Hh.
Qed.


(** A unit for which every collaborator answers: the VM is acquired, the
    file downloaded and executed, and each of the four attempts ends at the
    evaluation of [timedelta]; no query reaches the console, and the unit
    settles with status [error]. *)
Example unit_with_working_console_fails :
  Scenario8.verdicts (Scenario8.settled Scenario8.all_good)
  = replicate 4 (Some (JStr "error"), Some (JStr "name 'timedelta' is not defined"))
  ∧ Phase3.queries (Scenario8.settled Scenario8.all_good) = []
  ∧ ∃ r, Scenario8.answer Scenario8.all_good = Some (JDict r, 4)
         ∧ dict_get r "execution_success" = Some (JBool true)
         ∧ dict_get r "status" = Some (JStr "error")
         ∧ dict_get r "alert_count" = None
         ∧ dict_get r "edr_detected" = None.
Proof.
  split; [vm_compute; reflexivity|].
  split; [vm_compute; reflexivity|].
  eexists. split; [vm_compute; reflexivity|].
  repeat split; vm_compute; reflexivity.
Qed.

(** ** The queries of the job store *)

Section queries.
Context `{JsonCodec}.
Import JobManager JobQueries.

Lemma reads_only_lrange (key : string) (start stop : Z) :
  reads_only (lrange key start stop).
Proof.
  intros r. unfold lrange. destruct (data r !! key) as [[h|l]|]; eauto.
  cbv zeta. destruct (decide _); eauto.
Qed.

Lemma reads_only_collect_jobs (job_ids : list string)
    (jobs : list (gmap string pyval)) :
  reads_only (collect_jobs job_ids jobs).
Proof.
  revert jobs. induction job_ids as [|job_id rest IH]; intros jobs; cbn.
  - apply reads_only_ret.
  - apply reads_only_bind; [apply reads_only_get_job|]. intros [job|]; apply IH.
Qed.

Lemma reads_only_list_jobs (limit : Z) : reads_only (list_jobs limit).
Proof.
  unfold list_jobs. apply reads_only_bind; [apply reads_only_lrange|].
  intros job_ids. apply reads_only_collect_jobs.
Qed.

Lemma reads_only_count_jobs (p : gmap string pyval → M redis bool)
    (jobs : list (gmap string pyval)) :
  (∀ j, reads_only (p j)) → reads_only (count_jobs p jobs).
Proof.
  intros Hp. induction jobs as [|j jobs IH]; cbn; [apply reads_only_ret|].
  apply reads_only_bind; [apply Hp|]. intros b.
  apply reads_only_bind; [apply IH|]. intros n. apply reads_only_ret.
Qed.

Lemma reads_only_status_eq (s : string) (j : gmap string pyval) :
  reads_only (status_eq s j).
Proof.
  unfold status_eq. apply reads_only_bind; [apply reads_only_getitem|].
  intros st. apply reads_only_ret.
Qed.

Lemma reads_only_sum_field (field : string) (jobs : list (gmap string pyval)) :
  reads_only (sum_field field jobs).
Proof.
  induction jobs as [|j jobs IH]; cbn; [apply reads_only_ret|].
  apply reads_only_bind; [apply reads_only_getitem|]. intros v.
  apply reads_only_bind; [apply reads_only_as_int|]. intros z.
  apply reads_only_bind; [apply IH|]. intros n. apply reads_only_ret.
Qed.

Lemma reads_only_get_job_results (job_id : string) :
  reads_only (get_job_results job_id).
Proof.
  unfold get_job_results.
  apply reads_only_bind; [apply reads_only_get_job|]. intros [job|];
    [|apply reads_only_ret].
  do 3 (apply reads_only_bind; [apply reads_only_get_phase_results|]; intros ?).
  apply reads_only_ret.
Qed.

Lemma reads_only_get_statistics : reads_only get_statistics.
Proof.
  unfold get_statistics.
  apply reads_only_bind; [apply reads_only_list_jobs|]. intros all_jobs.
  do 4 (apply reads_only_bind;
        [apply reads_only_count_jobs; intros j; apply reads_only_status_eq|];
        intros ?).
  do 2 (apply reads_only_bind; [apply reads_only_sum_field|]; intros ?).
  apply reads_only_ret.
Qed.

(** The five query operations of [JobManager] return or raise with the
    store exactly as it was, and none of them blocks. *)
Theorem job_queries_read_only (job_id phase : string) (limit : Z) :
  reads_only (get_job job_id)
  ∧ reads_only (get_phase_results job_id phase)
  ∧ reads_only (list_jobs limit)
  ∧ reads_only (get_job_results job_id)
  ∧ reads_only get_statistics.
Proof.
  split; [apply reads_only_get_job|].
  split; [apply reads_only_get_phase_results|].
  split; [apply reads_only_list_jobs|].
  split; [apply reads_only_get_job_results|apply reads_only_get_statistics].
Qed.

Lemma lrange_to_end (key : string) (r : redis) :
  lrange key 0 (-1) r = lrange_all key r.
Proof.
  unfold lrange, lrange_all. destruct (data r !! key) as [[h|l]|]; try reflexivity.
  cbv zeta. rewrite (decide_False (P := 0 < 0)) by lia.
  rewrite (decide_True (P := -1 < 0)) by lia.
  rewrite (decide_False (P := 0 < 0)) by lia.
  destruct l as [|x l]; [reflexivity|].
  rewrite decide_False by (cbn [length]; lia).
  rewrite decide_False by lia.
  f_equal. replace (Z.to_nat 0) with 0%nat by reflexivity. rewrite drop_0.
  apply take_ge. cbn [length]. lia.
Qed.

Lemma length_lrange (key : string) (start stop : Z) (r r' : redis)
    (l : list string) :
  lrange key start stop r = Ok l r' → 0 ≤ start ≤ stop →
  Z.of_nat (length l) ≤ stop - start + 1.
Proof.
  intros Hl Hr. unfold lrange in Hl.
  destruct (data r !! key) as [[h|l0]|]; [discriminate| |].
  - cbv zeta in Hl.
    rewrite (decide_False (P := start < 0)) in Hl by lia.
    rewrite (decide_False (P := stop < 0)) in Hl by lia.
    rewrite (decide_False (P := start < 0)) in Hl by lia.
    destruct (decide _) as [_|_] in Hl.
    + assert (l = []) as -> by congruence. cbn. lia.
    + assert (l = take (Z.to_nat
                          ((if decide (Z.of_nat (length l0) ≤ stop)
                            then Z.of_nat (length l0) - 1 else stop) - start + 1))
                       (drop (Z.to_nat start) l0)) as -> by congruence.
      rewrite length_take. destruct (decide _); lia.
  - assert (l = []) as -> by congruence. cbn. lia.
Qed.

Lemma length_collect_jobs (job_ids : list string) :
  ∀ (jobs jobs' : list (gmap string pyval)) (r r' : redis),
  collect_jobs job_ids jobs r = Ok jobs' r' →
  (length jobs' ≤ length jobs + length job_ids)%nat.
Proof.
  induction job_ids as [|job_id rest IH]; intros jobs jobs' r r' Hc.
  - cbn in Hc. unfold ret in Hc. assert (jobs' = jobs) as -> by congruence.
    cbn. lia.
  - cbn [collect_jobs] in Hc. apply bind_inv in Hc as (job & r1 & _ & Hc).
    destruct job as [job|]; apply IH in Hc; cbn [length];
      [rewrite length_app in Hc; cbn [length] in Hc|]; lia.
Qed.

Lemma length_list_jobs (limit : Z) (r r' : redis)
    (jobs : list (gmap string pyval)) :
  list_jobs limit r = Ok jobs r' → 0 < limit → Z.of_nat (length jobs) ≤ limit.
Proof.
  intros Hl Hpos. unfold list_jobs in Hl.
  apply bind_inv in Hl as (job_ids & r1 & Hrange & Hc).
  apply length_lrange in Hrange; [|lia].
  apply length_collect_jobs in Hc. cbn [length] in Hc. lia.
Qed.

(** [list_jobs] with a positive limit returns at most that many jobs. *)
Theorem list_jobs_limit (limit : Z) (r r' : redis)
    (jobs : list (gmap string pyval)) :
  list_jobs limit r = Ok jobs r' → 0 < limit →
  Z.of_nat (length jobs) ≤ limit ∧ r' = r.
Proof.
  intros Hl Hpos. split; [exact (length_list_jobs limit r r' jobs Hl Hpos)|].
  exact (reads_only_ok _ _ _ _ (reads_only_list_jobs limit) Hl).
Qed.

(** The limit 0 does not mean no job: the range handed to Redis is then
    [0 .. -1], the whole list, and [list_jobs] lists every job of the
    recent-jobs list. *)
Theorem list_jobs_zero_lists_all (r : redis) :
  list_jobs 0 r
  = (let* job_ids := lrange_all jobs_list in collect_jobs job_ids []) r.
Proof.
  unfold list_jobs, bind. replace (0 - 1) with (-1) by reflexivity.
  rewrite lrange_to_end. reflexivity.
Qed.

Lemma count_jobs_status (s : string) (jobs : list (gmap string pyval))
    (r r' : redis) (n : Z) :
  count_jobs (status_eq s) jobs r = Ok n r' → n = with_status s jobs.
Proof.
  revert n r'. induction jobs as [|j jobs IH]; intros n r' Hc.
  - cbn [count_jobs] in Hc. unfold ret in Hc. injection Hc as <- _. reflexivity.
  - cbn [count_jobs] in Hc.
    apply bind_inv in Hc as (b & r1 & Hb & Hc).
    apply bind_inv in Hc as (m & r2 & Hm & Hc).
    pose proof (reads_only_ok _ _ _ _ (reads_only_status_eq s j) Hb) as ->.
    apply IH in Hm. unfold ret in Hc.
    assert (n = (if b then 1 else 0) + m) as -> by congruence.
    assert (Hbs : b = has_status s j).
    { unfold status_eq, bind, getitem in Hb. unfold has_status.
      destruct (j !! "status") as [st|]; [|discriminate].
      unfold ret in Hb. congruence. }
    unfold with_status in *. cbn [List.filter]. rewrite <- Hbs.
    destruct b; cbn [length]; lia.
Qed.

Lemma has_status_unique (s s' : string) (j : gmap string pyval) :
  has_status s j = true → has_status s' j = true → s = s'.
Proof.
  unfold has_status. destruct (j !! "status") as [[ |b|z|q|s0|t|js]|]; try discriminate.
  intros H1%bool_decide_eq_true H2%bool_decide_eq_true. congruence.
Qed.

Lemma with_status_disjoint (jobs : list (gmap string pyval)) :
  with_status "completed" jobs + with_status "running" jobs
  + with_status "failed" jobs + with_status "pending" jobs
  ≤ Z.of_nat (length jobs).
Proof.
  unfold with_status. induction jobs as [|j jobs IH]; [cbn; lia|].
  cbn [List.filter].
  destruct (has_status "completed" j) eqn:E1;
    destruct (has_status "running" j) eqn:E2;
    destruct (has_status "failed" j) eqn:E3;
    destruct (has_status "pending" j) eqn:E4;
    cbn [length];
    try lia;
    first [ discriminate (has_status_unique _ _ _ E1 E2)
          | discriminate (has_status_unique _ _ _ E1 E3)
          | discriminate (has_status_unique _ _ _ E1 E4)
          | discriminate (has_status_unique _ _ _ E2 E3)
          | discriminate (has_status_unique _ _ _ E2 E4)
          | discriminate (has_status_unique _ _ _ E3 E4) ].
Qed.

(** [get_statistics]: the four status counts are counts of different
    jobs, so together they never exceed [total_jobs] (a cancelled job is
    in none of them), and [total_jobs] is at most the 1000 that are
    listed. *)
Theorem statistics_buckets (r r' : redis) (st : statistics) :
  get_statistics r = Ok st r' →
  0 ≤ completed_jobs st ∧ 0 ≤ running_jobs st ∧ 0 ≤ failed_jobs st
  ∧ 0 ≤ pending_jobs st
  ∧ completed_jobs st + running_jobs st + failed_jobs st + pending_jobs st
    ≤ total_jobs st
  ∧ total_jobs st ≤ 1000.
Proof.
  intros Hs. unfold get_statistics in Hs.
  apply bind_inv in Hs as (all_jobs & r1 & Hl & Hs).
  apply bind_inv in Hs as (c & r2 & Hc & Hs).
  apply bind_inv in Hs as (ru & r3 & Hru & Hs).
  apply bind_inv in Hs as (f & r4 & Hf & Hs).
  apply bind_inv in Hs as (p & r5 & Hp & Hs).
  apply bind_inv in Hs as (tf & r6 & _ & Hs).
  apply bind_inv in Hs as (pf & r7 & _ & Hs).
  apply count_jobs_status in Hc, Hru, Hf, Hp.
  unfold ret in Hs.
  assert (st = {| total_jobs := Z.of_nat (length all_jobs);
                  completed_jobs := c; running_jobs := ru; failed_jobs := f;
                  pending_jobs := p; total_files := tf;
                  processed_files := pf |}) as -> by congruence.
  cbn [total_jobs completed_jobs running_jobs failed_jobs pending_jobs].
  pose proof (with_status_disjoint all_jobs) as Hd.
  pose proof (length_list_jobs 1000 r r1 all_jobs Hl ltac:(lia)) as Hb.
  subst c ru f p. unfold with_status in *. lia.
Qed.

(** [GET /api/jobs/{job_id}/results]: the answer carries the job and the
    three result lists under [results], and since the dict that
    [get_job_results] builds has no key [status], the [status] of the
    answer is the default, "unknown", whatever the status of the job. *)
Theorem results_endpoint_status_unknown (job_id : string) (r r' : redis)
    (resp : Api.results_response) :
  Api.get_job_results job_id r = Ok resp r' →
  Api.rr_status resp = EStr "unknown"
  ∧ r' = r
  ∧ ∃ job p1 p2 p3,
      get_job job_id r = Ok (Some job) r
      ∧ get_phase_results job_id "phase1" r = Ok p1 r
      ∧ get_phase_results job_id "phase2" r = Ok p2 r
      ∧ get_phase_results job_id "phase3" r = Ok p3 r
      ∧ Api.rr_results resp
        = [("job", EJob job); ("phase1_results", EResults p1);
           ("phase2_results", EResults p2); ("phase3_results", EResults p3)].
Proof.
  intros Hr. unfold Api.get_job_results, Api.http_errors, try_except in Hr.
  destruct (bind (get_job_results job_id) _ r) as [resp0 r0|e r0|r0] eqn:Hb;
    [|destruct e; discriminate|discriminate].
  assert (resp0 = resp ∧ r0 = r') as [-> ->] by (split; congruence).
  apply bind_inv in Hb as (results & r1 & Hg & Hb).
  destruct results as [results|]; [|discriminate].
  unfold get_job_results in Hg.
  apply bind_inv in Hg as (job & r2 & Hjob & Hg).
  destruct job as [job|]; [|discriminate].
  apply bind_inv in Hg as (p1 & r3 & H1 & Hg).
  apply bind_inv in Hg as (p2 & r4 & H2 & Hg).
  apply bind_inv in Hg as (p3 & r5 & H3 & Hg).
  pose proof (reads_only_ok _ _ _ _ (reads_only_get_job job_id) Hjob) as ->.
  pose proof (reads_only_ok _ _ _ _ (reads_only_get_phase_results _ _) H1) as ->.
  pose proof (reads_only_ok _ _ _ _ (reads_only_get_phase_results _ _) H2) as ->.
  pose proof (reads_only_ok _ _ _ _ (reads_only_get_phase_results _ _) H3) as ->.
  unfold ret in Hg, Hb.
  assert (results = [("job", EJob job); ("phase1_results", EResults p1);
                     ("phase2_results", EResults p2);
                     ("phase3_results", EResults p3)] ∧ r1 = r) as [-> ->]
    by (split; congruence).
  assert (resp = {| Api.rr_job_id := job_id;
                    Api.rr_status :=
                      entry_get [("job", EJob job); ("phase1_results", EResults p1);
                                 ("phase2_results", EResults p2);
                                 ("phase3_results", EResults p3)]
                        "status" (EStr "unknown");
                    Api.rr_results :=
                      [("job", EJob job); ("phase1_results", EResults p1);
                       ("phase2_results", EResults p2);
                       ("phase3_results", EResults p3)] |} ∧ r' = r)
    as [-> ->] by (split; congruence).
  split; [reflexivity|]. split; [reflexivity|].
  exists job, p1, p2, p3. repeat (split; [assumption|]). reflexivity.
Qed.

Lemma http_errors_raise {A} (m : M redis A) (r r' : redis) (e : exn) :
  Api.http_errors m r = Raise e r' → ∃ code, e = HTTPException code.
Proof.
  unfold Api.http_errors, try_except.
  destruct (m r) as [a r0|e0 r0|r0]; [discriminate| |discriminate].
  destruct e0; unfold raise; intros Heq; injection Heq as <- _; eexists; reflexivity.
Qed.

(** The endpoints that read or cancel answer with an HTTP error or not at
    all: whatever goes wrong below them, what they raise is an
    [HTTPException]; for a job that has no record it is 404, with the store
    untouched. *)
Theorem endpoints_raise_http_errors_only (job_id : string) (limit now : Z)
    (r : redis) :
  (∀ e r', Api.get_job_status job_id r = Raise e r' → ∃ code, e = HTTPException code)
  ∧ (∀ e r', Api.get_job_results job_id r = Raise e r' → ∃ code, e = HTTPException code)
  ∧ (∀ e r', Api.list_jobs limit r = Raise e r' → e = HTTPException 500)
  ∧ (∀ e r', App.cancel_job job_id now r = Raise e r' → ∃ code, e = HTTPException code)
  ∧ (data r !! job_key job_id = None →
     Api.get_job_status job_id r = Raise (HTTPException 404) r
     ∧ Api.get_job_results job_id r = Raise (HTTPException 404) r
     ∧ App.cancel_job job_id now r = Raise (HTTPException 404) r).
Proof.
  split; [intros e r'; apply http_errors_raise|].
  split; [intros e r'; apply http_errors_raise|].
  split.
  { intros e r'. unfold Api.list_jobs, try_except.
    destruct (list_jobs limit r); unfold raise; congruence. }
  split.
  { intros e r'. apply (http_errors_raise _ r r' e). }
  intros Hnone. pose proof (get_job_missing r job_id Hnone) as Hg.
  split; [|split].
  - unfold Api.get_job_status, Api.http_errors, try_except, bind. rewrite Hg.
    reflexivity.
  - unfold Api.get_job_results, Api.http_errors, try_except, bind,
      get_job_results, bind. rewrite Hg. reflexivity.
  - unfold App.cancel_job, try_except, bind, cancel_job, bind. rewrite Hg.
    reflexivity.
Qed.

End queries.

(** [get_celery_priority]: every priority string is mapped into the range
    of priorities of the queues ([x-max-priority] is 10), the three known
    strings in their order, and a string that is none of them to 5, the
    default priority of the tasks. *)
Theorem celery_priority_range (priority : string) :
  0 ≤ Api.get_celery_priority priority ≤ 10
  ∧ Api.get_celery_priority "low" < Api.get_celery_priority "normal"
    < Api.get_celery_priority "high"
  ∧ (priority ≠ "low" → priority ≠ "high" → Api.get_celery_priority priority = 5).
Proof.
  assert (Hcases : Api.get_celery_priority priority
                   = if decide (priority = "low") then 3
                     else if decide (priority = "normal") then 5
                     else if decide (priority = "high") then 7 else 5).
  { unfold Api.get_celery_priority.
    destruct (decide (priority = "low")) as [->|Hl]; [reflexivity|].
    rewrite lookup_insert_ne by congruence.
    destruct (decide (priority = "normal")) as [->|Hn]; [reflexivity|].
    rewrite lookup_insert_ne by congruence.
    destruct (decide (priority = "high")) as [->|Hh]; [reflexivity|].
    rewrite lookup_singleton_ne by congruence. reflexivity. }
  split; [|split].
  - rewrite Hcases. repeat destruct (decide _); lia.
  - vm_compute. split; reflexivity.
  - intros Hl Hh. rewrite Hcases.
    rewrite decide_False by exact Hl.
    destruct (decide (priority = "normal")); [reflexivity|].
    rewrite decide_False by exact Hh. reflexivity.
Qed.

Lemma list_jobs_limit_witness :
  @JobQueries.list_jobs RefJson.codec 1 Scenario9.two_jobs
  = Ok (Scenario9.jobs 1) Scenario9.two_jobs
  ∧ Z.of_nat (length (Scenario9.jobs 1)) ≤ 1.
Proof.
  assert (Hl : @JobQueries.list_jobs RefJson.codec 1 Scenario9.two_jobs
               = Ok (Scenario9.jobs 1) Scenario9.two_jobs)
    by (vm_compute; reflexivity).
  split; [exact Hl|].
  exact (proj1 (list_jobs_limit (H := RefJson.codec) 1 Scenario9.two_jobs
                  Scenario9.two_jobs (Scenario9.jobs 1) Hl ltac:(lia))).
Defined.

Lemma statistics_buckets_witness :
  0 ≤ JobQueries.completed_jobs Scenario9.stats
  ∧ 0 ≤ JobQueries.running_jobs Scenario9.stats
  ∧ 0 ≤ JobQueries.failed_jobs Scenario9.stats
  ∧ 0 ≤ JobQueries.pending_jobs Scenario9.stats
  ∧ JobQueries.completed_jobs Scenario9.stats
    + JobQueries.running_jobs Scenario9.stats
    + JobQueries.failed_jobs Scenario9.stats
    + JobQueries.pending_jobs Scenario9.stats
    ≤ JobQueries.total_jobs Scenario9.stats
  ∧ JobQueries.total_jobs Scenario9.stats ≤ 1000.
Proof.
  apply (statistics_buckets (H := RefJson.codec) Scenario9.two_jobs
           Scenario9.two_jobs Scenario9.stats).
  vm_compute. reflexivity.
Defined.

(** Two jobs, one of them cancelled: one is pending and the cancelled one
    is in no bucket. *)
Example cancelled_job_in_no_bucket :
  JobQueries.total_jobs Scenario9.stats = 2
  ∧ JobQueries.pending_jobs Scenario9.stats = 1
  ∧ JobQueries.completed_jobs Scenario9.stats
    + JobQueries.running_jobs Scenario9.stats
    + JobQueries.failed_jobs Scenario9.stats = 0.
Proof. repeat split; vm_compute; reflexivity. Qed.

Lemma results_endpoint_status_unknown_witness :
  Api.rr_status Scenario9.response = JobQueries.EStr "unknown"
  ∧ job_field Scenario9.two_jobs "j1" "status" = Some (PStr "cancelled").
Proof.
  split; [|vm_compute; reflexivity].
  apply (results_endpoint_status_unknown (H := RefJson.codec) "j1"
           Scenario9.two_jobs Scenario9.two_jobs Scenario9.response).
  vm_compute. reflexivity.
Defined.

(** ** The job store: counters, cancellation, deletion *)

Section store_changes.
Context `{JsonCodec}.
Import JobManager.

Lemma refresh_progress (h : gmap string pyval) (total processed : Z) :
  h !! "total_files" = Some (PInt total) →
  h !! "processed_files" = Some (PInt processed) →
  refresh h !! "progress_percentage"
  = if decide (total > 0) then Some (PFloat (percentage processed total))
    else h !! "progress_percentage".
Proof.
  intros Ht Hp. unfold refresh. rewrite Ht, Hp.
  destruct (decide (total > 0)); [apply lookup_insert_eq|reflexivity].
Qed.

(** [increment_processed] on a well-formed record: one more processed,
    the other counters as they were, and the progress the new ratio of
    processed to total; when the total is 0 nothing is divided and the
    progress stays. *)
Theorem progress_follows_processed (r : redis) (job_id : string)
    (total processed failed : Z) (n : nat) :
  counting r job_id total processed failed n →
  ∃ r', increment_processed job_id r = Ok tt r'
    ∧ counting r' job_id total (processed + 1) failed n
    ∧ job_field r' job_id "progress_percentage"
      = if decide (total > 0)
        then Some (PFloat (percentage (processed + 1) total))
        else job_field r job_id "progress_percentage".
Proof.
  intros Hc.
  destruct (counting_increment_processed r job_id _ _ _ _ Hc) as (r' & Hinc & Hc').
  exists r'. split; [exact Hinc|]. split; [exact Hc'|].
  destruct Hc as (h & Hk & Hwf & Ht & Hp & Hf & _).
  rewrite (increment_processed_record r job_id h processed Hk Hwf Hp) in Hinc.
  assert (r' = set_record r job_id
                 (refresh (<["processed_files" := PInt (processed + 1)]> h)))
    as -> by congruence.
  rewrite job_field_set_record.
  rewrite (refresh_progress _ total (processed + 1)).
  - destruct (decide (total > 0)); [reflexivity|].
    rewrite lookup_insert_ne by discriminate.
    unfold job_field, job_record. rewrite Hk. reflexivity.
  - rewrite lookup_insert_ne by discriminate. exact Ht.
  - apply lookup_insert_eq.
Qed.

(** [increment_failed] counts the unit as failed and as processed: both
    counters go up by one, the total stays, and the progress follows the
    processed count. *)
Theorem failed_unit_counts_as_processed (r : redis) (job_id : string)
    (total processed failed : Z) (n : nat) :
  counting r job_id total processed failed n →
  ∃ r', increment_failed job_id r = Ok tt r'
    ∧ counting r' job_id total (processed + 1) (failed + 1) n
    ∧ job_field r' job_id "progress_percentage"
      = if decide (total > 0)
        then Some (PFloat (percentage (processed + 1) total))
        else job_field r job_id "progress_percentage".
Proof.
  intros Hc.
  destruct (counting_increment_failed r job_id _ _ _ _ Hc) as (r' & Hinc & Hc').
  exists r'. split; [exact Hinc|]. split; [exact Hc'|].
  destruct Hc as (h & Hk & Hwf & Ht & Hp & Hf & _).
  rewrite (increment_failed_record r job_id h processed failed Hk Hwf Hp Hf) in Hinc.
  assert (r' = set_record r job_id
                 (refresh (<["processed_files" := PInt (processed + 1)]>
                             (<["failed_files" := PInt (failed + 1)]> h))))
    as -> by congruence.
  rewrite job_field_set_record.
  rewrite (refresh_progress _ total (processed + 1)).
  - destruct (decide (total > 0)); [reflexivity|].
    rewrite !lookup_insert_ne by discriminate.
    unfold job_field, job_record. rewrite Hk. reflexivity.
  - rewrite !lookup_insert_ne by discriminate. exact Ht.
  - apply lookup_insert_eq.
Qed.

(** What a successful [cancel_job] leaves: a well-formed record of status
    cancelled. *)
Lemma cancel_job_done (r r' : redis) (job_id : string) (now : Z) :
  job_ok r job_id → cancel_job job_id now r = Ok true r' →
  job_ok r' job_id ∧ cancellable r' job_id = false.
Proof.
  intros Hok Hc. pose proof (cancel_job_cases r job_id now Hok) as Hcases.
  destruct (cancellable r job_id) eqn:Hcan.
  - destruct Hcases as (r1 & Hc1 & Hs & _).
    assert (r1 = r') as -> by congruence. split.
    + unfold job_ok in Hok |- *.
      destruct (data r !! job_key job_id) as [[h|l]|] eqn:Hk.
      * pose proof (update_job_well_formed r job_id h (cancel_patch now) Hk) as Hu.
        pose proof (cancel_patch_well_formed now h Hok) as Hwf'.
        assert (Hsz : size (cancel_patch now) ≠ 0%nat).
        { unfold cancel_patch. rewrite map_size_insert_None
            by (rewrite lookup_singleton_ne by discriminate; reflexivity).
          discriminate. }
        specialize (Hu Hsz (cancel_patch_storable now) Hwf').
        destruct (get_job_well_formed r job_id h Hk Hok) as [j Hj].
        destruct Hok as ([s Hst] & Hrest).
        assert (Hterm : is_terminal (PStr s) = false).
        { unfold cancellable, job_field, job_record in Hcan.
          rewrite Hk in Hcan. cbn [mbind option_bind] in Hcan.
          rewrite Hst in Hcan. apply negb_true_iff in Hcan. exact Hcan. }
        assert (Hget : getitem (<["phases":=PJson j]> h) "status" r = Ok (PStr s) r).
        { unfold getitem. rewrite lookup_insert_ne by discriminate.
          rewrite Hst. reflexivity. }
        assert (Hc2 : cancel_job job_id now r
                      = Ok true (set_record r job_id
                                   (refresh ((serialize <$> cancel_patch now) ∪ h)))).
        { unfold cancel_job, bind. rewrite Hj, Hget, Hterm.
          fold (cancel_patch now). rewrite Hu. reflexivity. }
        assert (r' = set_record r job_id
                       (refresh ((serialize <$> cancel_patch now) ∪ h)))
          as -> by congruence.
        rewrite set_record_lookup. apply refresh_well_formed. exact Hwf'.
      * contradiction.
      * unfold cancellable, job_field, job_record in Hcan. rewrite Hk in Hcan.
        discriminate Hcan.
    + unfold cancellable. rewrite Hs. reflexivity.
  - destruct Hcases as [Hc1 _]. congruence.
Qed.

(** A job cancelled once cannot be cancelled again: the second
    [cancel_job] returns [False] and leaves the store alone, and the
    endpoint answers 404. *)
Theorem cancel_job_twice (r r1 : redis) (job_id : string) (now now' : Z) :
  job_ok r job_id → cancel_job job_id now r = Ok true r1 →
  cancel_job job_id now' r1 = Ok false r1
  ∧ App.cancel_job job_id now' r1 = Raise (HTTPException 404) r1.
Proof.
  intros Hok Hc. destruct (cancel_job_done r r1 job_id now Hok Hc) as [Hok1 Hcan].
  pose proof (cancel_job_cases r1 job_id now' Hok1) as Hcases.
  rewrite Hcan in Hcases. exact Hcases.
Qed.

Lemma phase_key_not_jobs_list (job_id phase : string) :
  phase_key job_id phase ≠ jobs_list.
Proof. unfold phase_key, jobs_list. cbn. intros Heq. discriminate Heq. Qed.

(** [delete_job] on a store whose recent-jobs list is a list: the record
    of the job, its time to live and its three result lists are gone, the
    id is in the recent-jobs list no more, [get_job] answers [None] and
    the results read as empty; every other key holds what it held. *)
Theorem delete_job_forgets (r : redis) (job_id : string) :
  (∀ h, data r !! jobs_list ≠ Some (RHash h)) →
  ∃ r', delete_job job_id r = Ok tt r'
    ∧ data r' !! job_key job_id = None
    ∧ ttl r' !! job_key job_id = None
    ∧ (∀ phase, phase ∈ ["phase1"; "phase2"; "phase3"] →
         data r' !! phase_key job_id phase = None
         ∧ get_phase_results job_id phase r' = Ok [] r')
    ∧ get_job job_id r' = Ok None r'
    ∧ recent_jobs r' = filter (λ y, y ≠ job_id) (recent_jobs r)
    ∧ (∀ k, k ∉ job_keys job_id → data r' !! k = data r !! k).
Proof.
  intros Hlist. unfold delete_job, bind, del. cbn [data ttl].
  set (d := delete (phase_key job_id "phase3")
              (delete (phase_key job_id "phase2")
                 (delete (phase_key job_id "phase1")
                    (delete (job_key job_id) (data r))))).
  set (t := delete (phase_key job_id "phase3")
              (delete (phase_key job_id "phase2")
                 (delete (phase_key job_id "phase1")
                    (delete (job_key job_id) (ttl r))))).
  assert (Hjl : d !! jobs_list = data r !! jobs_list).
  { unfold d. rewrite !lookup_delete_ne
      by first [apply phase_key_not_jobs_list|apply job_key_not_jobs_list].
    reflexivity. }
  assert (Hjob : d !! job_key job_id = None).
  { unfold d. rewrite !lookup_delete_None. right. right. right. left. reflexivity. }
  assert (Htj : t !! job_key job_id = None).
  { unfold t. rewrite !lookup_delete_None. right. right. right. left. reflexivity. }
  assert (Hph : ∀ phase, phase ∈ ["phase1"; "phase2"; "phase3"] →
                         d !! phase_key job_id phase = None).
  { intros phase Hin. unfold d. rewrite !lookup_delete_None.
    apply list_elem_of_In in Hin. cbn in Hin.
    destruct Hin as [<-|[<-|[<-|[]]]]; [right; right; left|right; left|left];
      reflexivity. }
  assert (Hother : ∀ k, k ∉ job_keys job_id → d !! k = data r !! k).
  { intros k Hk. unfold d, job_keys in *.
    rewrite !lookup_delete_ne; [reflexivity|..]; intros <-; apply Hk;
      repeat first [apply list_elem_of_here|apply list_elem_of_further]. }
  assert (Hfinal : ∀ r', data r' !! job_key job_id = None →
            (∀ phase, phase ∈ ["phase1"; "phase2"; "phase3"] →
                        data r' !! phase_key job_id phase = None) →
            (∀ phase, phase ∈ ["phase1"; "phase2"; "phase3"] →
               data r' !! phase_key job_id phase = None
               ∧ get_phase_results job_id phase r' = Ok [] r')
            ∧ get_job job_id r' = Ok None r').
  { intros r' Hj Hp. split; [|exact (get_job_missing r' job_id Hj)].
    intros phase Hin. split; [exact (Hp phase Hin)|].
    unfold get_phase_results, bind, lrange_all. rewrite (Hp phase Hin).
    reflexivity. }
  unfold lrem_all. cbn [data ttl]. unfold recent_jobs. rewrite Hjl.
  destruct (data r !! jobs_list) as [[h|l]|] eqn:Hl; [by destruct (Hlist h)| |].
  - cbv zeta. destruct (filter (λ y, y ≠ job_id) l) as [|x l'] eqn:Hfil.
    + eexists. split; [reflexivity|]. cbn [data ttl].
      assert (Hj' : delete jobs_list d !! job_key job_id = None).
      { rewrite lookup_delete_None. right. exact Hjob. }
      assert (Hp' : ∀ phase, phase ∈ ["phase1"; "phase2"; "phase3"] →
                      delete jobs_list d !! phase_key job_id phase = None).
      { intros phase Hin. rewrite lookup_delete_None. right. exact (Hph phase Hin). }
      split; [exact Hj'|]. split.
      { rewrite lookup_delete_None. right. exact Htj. }
      destruct (Hfinal (Redis (delete jobs_list d) (delete jobs_list t)) Hj' Hp')
        as [H1 H2].
      split; [exact H1|]. split; [exact H2|]. split.
      { rewrite lookup_delete_eq. reflexivity. }
      intros k Hk. rewrite lookup_delete_ne; [exact (Hother k Hk)|].
      intros <-. apply Hk. unfold job_keys.
      repeat first [apply list_elem_of_here|apply list_elem_of_further].
    + eexists. split; [reflexivity|]. cbn [data ttl].
      assert (Hj' : <[jobs_list := RList (x :: l')]> d !! job_key job_id = None).
      { rewrite lookup_insert_ne
          by (intros Heq; exact (job_key_not_jobs_list job_id (eq_sym Heq))).
        exact Hjob. }
      assert (Hp' : ∀ phase, phase ∈ ["phase1"; "phase2"; "phase3"] →
                      <[jobs_list := RList (x :: l')]> d !! phase_key job_id phase
                      = None).
      { intros phase Hin. rewrite lookup_insert_ne
          by (intros Heq; exact (phase_key_not_jobs_list job_id phase (eq_sym Heq))).
        exact (Hph phase Hin). }
      split; [exact Hj'|]. split; [exact Htj|].
      destruct (Hfinal (Redis (<[jobs_list := RList (x :: l')]> d) t) Hj' Hp')
        as [H1 H2].
      split; [exact H1|]. split; [exact H2|]. split.
      { rewrite lookup_insert_eq. reflexivity. }
      intros k Hk. rewrite lookup_insert_ne; [exact (Hother k Hk)|].
      intros <-. apply Hk. unfold job_keys.
      repeat first [apply list_elem_of_here|apply list_elem_of_further].
  - eexists. split; [reflexivity|]. cbn [data ttl].
    split; [exact Hjob|]. split; [exact Htj|].
    destruct (Hfinal (Redis d t) Hjob Hph) as [H1 H2].
    split; [exact H1|]. split; [exact H2|]. split.
    { try rewrite Hjl; try rewrite Hl; reflexivity. }
    exact Hother.
Qed.


End store_changes.

Lemma two_files_counting : @counting RefJson.codec Scenario10.two_files "j1" 2 0 0 0.
Proof.
  exists (default ∅ (job_record Scenario10.two_files "j1")).
  split; [vm_compute; reflexivity|].
  split; [apply well_formedb_true; vm_compute; reflexivity|].
  split; [vm_compute; reflexivity|].
  split; [vm_compute; reflexivity|].
  split; [vm_compute; reflexivity|].
  split; [intros h0; vm_compute; discriminate|].
  vm_compute. reflexivity.
Qed.

Lemma progress_follows_processed_witness :
  ∃ r', @JobManager.increment_processed RefJson.codec "j1" Scenario10.two_files
        = Ok tt r'
    ∧ @counting RefJson.codec r' "j1" 2 (0 + 1) 0 0
    ∧ job_field r' "j1" "progress_percentage"
      = if decide (2 > 0)
        then Some (PFloat (JobManager.percentage (0 + 1) 2))
        else job_field Scenario10.two_files "j1" "progress_percentage".
Proof.
  exact (progress_follows_processed (H := RefJson.codec) Scenario10.two_files
           "j1" 2 0 0 0 two_files_counting).
Defined.

Lemma failed_unit_counts_as_processed_witness :
  ∃ r', @JobManager.increment_failed RefJson.codec "j1" Scenario.fresh_job
        = Ok tt r'
    ∧ @counting RefJson.codec r' "j1" 0 (0 + 1) (0 + 1) 0
    ∧ job_field r' "j1" "progress_percentage"
      = if decide (0 > 0)
        then Some (PFloat (JobManager.percentage (0 + 1) 0))
        else job_field Scenario.fresh_job "j1" "progress_percentage".
Proof.
  exact (failed_unit_counts_as_processed (H := RefJson.codec) Scenario.fresh_job
           "j1" 0 0 0 0 fresh_job_counting).
Defined.

Lemma cancel_job_twice_witness :
  @JobManager.cancel_job RefJson.codec "j1" 500 Scenario4.cancelled_job
  = Ok false Scenario4.cancelled_job
  ∧ @App.cancel_job RefJson.codec "j1" 500 Scenario4.cancelled_job
    = Raise (HTTPException 404) Scenario4.cancelled_job.
Proof.
  apply (cancel_job_twice (H := RefJson.codec) Scenario.fresh_job
           Scenario4.cancelled_job "j1" 160 500).
  - apply job_okb_true. vm_compute. reflexivity.
  - vm_compute. reflexivity.
Defined.

Lemma delete_job_forgets_witness :
  ∃ r', @JobManager.delete_job "j1" Scenario2.with_result = Ok tt r'
    ∧ data r' !! JobManager.job_key "j1" = None
    ∧ ttl r' !! JobManager.job_key "j1" = None
    ∧ (∀ phase, phase ∈ ["phase1"; "phase2"; "phase3"] →
         data r' !! JobManager.phase_key "j1" phase = None
         ∧ @JobManager.get_phase_results RefJson.codec "j1" phase r' = Ok [] r')
    ∧ @JobManager.get_job RefJson.codec "j1" r' = Ok None r'
    ∧ recent_jobs r' = filter (λ y, y ≠ "j1") (recent_jobs Scenario2.with_result)
    ∧ (∀ k, k ∉ job_keys "j1" → data r' !! k = data Scenario2.with_result !! k).
Proof.
  apply (delete_job_forgets (H := RefJson.codec) Scenario2.with_result "j1").
  intros h Hh.
  assert (Hl : data Scenario2.with_result !! JobManager.jobs_list
               = Some (RList ["j1"])) by (vm_compute; reflexivity).
  rewrite Hl in Hh. discriminate Hh.
Defined.


(** After the seven days the batch task of a job finds no record: its
    first patch becomes a record that holds [status], [current_phase] and
    [started_at] and nothing else, and that has no time to live. *)
Example late_task_leaves_partial_record :
  ∃ r', @JobManager.update_job RefJson.codec "j1" Scenario10.late_patch
          Scenario10.expired_store = Raise (KeyError "total_files") r'
    ∧ job_record r' "j1"
      = Some {[ "status" := PStr "running"; "current_phase" := PInt 1;
                "started_at" := PStr (isoformat 691300) ]}
    ∧ ttl r' !! JobManager.job_key "j1" = None.
Proof.
  eexists. split; [vm_compute; reflexivity|].
  split; vm_compute; reflexivity.
Qed.

(** ** Creating a job *)

Section create_get.
Context `{JsonCodec}.
Import JobManager.

(** [get_job] on a record whose fields have the types [create_job] gives
    them: the conversions change nothing but [phases], which is parsed. *)
Lemma get_job_phases (r : redis) (job_id : string) (h : gmap string pyval)
    (s : string) (j : json) (t p f : Z) (q : Q) :
  data r !! job_key job_id = Some (RHash h) →
  h !! "phases" = Some (PStr s) → json_loads s = Some j →
  h !! "total_files" = Some (PInt t) → h !! "processed_files" = Some (PInt p) →
  h !! "failed_files" = Some (PInt f) →
  h !! "progress_percentage" = Some (PFloat q) →
  get_job job_id r = Ok (Some (<["phases" := PJson j]> h)) r.
Proof.
  intros Hk Hs Hj Ht Hp Hf Hq.
  assert (Hne : size h ≠ 0%nat).
  { intros Hz. apply map_size_empty_iff in Hz. subst h.
    rewrite lookup_empty in Hs. discriminate Hs. }
  unfold get_job, bind, hgetall. rewrite Hk.
  rewrite decide_False by exact Hne.
  set (h' := <["phases":=PJson j]> h).
  rewrite (convert_hit "phases" _ h (PStr s) (PJson j));
    [|exact Hs|cbn; rewrite Hj; reflexivity].
  fold h'.
  assert (Hother : ∀ k, k ≠ "phases" → h' !! k = h !! k).
  { intros k Hk'. unfold h'. apply lookup_insert_ne. congruence. }
  rewrite (convert_hit "total_files" _ h' (PInt t) (PInt t));
    [|rewrite Hother by discriminate; exact Ht|reflexivity].
  rewrite (insert_id h' "total_files") by (rewrite Hother by discriminate; exact Ht).
  rewrite (convert_hit "processed_files" _ h' (PInt p) (PInt p));
    [|rewrite Hother by discriminate; exact Hp|reflexivity].
  rewrite (insert_id h' "processed_files")
    by (rewrite Hother by discriminate; exact Hp).
  rewrite (convert_hit "failed_files" _ h' (PInt f) (PInt f));
    [|rewrite Hother by discriminate; exact Hf|reflexivity].
  rewrite (insert_id h' "failed_files") by (rewrite Hother by discriminate; exact Hf).
  rewrite (convert_hit "progress_percentage" _ h' (PFloat q) (PFloat q));
    [|rewrite Hother by discriminate; exact Hq|reflexivity].
  rewrite (insert_id h' "progress_percentage")
    by (rewrite Hother by discriminate; exact Hq).
  reflexivity.
Qed.

(** [create_job] never creates a job. The mapping it hands to [hset]
    holds [current_phase = None], which the client refuses: whatever the
    arguments and the store, the call raises [DataError] and the store is
    as it was, without a record, an entry in the list of recent jobs or a
    time to live for the job. [get_job] on a fresh id still finds
    nothing. *)
Theorem create_job_stores_nothing (r : redis) (job_id container_name : string)
    (file_paths : option (list string)) (phases : list Z) (priority : string)
    (now : Z) :
  create_job job_id container_name file_paths phases priority now r
  = Raise DataError r
  ∧ recent_jobs
      (final_state
         (create_job job_id container_name file_paths phases priority now r))
    = recent_jobs r
  ∧ (data r !! job_key job_id = None →
     get_job job_id
       (final_state
          (create_job job_id container_name file_paths phases priority now r))
     = Ok None r).
Proof.
  rewrite create_job_refused. cbn [final_state].
  split; [reflexivity|]. split; [reflexivity|]. apply get_job_missing.
Qed.

End create_get.

(** The request of the scenarios, made of an empty store: nothing is
    stored, and the job cannot be read. *)
Example job_is_never_created :
  @JobManager.create_job RefJson.codec "j1" "test-files" (Some ["a.pdf"])
    [1; 2; 3] "normal" 100 (Redis ∅ ∅) = Raise DataError (Redis ∅ ∅)
  ∧ @JobManager.get_job RefJson.codec "j1" (Redis ∅ ∅) = Ok None (Redis ∅ ∅).
Proof. split; vm_compute; reflexivity. Qed.

(** ** The VM pool: acquiring, releasing, cleaning *)

Section vm_pool_paths.
Import VMPool.
Variable cloud : azure.
Variable max_vm_uses : Z.
Variable base_images : gmap string string.
Variable azure_resource_group : string.

Lemma as_dict_mark_in_use (t : Z) (v : VMInfo) : as_dict (mark_in_use t v) = as_dict v.
Proof. reflexivity. Qed.

Ltac pool_step :=
  unfold with_lock, try_except, bind, get, put, deref, azure_do, modify, call,
    ret, raise, now, sleep, alloc, update_obj, queue_put, queue_get,
    start_thread, set_vm_lock, set_heap, set_all_vms, set_pools, set_threads,
    set_clock, log_call;
  cbn [vm_lock all_vms heap clock calls pools threads fmap option_fmap option_map
       vm_name edr_solution with_status app].

(** [acquire_vm] with the lock free hands out the VM at the front of the
    queue of the EDR solution: the object is marked in use, stamped with
    the time, its use count goes up by one, the rest of the queue stays in
    its order, and nothing else of the pool changes. *)
Theorem acquire_vm_takes_front (edr : string) (timeout : Z) (p : pool)
    (a : nat) (q : list nat) (v : VMInfo) :
  vm_lock p = false → pools p !! edr = Some (a :: q) → heap p !! a = Some v →
  ∃ p', acquire_vm edr timeout p = Ok (as_dict v) p'
    ∧ queue_of p' edr = q
    ∧ heap p' !! a = Some (mark_in_use (clock p) v)
    ∧ use_count (mark_in_use (clock p) v) = use_count v + 1
    ∧ (∀ b, b ≠ a → heap p' !! b = heap p !! b)
    ∧ (∀ e, e ≠ edr → pools p' !! e = pools p !! e)
    ∧ all_vms p' = all_vms p ∧ vm_lock p' = false
    ∧ threads p' = threads p ∧ calls p' = calls p ∧ clock p' = clock p.
Proof.
  intros Hlock Hq Hobj. destruct p as [hp av ps lk th cs ck].
  cbn [vm_lock all_vms heap clock calls pools threads] in *. subst lk.
  unfold acquire_vm.
  repeat (pool_step; first [rewrite Hq | rewrite lookup_alter_eq | rewrite Hobj]).
  eexists. split; [reflexivity|].
  unfold queue_of. cbn [vm_lock all_vms heap clock calls pools threads].
  split; [rewrite lookup_insert_eq; reflexivity|].
  split; [rewrite lookup_alter_eq, Hobj; reflexivity|].
  split; [reflexivity|].
  split; [intros b Hb; apply lookup_alter_ne; congruence|].
  split; [intros e He; apply lookup_insert_ne; congruence|].
  repeat split.
Qed.

(** Releasing without cleaning a tracked VM that has uses left: the VM is
    available again at once, at the back of the queue that the caller's
    dict names, and the lock is free. *)
Theorem release_without_cleaning_requeues (vm : vm_dict) (p : pool)
    (a : nat) (v : VMInfo) (q : list nat) :
  vm_lock p = false → all_vms p !! d_vm_name vm = Some a →
  heap p !! a = Some v → use_count v < max_vm_uses →
  pools p !! d_edr_solution vm = Some q →
  ∃ p', release_vm cloud max_vm_uses base_images azure_resource_group vm false p
        = Ok tt p'
    ∧ queue_of p' (d_edr_solution vm) = (q ++ [a])%list
    ∧ heap p' !! a = Some (with_status "available" v)
    ∧ vm_lock p' = false ∧ all_vms p' = all_vms p
    ∧ threads p' = threads p ∧ calls p' = calls p.
Proof.
  intros Hlock Htracked Hobj Huses Hq. destruct p as [hp av ps lk th cs ck].
  cbn [vm_lock all_vms heap clock calls pools threads] in *. subst lk.
  unfold release_vm.
  repeat (pool_step;
          first [ rewrite Htracked | rewrite Hobj | rewrite Hq
                | rewrite (decide_False (P := max_vm_uses ≤ use_count v)) by lia ]).
  eexists. split; [reflexivity|].
  unfold queue_of. cbn [vm_lock all_vms heap clock calls pools threads].
  split; [rewrite lookup_insert_eq; reflexivity|].
  split; [rewrite lookup_alter_eq, Hobj; reflexivity|].
  repeat split.
Qed.

(** Releasing with cleaning a tracked VM that has uses left, with no other
    cleaning pending and a cleanup command that succeeds: the release
    returns at once with the VM in state cleaning and in no queue; when
    the cleaning thread has run, the cleanup command was sent for the VM,
    ten seconds have passed, and the VM is available at the back of the
    queue of its EDR solution with its use count as it was. *)
Theorem release_with_cleaning_returns_vm (vm : vm_dict) (p : pool)
    (a : nat) (v : VMInfo) (q : list nat) :
  vm_lock p = false → threads p = [] →
  all_vms p !! d_vm_name vm = Some a →
  heap p !! a = Some v → use_count v < max_vm_uses →
  pools p !! edr_solution v = Some q →
  begin_run_command cloud (vm_name v) = inr tt →
  ∃ p1 p2,
    release_vm cloud max_vm_uses base_images azure_resource_group vm true p
    = Ok tt p1
    ∧ heap p1 !! a = Some (with_status "cleaning" v)
    ∧ pools p1 = pools p ∧ threads p1 = [a] ∧ vm_lock p1 = false
    ∧ run_thread cloud base_images azure_resource_group p1 = Ok tt p2
    ∧ heap p2 !! a = Some (with_status "available" v)
    ∧ use_count (with_status "available" v) = use_count v
    ∧ queue_of p2 (edr_solution v) = (q ++ [a])%list
    ∧ calls p2 = (calls p ++ [RunCleanup (vm_name v)])%list
    ∧ clock p2 = 10 + clock p
    ∧ threads p2 = [] ∧ vm_lock p2 = false ∧ all_vms p2 = all_vms p.
Proof.
  intros Hlock Hth Htracked Hobj Huses Hq Hrun.
  destruct p as [hp av ps lk th cs ck].
  cbn [vm_lock all_vms heap clock calls pools threads] in *. subst lk th.
  assert (Hobj1 : alter (with_status "cleaning") a hp !! a
                  = Some (with_status "cleaning" v))
    by (rewrite lookup_alter_eq, Hobj; reflexivity).
  assert (Hobj2 : alter (with_status "available")
                    a (alter (with_status "cleaning") a hp) !! a
                  = Some (with_status "available" v))
    by (rewrite lookup_alter_eq, Hobj1; reflexivity).
  unfold release_vm.
  repeat (pool_step;
          first [ rewrite Htracked | rewrite Hobj
                | rewrite (decide_False (P := max_vm_uses ≤ use_count v)) by lia ]).
  eexists _, _. split; [reflexivity|].
  cbn [vm_lock all_vms heap clock calls pools threads].
  split; [exact Hobj1|]. split; [reflexivity|]. split; [reflexivity|].
  split; [reflexivity|].
  unfold run_thread, _clean_and_return_vm, _run_cleanup_script.
  repeat (pool_step;
          first [ rewrite Hobj2 | rewrite Hobj1 | rewrite Hrun | rewrite Hq ]).
  split; [reflexivity|].
  cbn [vm_lock all_vms heap clock calls pools threads].
  split; [exact Hobj2|]. split; [reflexivity|].
  unfold queue_of. cbn [vm_lock all_vms heap clock calls pools threads].
  split; [rewrite lookup_insert_eq; reflexivity|].
  repeat split.
Qed.

(** A cleanup that fails makes the cleaning thread recycle the VM, and in
    the thread, where the lock is free, recycling works: the old VM is
    deleted at the backend and is tracked no more, a replacement is
    created under a new name, with use count 0 and state available, and
    is tracked and put at the back of the queue. *)
Theorem failed_cleanup_recycles_vm (p : pool) (a : nat) (ts : list nat)
    (v : VMInfo) (q : list nat) (image : string) (ips : string * string)
    (e : exn) (a' : nat) :
  let new_vm_name := "edr-test-" ++ edr_solution v ++ "-" ++ pretty (clock p) in
  vm_lock p = false → threads p = a :: ts → heap p !! a = Some v →
  all_vms p !! vm_name v = Some a' →
  pools p !! edr_solution v = Some q →
  begin_run_command cloud (vm_name v) = inl e →
  begin_delete cloud (vm_name v) = inr tt →
  base_images !! edr_solution v = Some image → image ≠ "" →
  begin_create_or_update cloud new_vm_name = inr ips →
  ∃ p', run_thread cloud base_images azure_resource_group p = Ok tt p'
    ∧ heap p' !! fresh (dom (heap p))
      = Some {| vm_name := new_vm_name; resource_group := azure_resource_group;
                edr_solution := edr_solution v; status := "available";
                public_ip := ips.1; private_ip := ips.2;
                created_at := clock p; last_used_at := None; use_count := 0 |}
    ∧ all_vms p'
      = <[new_vm_name := fresh (dom (heap p))]> (delete (vm_name v) (all_vms p))
    ∧ queue_of p' (edr_solution v) = (q ++ [fresh (dom (heap p))])%list
    ∧ calls p'
      = (calls p ++ [RunCleanup (vm_name v); DeleteVM (vm_name v);
                     CreateVM new_vm_name])%list
    ∧ vm_lock p' = false ∧ threads p' = ts.
Proof.
  intros new_vm_name Hlock Hth Hobj Htracked Hq Hrun Hdel Himg Hne Hcreate.
  unfold new_vm_name in *. clear new_vm_name.
  destruct p as [hp av ps lk th cs ck].
  cbn [vm_lock all_vms heap clock calls pools threads] in *. subst lk th.
  unfold run_thread, _clean_and_return_vm, _run_cleanup_script, _recycle_vm,
    _delete_vm, _provision_vm, del_tracked.
  repeat (pool_step;
          first [ rewrite Hobj | rewrite Hrun | rewrite Hdel | rewrite Himg
                | rewrite Hcreate | rewrite Htracked | rewrite Hq
                | rewrite (decide_False (P := image = "")) by exact Hne ]).
  eexists. split; [reflexivity|].
  cbn [vm_lock all_vms heap clock calls pools threads].
  split; [apply lookup_insert_eq|]. split; [reflexivity|].
  unfold queue_of. cbn [vm_lock all_vms heap clock calls pools threads].
  split; [rewrite lookup_insert_eq; reflexivity|].
  split; [rewrite <- !app_assoc; reflexivity|].
  split; reflexivity.
Qed.

(** When the cleanup fails and the backend refuses the deletion as well,
    the error is swallowed: the thread ends normally and the VM stays
    tracked, in the state it had, and in no queue it was not in. The pool
    has a VM less to hand out and nothing says so. *)
Theorem failed_recycling_loses_vm (p : pool) (a : nat) (ts : list nat)
    (v : VMInfo) (e e' : exn) :
  vm_lock p = false → threads p = a :: ts → heap p !! a = Some v →
  begin_run_command cloud (vm_name v) = inl e →
  begin_delete cloud (vm_name v) = inl e' →
  ∃ p', run_thread cloud base_images azure_resource_group p = Ok tt p'
    ∧ heap p' = heap p ∧ all_vms p' = all_vms p ∧ pools p' = pools p
    ∧ calls p' = (calls p ++ [RunCleanup (vm_name v); DeleteVM (vm_name v)])%list
    ∧ vm_lock p' = false ∧ threads p' = ts.
Proof.
  intros Hlock Hth Hobj Hrun Hdel.
  destruct p as [hp av ps lk th cs ck].
  cbn [vm_lock all_vms heap clock calls pools threads] in *. subst lk th.
  unfold run_thread, _clean_and_return_vm, _run_cleanup_script, _recycle_vm,
    _delete_vm.
  repeat (pool_step; first [ rewrite Hobj | rewrite Hrun | rewrite Hdel ]).
  eexists. split; [reflexivity|].
  cbn [vm_lock all_vms heap clock calls pools threads].
  split; [reflexivity|]. split; [reflexivity|]. split; [reflexivity|].
  split; [rewrite <- !app_assoc; reflexivity|].
  split; reflexivity.
Qed.

(** One turn of the provisioning loop never raises and never blocks when
    the lock is free, and puts at most one VM into the queue. *)
Lemma provision_one_ok (edr : string) (i : Z) (p : pool) :
  vm_lock p = false →
  ∃ p', provision_one cloud base_images azure_resource_group edr i p = Ok tt p'
    ∧ vm_lock p' = false
    ∧ (length (queue_of p' edr) ≤ Datatypes.S (length (queue_of p edr)))%nat.
Proof.
  intros Hlock. destruct p as [hp av ps lk th cs ck].
  cbn [vm_lock] in Hlock. subst lk.
  unfold provision_one, _provision_vm, queue_of.
  destruct (base_images !! edr) as [image|] eqn:Himg.
  - destruct (decide (image = "")) as [Hempty|Hne].
    + repeat (pool_step;
              first [ rewrite Himg
                    | rewrite (decide_True (P := image = "")) by exact Hempty ]).
      eexists. split; [reflexivity|]. split; [reflexivity|].
      cbn [pools]. lia.
    + destruct (begin_create_or_update cloud
                  ("edr-test-" ++ edr ++ "-" ++ pad2 i ++ "-" ++ pretty ck))
        as [e|ips] eqn:Hcreate.
      * repeat (pool_step;
                first [ rewrite Himg | rewrite Hcreate
                      | rewrite (decide_False (P := image = "")) by exact Hne ]).
        eexists. split; [reflexivity|]. split; [reflexivity|].
        cbn [pools]. lia.
      * destruct (ps !! edr) as [q|] eqn:Hq.
        -- repeat (pool_step;
                   first [ rewrite Himg | rewrite Hcreate | rewrite Hq
                         | rewrite (decide_False (P := image = "")) by exact Hne ]).
           eexists. split; [reflexivity|]. split; [reflexivity|].
           cbn [pools]. rewrite lookup_insert_eq. cbn.
           rewrite length_app. cbn [length]. lia.
        -- repeat (pool_step;
                   first [ rewrite Himg | rewrite Hcreate | rewrite Hq
                         | rewrite (decide_False (P := image = "")) by exact Hne ]).
           eexists. split; [reflexivity|]. split; [reflexivity|].
           cbn [pools]. rewrite Hq. cbn. lia.
  - repeat (pool_step; first [ rewrite Himg ]).
    eexists. split; [reflexivity|]. split; [reflexivity|]. cbn [pools]. lia.
Qed.

(** A turn of the loop on a backend that creates every VM, for an EDR
    solution that has an image and a queue: one VM more at the back of the
    queue. *)
Lemma provision_one_success (edr image : string) (i : Z) (p : pool) (q : list nat) :
  vm_lock p = false → base_images !! edr = Some image → image ≠ "" →
  (∀ name, ∃ ips, begin_create_or_update cloud name = inr ips) →
  pools p !! edr = Some q →
  ∃ p', provision_one cloud base_images azure_resource_group edr i p = Ok tt p'
    ∧ vm_lock p' = false
    ∧ pools p' !! edr = Some (q ++ [fresh (dom (heap p))])%list.
Proof.
  intros Hlock Himg Hne Hcloud Hq. destruct p as [hp av ps lk th cs ck].
  cbn [vm_lock all_vms heap clock calls pools threads] in *. subst lk.
  destruct (Hcloud ("edr-test-" ++ edr ++ "-" ++ pad2 i ++ "-" ++ pretty ck))
    as [ips Hcreate].
  unfold provision_one, _provision_vm.
  repeat (pool_step;
          first [ rewrite Himg | rewrite Hcreate | rewrite Hq
                | rewrite (decide_False (P := image = "")) by exact Hne ]).
  eexists. split; [reflexivity|]. split; [reflexivity|].
  cbn [pools]. apply lookup_insert_eq.
Qed.

Lemma provision_turns (edr : string) (l : list Z) :
  ∀ p, vm_lock p = false →
  ∃ p', for_each l (provision_one cloud base_images azure_resource_group edr) p
        = Ok tt p'
    ∧ vm_lock p' = false
    ∧ (length (queue_of p' edr) ≤ length (queue_of p edr) + length l)%nat
    ∧ (∀ image q,
         base_images !! edr = Some image → image ≠ "" →
         (∀ name, ∃ ips, begin_create_or_update cloud name = inr ips) →
         pools p !! edr = Some q →
         length (queue_of p' edr) = (length q + length l)%nat).
Proof.
  induction l as [|i l IH]; intros p Hlock.
  - exists p. split; [reflexivity|]. split; [exact Hlock|].
    split; [cbn; lia|]. intros image q _ _ _ Hq. unfold queue_of.
    rewrite Hq. cbn. lia.
  - destruct (provision_one_ok edr i p Hlock) as (p1 & Hone & Hlock1 & Hlen1).
    destruct (IH p1 Hlock1) as (p' & Hrest & Hlock' & Hlen' & Hexact).
    exists p'. cbn [for_each]. unfold bind. rewrite Hone.
    split; [exact Hrest|]. split; [exact Hlock'|].
    split; [cbn [length]; lia|].
    intros image q Himg Hne Hcloud Hq.
    destruct (provision_one_success edr image i p q Hlock Himg Hne Hcloud Hq)
      as (p1' & Hone' & _ & Hq1).
    assert (p1' = p1) as -> by congruence.
    rewrite (Hexact image _ Himg Hne Hcloud Hq1).
    rewrite length_app. cbn [length]. lia.
Qed.

(** [_provision_pool] swallows every failure: with the lock free it
    returns normally whatever the backend answers, leaving between none
    and [pool_size] VMs more in the queue; it leaves exactly [pool_size]
    more when the EDR solution has an image and a queue and the backend
    creates every VM. *)
Theorem provision_pool_never_raises (edr : string) (pool_size : nat) (p : pool) :
  vm_lock p = false →
  ∃ p', _provision_pool cloud base_images azure_resource_group edr pool_size p
        = Ok tt p'
    ∧ vm_lock p' = false
    ∧ (length (queue_of p' edr) ≤ length (queue_of p edr) + pool_size)%nat
    ∧ (∀ image q,
         base_images !! edr = Some image → image ≠ "" →
         (∀ name, ∃ ips, begin_create_or_update cloud name = inr ips) →
         pools p !! edr = Some q →
         length (queue_of p' edr) = (length q + pool_size)%nat).
Proof.
  intros Hlock. unfold _provision_pool.
  destruct (provision_turns edr (Z.of_nat <$> seq 0 pool_size) p Hlock)
    as (p' & Hrun & Hlock' & Hlen & Hexact).
  rewrite length_fmap, length_seq in Hlen.
  exists p'. split; [exact Hrun|]. split; [exact Hlock'|]. split; [exact Hlen|].
  intros image q Himg Hne Hcloud Hq.
  rewrite (Hexact image q Himg Hne Hcloud Hq), length_fmap, length_seq.
  reflexivity.
Qed.

End vm_pool_paths.

Lemma acquire_vm_takes_front_witness :
  ∃ p', VMPool.acquire_vm "sophos" 3600 Scenario7.provisioned
        = Ok (as_dict Scenario11.info) p'
    ∧ queue_of p' "sophos" = []
    ∧ VMPool.heap p' !! 0%nat
      = Some (VMPool.mark_in_use (VMPool.clock Scenario7.provisioned) Scenario11.info)
    ∧ VMPool.use_count
        (VMPool.mark_in_use (VMPool.clock Scenario7.provisioned) Scenario11.info)
      = VMPool.use_count Scenario11.info + 1
    ∧ (∀ b, b ≠ 0%nat → VMPool.heap p' !! b = VMPool.heap Scenario7.provisioned !! b)
    ∧ (∀ e, e ≠ "sophos" →
         VMPool.pools p' !! e = VMPool.pools Scenario7.provisioned !! e)
    ∧ VMPool.all_vms p' = VMPool.all_vms Scenario7.provisioned
    ∧ VMPool.vm_lock p' = false
    ∧ VMPool.threads p' = VMPool.threads Scenario7.provisioned
    ∧ VMPool.calls p' = VMPool.calls Scenario7.provisioned
    ∧ VMPool.clock p' = VMPool.clock Scenario7.provisioned.
Proof.
  apply (acquire_vm_takes_front "sophos" 3600 Scenario7.provisioned 0%nat []
           Scenario11.info); vm_compute; reflexivity.
Defined.

Lemma release_without_cleaning_requeues_witness :
  ∃ p', VMPool.release_vm Scenario7.cloud 20 Scenario7.base_images "rg-edr"
          Scenario11.vm false Scenario11.held = Ok tt p'
    ∧ queue_of p' (VMPool.d_edr_solution Scenario11.vm) = ([] ++ [0%nat])%list
    ∧ VMPool.heap p' !! 0%nat
      = Some (VMPool.with_status "available" Scenario11.in_use)
    ∧ VMPool.vm_lock p' = false
    ∧ VMPool.all_vms p' = VMPool.all_vms Scenario11.held
    ∧ VMPool.threads p' = VMPool.threads Scenario11.held
    ∧ VMPool.calls p' = VMPool.calls Scenario11.held.
Proof.
  apply (release_without_cleaning_requeues Scenario7.cloud 20 Scenario7.base_images
           "rg-edr" Scenario11.vm Scenario11.held 0%nat Scenario11.in_use []);
    vm_compute; reflexivity.
Defined.

Lemma release_with_cleaning_returns_vm_witness :
  ∃ p1 p2,
    VMPool.release_vm Scenario7.cloud 20 Scenario7.base_images "rg-edr"
      Scenario11.vm true Scenario11.held = Ok tt p1
    ∧ VMPool.heap p1 !! 0%nat
      = Some (VMPool.with_status "cleaning" Scenario11.in_use)
    ∧ VMPool.pools p1 = VMPool.pools Scenario11.held
    ∧ VMPool.threads p1 = [0%nat] ∧ VMPool.vm_lock p1 = false
    ∧ VMPool.run_thread Scenario7.cloud Scenario7.base_images "rg-edr" p1 = Ok tt p2
    ∧ VMPool.heap p2 !! 0%nat
      = Some (VMPool.with_status "available" Scenario11.in_use)
    ∧ VMPool.use_count (VMPool.with_status "available" Scenario11.in_use)
      = VMPool.use_count Scenario11.in_use
    ∧ queue_of p2 (VMPool.edr_solution Scenario11.in_use) = ([] ++ [0%nat])%list
    ∧ VMPool.calls p2
      = (VMPool.calls Scenario11.held
         ++ [VMPool.RunCleanup (VMPool.vm_name Scenario11.in_use)])%list
    ∧ VMPool.clock p2 = 10 + VMPool.clock Scenario11.held
    ∧ VMPool.threads p2 = [] ∧ VMPool.vm_lock p2 = false
    ∧ VMPool.all_vms p2 = VMPool.all_vms Scenario11.held.
Proof.
  apply (release_with_cleaning_returns_vm Scenario7.cloud 20 Scenario7.base_images
           "rg-edr" Scenario11.vm Scenario11.held 0%nat Scenario11.in_use []);
    vm_compute; reflexivity.
Defined.

Lemma failed_cleanup_recycles_vm_witness :
  ∃ p', VMPool.run_thread Scenario11.no_cleanup Scenario7.base_images "rg-edr"
          Scenario11.cleaning = Ok tt p'
    ∧ VMPool.heap p' !! fresh (dom (VMPool.heap Scenario11.cleaning))
      = Some {| VMPool.vm_name := "edr-test-sophos-1000";
                VMPool.resource_group := "rg-edr";
                VMPool.edr_solution := "sophos";
                VMPool.status := "available";
                VMPool.public_ip := "20.0.0.2";
                VMPool.private_ip := "10.0.0.2";
                VMPool.created_at := 1000;
                VMPool.last_used_at := None;
                VMPool.use_count := 0 |}
    ∧ VMPool.all_vms p'
      = <["edr-test-sophos-1000" := fresh (dom (VMPool.heap Scenario11.cleaning))]>
          (delete "edr-test-sophos-00-1000" (VMPool.all_vms Scenario11.cleaning))
    ∧ queue_of p' "sophos"
      = ([] ++ [fresh (dom (VMPool.heap Scenario11.cleaning))])%list
    ∧ VMPool.calls p'
      = (VMPool.calls Scenario11.cleaning
         ++ [VMPool.RunCleanup "edr-test-sophos-00-1000";
             VMPool.DeleteVM "edr-test-sophos-00-1000";
             VMPool.CreateVM "edr-test-sophos-1000"])%list
    ∧ VMPool.vm_lock p' = false ∧ VMPool.threads p' = [].
Proof.
  apply (failed_cleanup_recycles_vm Scenario11.no_cleanup Scenario7.base_images
           "rg-edr" Scenario11.cleaning 0%nat [] Scenario11.being_cleaned []
           "/images/sophos-base" ("20.0.0.2", "10.0.0.2")
           (BackendError "RunCommandFailed") 0%nat);
    first [discriminate | vm_compute; reflexivity].
Defined.

Lemma failed_recycling_loses_vm_witness :
  ∃ p', VMPool.run_thread Scenario11.no_cleanup_no_delete Scenario7.base_images
          "rg-edr" Scenario11.cleaning = Ok tt p'
    ∧ VMPool.heap p' = VMPool.heap Scenario11.cleaning
    ∧ VMPool.all_vms p' = VMPool.all_vms Scenario11.cleaning
    ∧ VMPool.pools p' = VMPool.pools Scenario11.cleaning
    ∧ VMPool.calls p'
      = (VMPool.calls Scenario11.cleaning
         ++ [VMPool.RunCleanup (VMPool.vm_name Scenario11.being_cleaned);
             VMPool.DeleteVM (VMPool.vm_name Scenario11.being_cleaned)])%list
    ∧ VMPool.vm_lock p' = false ∧ VMPool.threads p' = [].
Proof.
  apply (failed_recycling_loses_vm Scenario11.no_cleanup_no_delete
           Scenario7.base_images "rg-edr" Scenario11.cleaning 0%nat []
           Scenario11.being_cleaned (BackendError "RunCommandFailed")
           (BackendError "DeleteFailed"));
    vm_compute; reflexivity.
Defined.

(** The VM whose cleanup and deletion both failed is tracked, in state
    cleaning, and in no queue: the next acquisition times out. *)
Example lost_vm_is_never_handed_out :
  ∃ p', VMPool.run_thread Scenario11.no_cleanup_no_delete Scenario7.base_images
          "rg-edr" Scenario11.cleaning = Ok tt p'
    ∧ VMPool.all_vms p' !! "edr-test-sophos-00-1000" = Some 0%nat
    ∧ VMPool.status <$> VMPool.heap p' !! 0%nat = Some "cleaning"
    ∧ queue_of p' "sophos" = []
    ∧ ∃ p'', VMPool.acquire_vm "sophos" 3600 p' = Raise TimeoutError p''.
Proof.
  eexists. split; [vm_compute; reflexivity|].
  split; [vm_compute; reflexivity|]. split; [vm_compute; reflexivity|].
  split; [vm_compute; reflexivity|]. eexists. vm_compute. reflexivity.
Qed.

Lemma provision_pool_never_raises_witness :
  ∃ p', VMPool._provision_pool Scenario7.cloud Scenario7.base_images "rg-edr"
          "sophos" 5 (VMPool.init_pool 1000) = Ok tt p'
    ∧ VMPool.vm_lock p' = false
    ∧ (length (queue_of p' "sophos")
       ≤ length (queue_of (VMPool.init_pool 1000) "sophos") + 5)%nat
    ∧ (∀ image q,
         Scenario7.base_images !! "sophos" = Some image → image ≠ "" →
         (∀ name, ∃ ips,
            VMPool.begin_create_or_update Scenario7.cloud name = inr ips) →
         VMPool.pools (VMPool.init_pool 1000) !! "sophos" = Some q →
         length (queue_of p' "sophos") = (length q + 5)%nat).
Proof.
  apply (provision_pool_never_raises Scenario7.cloud Scenario7.base_images
           "rg-edr" "sophos" 5 (VMPool.init_pool 1000)).
  reflexivity.
Defined.

(** ** Dicts: what an update leaves alone *)

Lemma dict_get_update_other (u d : list (string * json)) (k : string) :
  Forall (λ kv, kv.1 ≠ k) u → dict_get (dict_update d u) k = dict_get d k.
Proof.
  unfold dict_update. intros Hu. revert d.
  induction Hu as [|[k' v'] u Hk Hu IH]; intros d; [reflexivity|].
  cbn [foldl fst snd]. rewrite IH. apply dict_get_set_ne. exact Hk.
Qed.

Lemma ret_inv {S A} (a b : A) (s s' : S) : ret a s = Ok b s' → b = a ∧ s' = s.
Proof. unfold ret. intros Heq. split; congruence. Qed.

Ltac str_ne := apply String.eqb_neq; vm_compute; reflexivity.

Ltac status_of_update :=
  unfold dict_update; cbn [foldl fst snd];
  repeat lazymatch goal with
         | |- dict_get (dict_set ?k _ _) ?k = _ => apply dict_get_set_eq
         | |- dict_get (dict_set ?k _ _) ?k0 = _ =>
             rewrite (dict_get_set_ne _ k k0) by str_ne
         end.

(** ** Phase 1: the status of a unit and the failed counter *)

Section cdr_unit.
Context `{JsonCodec}.
Variable env : Phase1.adapters.
Import JobManager.

Lemma sanitize_unit_status (t : Phase1.task) (result : list (string * json))
    (ended : Z) (r r' : redis) (res : list (string * json)) :
  Phase1.sanitize_unit env t result ended r = Ok res r' →
  dict_get res "status" = Some (JStr "success")
  ∨ dict_get res "status" = Some (JStr "failed").
Proof.
  intros Hs. unfold Phase1.sanitize_unit in Hs.
  apply bind_inv in Hs as (local & r1 & _ & Hs).
  apply bind_inv in Hs as ([] & r2 & _ & Hs).
  apply bind_inv in Hs as (cdr_result & r3 & _ & Hs).
  destruct (Phase1.success cdr_result).
  - apply bind_inv in Hs as ([] & r4 & _ & Hs).
    apply ret_inv in Hs as [-> _]. left. status_of_update.
  - apply ret_inv in Hs as [-> _]. right. status_of_update.
Qed.

(** A CDR unit always settles with a result, one record more in the
    Phase-1 list and one more processed; its status is success, failed
    (the engine reported that it could not sanitize) or error (something
    raised), and [failed_files] goes up for error only: a unit of status
    failed is counted as processed and not as failed. *)
Theorem cdr_unit_statuses (r : redis) (t : Phase1.task) (started ended : Z)
    (total processed failed : Z) (n : nat) :
  counting r (Phase1.job_id t) total processed failed n →
  ∃ res r' failed',
    Phase1.process_single_file_cdr env t started ended r = Ok (JDict res) r'
    ∧ counting r' (Phase1.job_id t) total (processed + 1) failed' (Datatypes.S n)
    ∧ ((dict_get res "status" = Some (JStr "success") ∧ failed' = failed)
       ∨ (dict_get res "status" = Some (JStr "failed") ∧ failed' = failed)
       ∨ (dict_get res "status" = Some (JStr "error") ∧ failed' = failed + 1)).
Proof.
  intros Hc. unfold Phase1.process_single_file_cdr, bind, attempt.
  set (result0 := [_; _; _; _; _]).
  destruct (Phase1.sanitize_unit env t result0 ended r) as [res r0|e r0|r0] eqn:Hsan.
  - pose proof (reads_only_ok _ _ _ _ (reads_only_sanitize_unit env t result0 ended)
                  Hsan) as ->.
    unfold try_except, bind.
    destruct (counting_add_file_result r _ _ _ _ _ (JDict res) Hc) as (r1 & -> & Hc1).
    destruct (counting_increment_processed r1 _ _ _ _ _ Hc1) as (r2 & -> & Hc2).
    exists res, r2, failed. split; [reflexivity|]. split; [exact Hc2|].
    destruct (sanitize_unit_status t result0 ended r r res Hsan) as [Hst|Hst];
      [left|right; left]; split; [exact Hst|reflexivity|exact Hst|reflexivity].
  - assert (r0 = r) as ->.
    { destruct (reads_only_sanitize_unit env t result0 ended r)
        as [[a Ha]|[e' He']]; congruence. }
    unfold Phase1.unit_failed, bind.
    match goal with
    | |- context [add_file_result _ _ ?j r] =>
        destruct (counting_add_file_result r _ _ _ _ _ j Hc) as (r1 & -> & Hc1)
    end.
    destruct (counting_increment_failed r1 _ _ _ _ _ Hc1) as (r2 & -> & Hc2).
    eexists _, r2, (failed + 1). split; [reflexivity|]. split; [exact Hc2|].
    right. right. split; [|reflexivity]. status_of_update.
  - exfalso. destruct (reads_only_sanitize_unit env t result0 ended r)
      as [[a Ha]|[e' He']]; congruence.
Qed.

End cdr_unit.

(** ** Phase 2: a unit *)

Section av_unit.
Context `{JsonCodec}.
Variable env : Phase2Unit.adapters.
Import JobManager.

Lemma reads_only_scan_unit (container_name : pyval) (file_path : json)
    (av : string) (result : list (string * json)) (ended : Z) :
  reads_only (Phase2Unit.scan_unit env container_name file_path av result ended).
Proof.
  unfold Phase2Unit.scan_unit.
  apply reads_only_bind; [apply reads_only_call|]. intros local.
  apply reads_only_bind.
  { destruct (bool_decide _); [apply reads_only_ret|apply reads_only_raise]. }
  intros _. apply reads_only_bind; [apply reads_only_call|]. intros sr.
  apply reads_only_ret.
Qed.

Lemma scan_unit_status (container_name : pyval) (file_path : json)
    (av : string) (result : list (string * json)) (ended : Z) (r r' : redis)
    (res : list (string * json)) :
  Phase2Unit.scan_unit env container_name file_path av result ended r = Ok res r' →
  dict_get res "status" = Some (JStr "success").
Proof.
  intros Hs. unfold Phase2Unit.scan_unit in Hs.
  apply bind_inv in Hs as (local & r1 & _ & Hs).
  apply bind_inv in Hs as ([] & r2 & _ & Hs).
  apply bind_inv in Hs as (sr & r3 & _ & Hs).
  apply ret_inv in Hs as [-> _]. status_of_update.
Qed.

(** What an AV unit does, on a Phase-2 list that takes records. *)
Lemma scan_single_file_av_appends (r : redis) (job_id : string)
    (container_name : pyval) (d : list (string * json))
    (file_path version : json) (av : string) (started ended : Z) :
  dict_get d "file_path" = Some file_path → dict_get d "version" = Some version →
  appendable r job_id "phase2" →
  ∃ res r',
    Phase2Unit.scan_single_file_av env job_id container_name (JDict d) av
      started ended r = Ok (JDict res) r'
    ∧ phase_list r' job_id "phase2"
      = (phase_list r job_id "phase2" ++ [json_dumps (JDict res)])%list
    ∧ (dict_get res "status" = Some (JStr "success")
       ∨ dict_get res "status" = Some (JStr "error"))
    ∧ (∀ k, k ≠ phase_key job_id "phase2" → data r' !! k = data r !! k)
    ∧ ttl r' = ttl r.
Proof.
  intros Hfp Hver Happ.
  unfold Phase2Unit.scan_single_file_av, bind at 1 2 3 4, Phase3.jitem.
  rewrite Hfp, Hver. unfold jget, jget_default, ret at 1 2 3 4.
  set (result0 := [_; _; _; _; _; _; _; _]).
  unfold bind, attempt.
  destruct (reads_only_scan_unit container_name file_path av result0 ended r)
    as [[res Hres]|[e He]].
  - rewrite Hres. unfold try_except, bind.
    destruct (add_file_result_list r job_id "phase2" (JDict res) Happ)
      as (r' & -> & Hd & Ht).
    exists res, r'. split; [reflexivity|]. split.
    { unfold phase_list at 1. rewrite Hd, lookup_insert_eq. reflexivity. }
    split; [left; exact (scan_unit_status _ _ _ _ _ _ _ _ Hres)|].
    split; [|exact Ht].
    intros k Hk. rewrite Hd. apply lookup_insert_ne. congruence.
  - rewrite He. unfold Phase2Unit.unit_failed, bind.
    match goal with
    | |- context [add_file_result _ _ ?j r] =>
        destruct (add_file_result_list r job_id "phase2" j Happ)
          as (r' & -> & Hd & Ht)
    end.
    eexists _, r'. split; [reflexivity|]. split.
    { unfold phase_list at 1. rewrite Hd, lookup_insert_eq. reflexivity. }
    split; [right; status_of_update|].
    split; [|exact Ht].
    intros k Hk. rewrite Hd. apply lookup_insert_ne. congruence.
Qed.

(** An AV unit whose file entry has a path and a version, on a Phase-2
    list that takes records: the unit never raises; it returns a result of
    status success or error (whatever the download or the engine raised)
    and has put exactly that result at the end of the Phase-2 list. It
    writes nowhere else: the counters of the job do not move in Phase 2. *)
Theorem av_unit_settles (r : redis) (job_id : string) (container_name : pyval)
    (d : list (string * json)) (file_path version : json) (av : string)
    (started ended : Z) :
  dict_get d "file_path" = Some file_path → dict_get d "version" = Some version →
  appendable r job_id "phase2" →
  ∃ res r',
    Phase2Unit.scan_single_file_av env job_id container_name (JDict d) av
      started ended r = Ok (JDict res) r'
    ∧ phase_list r' job_id "phase2"
      = (phase_list r job_id "phase2" ++ [json_dumps (JDict res)])%list
    ∧ (dict_get res "status" = Some (JStr "success")
       ∨ dict_get res "status" = Some (JStr "error"))
    ∧ (∀ k, k ≠ phase_key job_id "phase2" → data r' !! k = data r !! k)
    ∧ ttl r' = ttl r.
Proof.
  intros Hfp Hver Happ.
  exact (scan_single_file_av_appends r job_id container_name d file_path version
           av started ended Hfp Hver Happ).
Qed.

End av_unit.

(** ** The name of a file on the VM *)

Lemma string_app_assoc (a b c : string) : (a ++ b) ++ c = a ++ (b ++ c).
Proof.
  induction a as [|x a IH]; [reflexivity|].
  change ((String x a ++ b) ++ c) with (String x ((a ++ b) ++ c)).
  change (String x a ++ b ++ c) with (String x (a ++ b ++ c)).
  f_equal. exact IH.
Qed.

Lemma string_app_empty (a : string) : a ++ "" = a.
Proof.
  induction a as [|x a IH]; [reflexivity|].
  change (String x a ++ "") with (String x (a ++ "")). f_equal. exact IH.
Qed.

Lemma basename_from_component (name acc : string) :
  no_slash name = true → Phase3.basename_from acc name = acc ++ name.
Proof.
  revert acc. induction name as [|c name IH]; intros acc Hn.
  - cbn [Phase3.basename_from]. symmetry. apply string_app_empty.
  - cbn [no_slash] in Hn. cbn [Phase3.basename_from].
    destruct (decide (c = Ascii.ascii_of_nat 47)); [discriminate|].
    rewrite IH by exact Hn. apply string_app_assoc.
Qed.

Lemma basename_from_directory (dir rest acc : string) :
  Phase3.basename_from acc (dir ++ String (Ascii.ascii_of_nat 47) rest)
  = Phase3.basename_from "" rest.
Proof.
  revert acc. induction dir as [|c dir IH]; intros acc.
  - change ("" ++ String (Ascii.ascii_of_nat 47) rest)
      with (String (Ascii.ascii_of_nat 47) rest).
    cbn [Phase3.basename_from]. rewrite decide_True by reflexivity. reflexivity.
  - change (String c dir ++ String (Ascii.ascii_of_nat 47) rest)
      with (String c (dir ++ String (Ascii.ascii_of_nat 47) rest)).
    cbn [Phase3.basename_from]. destruct (decide _); apply IH.
Qed.

(** [copy_file_to_vm] keeps the last component of the local path only:
    the remote path is [C:\test-files\] followed by that name, whatever
    the directory, so two files of the same name in different directories
    get the same path on the VM. *)
Theorem copy_file_to_vm_keeps_name (v : VMPool.vm_dict) (dir dir' name : string) :
  no_slash name = true →
  Phase3.copy_file_to_vm v (dir ++ String (Ascii.ascii_of_nat 47) name)
  = "C:\test-files\" ++ name
  ∧ Phase3.copy_file_to_vm v name = "C:\test-files\" ++ name
  ∧ Phase3.copy_file_to_vm v (dir ++ String (Ascii.ascii_of_nat 47) name)
    = Phase3.copy_file_to_vm v (dir' ++ String (Ascii.ascii_of_nat 47) name).
Proof.
  intros Hn. unfold Phase3.copy_file_to_vm.
  rewrite !basename_from_directory, (basename_from_component name "" Hn).
  repeat split; reflexivity.
Qed.

Lemma cdr_unit_statuses_witness :
  ∃ res r' failed',
    @Phase1.process_single_file_cdr RefJson.codec Scenario12.refusing
      Scenario12.unit 100 110 Scenario.fresh_job = Ok (JDict res) r'
    ∧ @counting RefJson.codec r' (Phase1.job_id Scenario12.unit) 0 (0 + 1) failed' 1
    ∧ ((dict_get res "status" = Some (JStr "success") ∧ failed' = 0)
       ∨ (dict_get res "status" = Some (JStr "failed") ∧ failed' = 0)
       ∨ (dict_get res "status" = Some (JStr "error") ∧ failed' = 0 + 1)).
Proof.
  exact (cdr_unit_statuses (H := RefJson.codec) Scenario12.refusing
           Scenario.fresh_job Scenario12.unit 100 110 0 0 0 0 fresh_job_counting).
Defined.

(** A file that the engine could not sanitize: the unit has status
    failed, and the job counts it as processed, not as failed. *)
Example refused_file_is_not_counted_failed :
  ∃ res r',
    @Phase1.process_single_file_cdr RefJson.codec Scenario12.refusing
      Scenario12.unit 100 110 Scenario.fresh_job = Ok (JDict res) r'
    ∧ dict_get res "status" = Some (JStr "failed")
    ∧ counter r' "j1" "processed_files" = 1
    ∧ counter r' "j1" "failed_files" = 0.
Proof.
  eexists _, _. split; [vm_compute; reflexivity|].
  repeat split; vm_compute; reflexivity.
Qed.

Lemma av_unit_settles_witness :
  ∃ res r',
    @Phase2Unit.scan_single_file_av RefJson.codec Scenario12.scanner "j1"
      (PStr "test-files") (JDict Scenario12.pre_cdr_file) "opswat" 200 210
      Scenario.fresh_job = Ok (JDict res) r'
    ∧ phase_list r' "j1" "phase2"
      = (phase_list Scenario.fresh_job "j1" "phase2"
         ++ [@json_dumps RefJson.codec (JDict res)])%list
    ∧ (dict_get res "status" = Some (JStr "success")
       ∨ dict_get res "status" = Some (JStr "error"))
    ∧ (∀ k, k ≠ JobManager.phase_key "j1" "phase2" →
         data r' !! k = data Scenario.fresh_job !! k)
    ∧ ttl r' = ttl Scenario.fresh_job.
Proof.
  apply (av_unit_settles (H := RefJson.codec) Scenario12.scanner
           Scenario.fresh_job "j1" (PStr "test-files") Scenario12.pre_cdr_file
           (JStr "a.pdf") (JStr "pre-cdr") "opswat" 200 210).
  - reflexivity.
  - reflexivity.
  - intros h Hh.
    assert (Hnone : data Scenario.fresh_job !! JobManager.phase_key "j1" "phase2"
                    = None) by (vm_compute; reflexivity).
    rewrite Hnone in Hh. discriminate Hh.
Defined.

Lemma copy_file_to_vm_keeps_name_witness :
  Phase3.copy_file_to_vm Scenario7.stranger
    ("/tmp/job1" ++ String (Ascii.ascii_of_nat 47) "invoice.pdf")
  = "C:\test-files\" ++ "invoice.pdf"
  ∧ Phase3.copy_file_to_vm Scenario7.stranger "invoice.pdf"
    = "C:\test-files\" ++ "invoice.pdf"
  ∧ Phase3.copy_file_to_vm Scenario7.stranger
      ("/tmp/job1" ++ String (Ascii.ascii_of_nat 47) "invoice.pdf")
    = Phase3.copy_file_to_vm Scenario7.stranger
        ("/tmp/job2" ++ String (Ascii.ascii_of_nat 47) "invoice.pdf").
Proof.
  apply (copy_file_to_vm_keeps_name Scenario7.stranger "/tmp/job1" "/tmp/job2"
           "invoice.pdf").
  reflexivity.
Defined.

(** ** Phase 3: how a unit can end *)

Section edr_unit_outcomes.
Context `{JsonCodec}.
Variable env : Phase3.adapters.
Variable cloud : VMPool.azure.
Variable max_vm_uses : Z.
Variable base_images : gmap string string.
Variable azure_resource_group : string.
Import JobManager Phase3.

(** A Phase-3 unit on a Phase-3 list that takes records ends in one of
    three ways when its file entry has a path and a version: it returns
    its result, and then the retries are used up; it asks for a retry in 60
    seconds, and then they are not; or it blocks in the release of its VM.
    It raises nothing else: whatever raised in the [try] block is recorded
    and retried. A file entry without a path or a version raises
    [KeyError] before anything is written or acquired. *)
Theorem edr_unit_outcomes (retries : Z) (job_id : string) (container_name : pyval)
    (d : list (string * json)) (edr : string) (f : frame) :
  appendable (store f) job_id "phase3" →
  match dict_get d "file_path", dict_get d "version" with
  | Some _, Some _ =>
      match test_single_file_edr env cloud max_vm_uses base_images
              azure_resource_group retries job_id container_name (JDict d) edr f
      with
      | Ok _ _ => max_retries ≤ retries
      | Raise e _ => e = Retry 60 ∧ retries < max_retries
      | Hang _ => True
      end
  | None, _ =>
      test_single_file_edr env cloud max_vm_uses base_images
        azure_resource_group retries job_id container_name (JDict d) edr f
      = Raise (KeyError "file_path") f
  | Some _, None =>
      test_single_file_edr env cloud max_vm_uses base_images
        azure_resource_group retries job_id container_name (JDict d) edr f
      = Raise (KeyError "version") f
  end.
Proof.
  intros Hl. unfold test_single_file_edr, bind at 1 2 3 4 5 6. cbn [jitem].
  destruct (dict_get d "file_path") as [file_path|]; [|reflexivity].
  destruct (dict_get d "version") as [version|]; [|reflexivity].
  unfold jget, jget_default, now, on_pool, VMPool.now, put_locals, modify, ret.
  cbn [store vms queries result vm].
  match goal with
  | |- context [try_finally _ _ ?f0] =>
      pose proof (guarded_attempt env cloud max_vm_uses base_images
                    azure_resource_group retries job_id container_name file_path
                    edr f0 Hl) as Hg;
      destruct (try_finally
                  (try_except (try_block env job_id container_name file_path edr)
                              (except_block job_id retries))
                  (finally_block cloud max_vm_uses base_images
                     azure_resource_group) f0) as [res f'|e f'|f']
  end.
  - destruct Hg as (Hge & _). lia.
  - destruct Hg as (-> & Hlt & _). split; [reflexivity|exact Hlt].
  - exact I.
Qed.

End edr_unit_outcomes.

Lemma edr_unit_outcomes_witness :
  match @Phase3.test_single_file_edr RefJson.codec Scenario8.no_blob Scenario7.cloud
          Scenario8.max_vm_uses Scenario7.base_images "rg-edr" 0 "j1"
          (PStr "test-files") Scenario8.file_info "sophos" Scenario8.start
  with
  | Ok _ _ => Phase3.max_retries ≤ 0
  | Raise e _ => e = Retry 60 ∧ 0 < Phase3.max_retries
  | Hang _ => True
  end.
Proof.
  exact (edr_unit_outcomes (H := RefJson.codec) Scenario8.no_blob Scenario7.cloud
           Scenario8.max_vm_uses Scenario7.base_images "rg-edr" 0 "j1"
           (PStr "test-files")
           [("file_path", JStr "a.pdf"); ("version", JStr "pre-cdr");
            ("cdr_engine", JNull); ("original_file", JStr "a.pdf")]
           "sophos" Scenario8.start fresh_job_appendable).
Defined.

(** The first attempt of the unit whose download fails asks for a retry. *)
Example first_attempt_asks_for_retry :
  ∃ f', @Phase3.test_single_file_edr RefJson.codec Scenario8.no_blob Scenario7.cloud
          Scenario8.max_vm_uses Scenario7.base_images "rg-edr" 0 "j1"
          (PStr "test-files") Scenario8.file_info "sophos" Scenario8.start
        = Raise (Retry 60) f'.
Proof. eexists. vm_compute. reflexivity. Qed.

(** ** The batch tasks *)

Section batches.
Context `{JsonCodec}.
Variable env : Phase1.adapters.
Variable set_order : list json → list json.
Import JobManager.

(** When [test_edr_batch] dispatches, its units are the planned files
    crossed with the three EDR solutions. The planned files are, in the
    order in which the set of originals comes out, one pre-CDR entry for
    each distinct original file with a successful Phase-1 result and one
    post-CDR entry for each successful Phase-1 result: with [U] originals
    and [S] successful results, [(U + S) * 3] units, each for the job, its
    container and one of the EDR clients. *)
Theorem test_edr_batch_units (r r' : redis) (job_id : string) (now : Z)
    (tasks : list Phase3Batch.task) :
  (∀ l, set_order l ≡ₚ l) →
  Phase3Batch.test_edr_batch set_order job_id now r = Ok tasks r' →
  ∃ results originals files container_name,
    get_phase_results job_id "phase1" r = Ok results r
    ∧ NoDup (key_of <$> originals)
    ∧ length originals = U_count results
    ∧ (∀ f, f ∈ originals →
         ∃ res, res ∈ results ∧ is_success res = true
                ∧ field res "file_path" = f)
    ∧ files ≡ₚ ((pre_of <$> originals)
                ++ ((λ res, post_of (original_of originals res) res)
                      <$> successes results))%list
    ∧ tasks = (file_info ← files;
               edr_solution_name ← Phase3.edr_clients;
               [Phase3Batch.Task job_id container_name file_info edr_solution_name])
    ∧ length tasks = ((U_count results + S_count results) * 3)%nat
    ∧ Forall (λ t, Phase3Batch.job_id t = job_id
                   ∧ Phase3Batch.container_name t = container_name
                   ∧ Phase3Batch.edr_solution_name t ∈ Phase3.edr_clients) tasks.
Proof.
  intros Hperm Hbody. unfold Phase3Batch.test_edr_batch in Hbody.
  apply try_reraise_ok in Hbody.
  apply bind_inv in Hbody as ([] & r1 & Hup & Hbody).
  apply bind_inv in Hbody as (job & r2 & Hjob & Hbody).
  apply (reads_only_ok _ _ _ _ (reads_only_get_job job_id)) in Hjob as Hr2. subst r2.
  apply bind_inv in Hbody as (container_name & r2 & Hcn & Hbody).
  assert (r2 = r1) as ->.
  { destruct job; [apply ret_inv in Hcn as [_ ->]; reflexivity|discriminate]. }
  apply bind_inv in Hbody as (results & r2 & Hres & Hbody).
  assert (r2 = r1) as ->.
  { exact (reads_only_ok _ _ _ _ (reads_only_get_phase_results job_id "phase1") Hres). }
  apply bind_inv in Hbody as (files & r2 & Hplan & Hbody).
  destruct (plan_ok _ _ _ _ _ Hplan) as (-> & -> & Hd & Hh).
  apply ret_inv in Hbody as [-> ->].
  destruct (plan_shape set_order results Hperm Hh)
    as (Hnd & HU & Hrep & _ & Hfiles & Hlen & _).
  exists results, (set_order (originals_of results [])),
    (files_of (set_order (originals_of results [])) results), container_name.
  split.
  { apply (get_phase_results_ext job_id "phase1" r r1 results); [|exact Hres].
    apply (writes_only_update_job _ _ _ _ _ Hup).
    intros Heq. exact (job_key_not_phase_key job_id "phase1" (eq_sym Heq)). }
  split; [exact Hnd|]. split; [exact HU|]. split; [exact Hrep|].
  split; [exact Hfiles|]. split; [reflexivity|]. split.
  { rewrite (length_fan_out _ _ (Phase3Batch.Task job_id container_name)).
    rewrite Hlen. reflexivity. }
  apply Forall_forall. intros t Ht.
  apply list_elem_of_bind in Ht as (fi & Ht & _).
  apply list_elem_of_bind in Ht as (edr & Ht & Hedr).
  apply list_elem_of_singleton in Ht as ->.
  split; [reflexivity|]. split; [reflexivity|exact Hedr].
Qed.

(** A container that cannot be listed: [process_cdr_batch] has set the
    job running, and then marks it failed, records the text of the
    error, and raises the error again; the counters and the Phase-1 list
    are as they were. *)
Theorem unlistable_container_fails_job (r : redis) (job_id container_name : string)
    (now : Z) (e : exn) (total processed failed : Z) (n : nat) :
  counting r job_id total processed failed n →
  Phase1.list_files env container_name = inl e →
  ∃ r', Phase1.process_cdr_batch env job_id container_name None now r = Raise e r'
    ∧ job_field r' job_id "status" = Some (PStr "failed")
    ∧ job_field r' job_id "error" = Some (PStr (str_exn e))
    ∧ counting r' job_id total processed failed n.
Proof.
  intros Hc Hlist. unfold Phase1.process_cdr_batch, try_except, bind at 1.
  match goal with
  | |- context [update_job job_id ?m r] =>
      destruct (counting_update_harmless r job_id m total processed failed n)
        as (r1 & -> & Hc1); [| |exact Hc|]
  end.
  { harmless_patch. }
  { apply (size_nonzero_lookup _ "status" (PStr "running")). patch_lookup.
    reflexivity. }
  unfold bind at 1, call. rewrite Hlist. unfold raise at 1.
  destruct Hc1 as (h & Hk & Hwf & Ht & Hp & Hf & Hl & Hn).
  set (patch := {[ "status" := PStr "failed"; "error" := PStr (str_exn e) ]}
         : gmap string pyval).
  assert (Hst : patch !! "status" = Some (PStr "failed"))
    by (unfold patch; patch_lookup; reflexivity).
  assert (Herr : patch !! "error" = Some (PStr (str_exn e)))
    by (unfold patch; patch_lookup; reflexivity).
  assert (Hharm : harmless patch).
  { unfold patch. harmless_patch. }
  pose proof (harmless_well_formed patch h Hwf Hharm) as Hwf'.
  pose proof (update_job_well_formed r1 job_id h patch Hk
                (size_nonzero_lookup _ _ _ Hst)
                (proj2 (proj2 (proj2 (proj2 (proj2 (proj2 Hharm)))))) Hwf') as Hu.
  unfold bind. fold patch. rewrite Hu. unfold raise.
  eexists. split; [reflexivity|].
  rewrite !job_field_set_record.
  split.
  { rewrite refresh_lookup_ne by discriminate.
    exact (patched_lookup_set patch h "status" (PStr "failed") Hst). }
  split.
  { rewrite refresh_lookup_ne by discriminate.
    exact (patched_lookup_set patch h "error" (PStr (str_exn e)) Herr). }
  destruct Hharm as (Mt & Mp & Mf & _).
  apply counting_set_record.
  - exact Hl.
  - exact Hn.
  - apply refresh_well_formed. exact Hwf'.
  - rewrite refresh_counters by (left; reflexivity).
    rewrite patched_lookup_untouched by exact Mt. exact Ht.
  - rewrite refresh_counters by (right; left; reflexivity).
    rewrite patched_lookup_untouched by exact Mp. exact Hp.
  - rewrite refresh_counters by (right; right; reflexivity).
    rewrite patched_lookup_untouched by exact Mf. exact Hf.
Qed.

End batches.

Lemma test_edr_batch_units_witness :
  ∃ results originals files container_name,
    @JobManager.get_phase_results RefJson.codec "j1" "phase1" Scenario6.after_phase1
    = Ok results Scenario6.after_phase1
    ∧ NoDup (key_of <$> originals)
    ∧ length originals = U_count results
    ∧ (∀ f, f ∈ originals →
         ∃ res, res ∈ results ∧ is_success res = true
                ∧ field res "file_path" = f)
    ∧ files ≡ₚ ((pre_of <$> originals)
                ++ ((λ res, post_of (original_of originals res) res)
                      <$> successes results))%list
    ∧ Scenario13.tasks
      = (file_info ← files;
         edr_solution_name ← Phase3.edr_clients;
         [Phase3Batch.Task "j1" container_name file_info edr_solution_name])
    ∧ length Scenario13.tasks = ((U_count results + S_count results) * 3)%nat
    ∧ Forall (λ t, Phase3Batch.job_id t = "j1"
                   ∧ Phase3Batch.container_name t = container_name
                   ∧ Phase3Batch.edr_solution_name t ∈ Phase3.edr_clients)
        Scenario13.tasks.
Proof.
  apply (test_edr_batch_units (H := RefJson.codec) Scenario6.set_order
           Scenario6.after_phase1 (final_state Scenario13.dispatched) "j1" 900
           Scenario13.tasks (λ l, reverse_Permutation l)).
  vm_compute. reflexivity.
Defined.

(** Two files, five successful Phase-1 results, three EDR solutions:
    twenty-one units. *)
Example twenty_one_edr_units : length Scenario13.tasks = 21%nat.
Proof. vm_compute. reflexivity. Qed.

Lemma unlistable_container_fails_job_witness :
  ∃ r', @Phase1.process_cdr_batch RefJson.codec Scenario13.unlistable "j1"
          "test-files" None 150 Scenario.fresh_job
        = Raise (BackendError "ContainerNotFound") r'
    ∧ job_field r' "j1" "status" = Some (PStr "failed")
    ∧ job_field r' "j1" "error"
      = Some (PStr (str_exn (BackendError "ContainerNotFound")))
    ∧ @counting RefJson.codec r' "j1" 0 0 0 0.
Proof.
  apply (unlistable_container_fails_job (H := RefJson.codec) Scenario13.unlistable
           Scenario.fresh_job "j1" "test-files" 150
           (BackendError "ContainerNotFound") 0 0 0 0 fresh_job_counting).
  reflexivity.
Defined.

(** ** The completion callbacks of Phase 1 and Phase 2 *)

Section callbacks_outcome.
Context `{JsonCodec}.
Import JobManager.

Lemma reads_only_phase_enabled (n : Z) (job : gmap string pyval) :
  reads_only (phase_enabled n job : M redis bool).
Proof.
  unfold phase_enabled.
  destruct (job !! "phases") as [[ | | | | | |[]]|];
    first [apply reads_only_ret|apply reads_only_raise].
Qed.

Lemma reads_only_status_is (s : string) (r : json) :
  reads_only (Phase1.status_is s r).
Proof.
  unfold Phase1.status_is. apply reads_only_bind; [apply reads_only_jget|].
  intros st. apply reads_only_ret.
Qed.

Lemma reads_only_status_in_failed_error (r : json) :
  reads_only (Phase1.status_in_failed_error r).
Proof.
  unfold Phase1.status_in_failed_error.
  apply reads_only_bind; [apply reads_only_jget|]. intros st. apply reads_only_ret.
Qed.

Lemma reads_only_malicious (x : json) : reads_only (Phase2Callback.malicious x).
Proof.
  unfold Phase2Callback.malicious.
  apply reads_only_bind; [apply reads_only_jget|]. intros v. apply reads_only_ret.
Qed.

Lemma reads_only_version_malicious (v : string) (x : json) :
  reads_only (Phase2Callback.version_malicious v x).
Proof.
  unfold Phase2Callback.version_malicious.
  apply reads_only_bind; [apply reads_only_field_is|].
  intros [|]; [apply reads_only_malicious|apply reads_only_ret].
Qed.

(** Counting over dicts does not raise. *)
Lemma count_if_dicts (p : json → M redis bool) (results : list json) (r : redis) :
  (∀ x, is_dict x = true → ∃ b, p x r = Ok b r) →
  Forall (λ x, is_dict x = true) results →
  ∃ n, count_if p results r = Ok n r.
Proof.
  intros Hp. induction 1 as [|x results Hx _ [n IH]]; [by exists 0|].
  cbn [count_if]. unfold bind. destruct (Hp x Hx) as [b ->]. rewrite IH.
  eexists. reflexivity.
Qed.

(** A computation that reads and then comes to a step that raises without
    writing, raises without writing; and when its reads go through, the
    exception is that of the last step. *)
Lemma raises_bind_when {A B} (P : Prop) (e0 : exn) (r : redis)
    (a : M redis A) (k : A → M redis B) :
  reads_only a → (P → ∃ x, a r = Ok x r) →
  (∀ x, ∃ e, k x r = Raise e r ∧ (P → e = e0)) →
  ∃ e, bind a k r = Raise e r ∧ (P → e = e0).
Proof.
  intros Ha Hok Hk. unfold bind. destruct (Ha r) as [[x Hx]|[e He]].
  - rewrite Hx. apply Hk.
  - rewrite He. exists e. split; [reflexivity|].
    intros HP. destruct (Hok HP) as [x Hx]. congruence.
Qed.

Lemma dict_status_is (s : string) (x : json) (r : redis) :
  is_dict x = true → ∃ b, Phase1.status_is s x r = Ok b r.
Proof. destruct x; try discriminate. intros _. eexists. reflexivity. Qed.

Lemma dict_status_in_failed_error (x : json) (r : redis) :
  is_dict x = true → ∃ b, Phase1.status_in_failed_error x r = Ok b r.
Proof. destruct x; try discriminate. intros _. eexists. reflexivity. Qed.

Lemma dict_field_is (k s : string) (x : json) (r : redis) :
  is_dict x = true → ∃ b, Phase3.field_is k s x r = Ok b r.
Proof. destruct x; try discriminate. intros _. eexists. reflexivity. Qed.

Lemma dict_malicious (x : json) (r : redis) :
  is_dict x = true → ∃ b, Phase2Callback.malicious x r = Ok b r.
Proof. destruct x; try discriminate. intros _. eexists. reflexivity. Qed.

Lemma dict_version_malicious (v : string) (x : json) (r : redis) :
  is_dict x = true → ∃ b, Phase2Callback.version_malicious v x r = Ok b r.
Proof.
  intros Hx. unfold Phase2Callback.version_malicious, bind.
  destruct (dict_field_is "version" v x r Hx) as [[|] ->].
  - apply dict_malicious, Hx.
  - eexists. reflexivity.
Qed.

(** A callback whose [try] block raises without writing: the handler
    marks the job failed and nothing is scheduled. *)
Lemma callback_fails (body : M redis bool) (prefix : string) (r : redis)
    (job_id : string) (h : gmap string pyval) (e : exn) :
  data r !! job_key job_id = Some (RHash h) → well_formed h →
  body r = Raise e r →
  ∃ h',
    try_except body
      (λ e, update_job job_id
              {[ "status" := PStr "failed";
                 "error" := PStr (prefix ++ str_exn e) ]} ;;
            ret false) r
    = Ok false (set_record r job_id h')
    ∧ well_formed h'
    ∧ h' !! "status" = Some (PStr "failed")
    ∧ h' !! "error" = Some (PStr (prefix ++ str_exn e))
    ∧ (∀ k, k ≠ "status" → k ≠ "error" → k ≠ "progress_percentage" →
         h' !! k = h !! k).
Proof.
  intros Hk Hwf Hbody. unfold try_except. rewrite Hbody.
  destruct (callback_failed r job_id h (prefix ++ str_exn e) Hk Hwf)
    as (h' & Hu & Hwf' & Hst & Herr & Hrest).
  exists h'. unfold bind. rewrite Hu.
  split; [reflexivity|]. split; [exact Hwf'|]. split; [exact Hst|].
  split; [exact Herr|exact Hrest].
Qed.

(** Such a callback does not return [True], whatever the store holds. *)
Lemma callback_never_schedules (body : M redis bool) (job_id : string)
    (patch : exn → gmap string pyval) (r r' : redis) (e : exn) :
  body r = Raise e r →
  try_except body (λ e, update_job job_id (patch e) ;; ret false) r ≠ Ok true r'.
Proof.
  intros Hbody. unfold try_except. rewrite Hbody. unfold bind.
  destruct (update_job job_id (patch e) r) as [[] r1|e1 r1|r1]; discriminate.
Qed.

(** The Phase-1 callback never schedules Phase 2 and never completes a
    job. Its first write hands [phase1_completed = True] to the client,
    which refuses it, so the [except] clause runs: whatever the store
    holds, the callback does not return [True]; and on a job with a
    well-formed record it returns with nothing scheduled, the job failed
    and the error recorded, and with no field of the record changed but
    these and the progress; no summary is written. When the results are
    dicts the error is that refusal. This holds whatever the phases of the
    job are. *)
Theorem cdr_callback_fails_job (r : redis) (job_id : string) (results : list json) (now : Z) :
  (∀ r', Phase1.on_cdr_batch_complete results job_id now r ≠ Ok true r')
  ∧ (∀ h, data r !! job_key job_id = Some (RHash h) → well_formed h →
     ∃ h' e,
       Phase1.on_cdr_batch_complete results job_id now r
       = Ok false (set_record r job_id h')
       ∧ well_formed h'
       ∧ h' !! "status" = Some (PStr "failed")
       ∧ h' !! "error" = Some (PStr ("Phase 1 completion error: " ++ str_exn e))
       ∧ (∀ k, k ≠ "status" → k ≠ "error" → k ≠ "progress_percentage" →
            h' !! k = h !! k)
       ∧ (Forall (λ x, is_dict x = true) results → e = DataError)).
Proof.
  unfold Phase1.on_cdr_batch_complete. cbv zeta.
  match goal with
  | |- context [try_except ?m _ r] =>
      assert (Hm : ∃ e, m r = Raise e r
                        ∧ (Forall (λ x, is_dict x = true) results → e = DataError))
  end.
  { apply raises_bind_when.
    { apply reads_only_count_if, reads_only_status_is. }
    { apply count_if_dicts. intros x. apply dict_status_is. }
    intros successful. apply raises_bind_when.
    { apply reads_only_count_if, reads_only_status_in_failed_error. }
    { apply count_if_dicts. intros x. apply dict_status_in_failed_error. }
    intros failed. exists DataError. split; [|reflexivity].
    unfold bind at 1.
    rewrite (update_job_refused _ _ _ "phase1_completed" (PBool true));
      [reflexivity|patch_lookup; reflexivity|reflexivity]. }
  destruct Hm as (e & Hbody & He). split.
  { intros r'.
    exact (callback_never_schedules _ job_id
             (λ e, {[ "status" := PStr "failed";
                      "error" := PStr ("Phase 1 completion error: " ++ str_exn e) ]})
             r r' e Hbody). }
  intros h Hk Hwf.
  destruct (callback_fails _ "Phase 1 completion error: " r job_id h e
              Hk Hwf Hbody) as (h' & Hrun & Hwf' & Hst & Herr & Hrest).
  exists h', e. split; [exact Hrun|]. split; [exact Hwf'|]. split; [exact Hst|].
  split; [exact Herr|]. split; [exact Hrest|exact He].
Qed.

(** The Phase-2 callback, likewise, never schedules Phase 3 and never
    completes a job: [phase2_completed = True] is refused and the job is
    left failed. *)
Theorem av_callback_fails_job (r : redis) (job_id : string) (results : list json) (now : Z) :
  (∀ r', Phase2Callback.on_av_batch_complete results job_id now r ≠ Ok true r')
  ∧ (∀ h, data r !! job_key job_id = Some (RHash h) → well_formed h →
     ∃ h' e,
       Phase2Callback.on_av_batch_complete results job_id now r
       = Ok false (set_record r job_id h')
       ∧ well_formed h'
       ∧ h' !! "status" = Some (PStr "failed")
       ∧ h' !! "error" = Some (PStr ("Phase 2 completion error: " ++ str_exn e))
       ∧ (∀ k, k ≠ "status" → k ≠ "error" → k ≠ "progress_percentage" →
            h' !! k = h !! k)
       ∧ (Forall (λ x, is_dict x = true) results → e = DataError)).
Proof.
  unfold Phase2Callback.on_av_batch_complete. cbv zeta.
  match goal with
  | |- context [try_except ?m _ r] =>
      assert (Hm : ∃ e, m r = Raise e r
                        ∧ (Forall (λ x, is_dict x = true) results → e = DataError))
  end.
  { apply raises_bind_when.
    { apply reads_only_count_if. intros x. apply reads_only_field_is. }
    { apply count_if_dicts. intros x. apply dict_field_is. }
    intros successful. apply raises_bind_when.
    { apply reads_only_count_if, reads_only_malicious. }
    { apply count_if_dicts. intros x. apply dict_malicious. }
    intros detections. apply raises_bind_when.
    { apply reads_only_count_if. intros x. apply reads_only_version_malicious. }
    { apply count_if_dicts. intros x. apply dict_version_malicious. }
    intros pre. apply raises_bind_when.
    { apply reads_only_count_if. intros x. apply reads_only_version_malicious. }
    { apply count_if_dicts. intros x. apply dict_version_malicious. }
    intros post. exists DataError. split; [|reflexivity].
    unfold bind at 1.
    rewrite (update_job_refused _ _ _ "phase2_completed" (PBool true));
      [reflexivity|patch_lookup; reflexivity|reflexivity]. }
  destruct Hm as (e & Hbody & He). split.
  { intros r'.
    exact (callback_never_schedules _ job_id
             (λ e, {[ "status" := PStr "failed";
                      "error" := PStr ("Phase 2 completion error: " ++ str_exn e) ]})
             r r' e Hbody). }
  intros h Hk Hwf.
  destruct (callback_fails _ "Phase 2 completion error: " r job_id h e
              Hk Hwf Hbody) as (h' & Hrun & Hwf' & Hst & Herr & Hrest).
  exists h', e. split; [exact Hrun|]. split; [exact Hwf'|]. split; [exact Hst|].
  split; [exact Herr|]. split; [exact Hrest|exact He].
Qed.

End callbacks_outcome.

Lemma cdr_callback_fails_job_witness :
  ∃ h' e,
    @Phase1.on_cdr_batch_complete RefJson.codec
      [Scenario2.cdr_success; Scenario3.cdr_failed] "j1" 400 Scenario.fresh_job
    = Ok false (set_record Scenario.fresh_job "j1" h')
    ∧ @well_formed RefJson.codec h'
    ∧ h' !! "status" = Some (PStr "failed")
    ∧ h' !! "error" = Some (PStr ("Phase 1 completion error: " ++ str_exn e))
    ∧ (∀ k, k ≠ "status" → k ≠ "error" → k ≠ "progress_percentage" →
         h' !! k = Scenario4.fresh_record !! k)
    ∧ (Forall (λ x, is_dict x = true) [Scenario2.cdr_success; Scenario3.cdr_failed] →
       e = DataError).
Proof.
  apply (proj2 (cdr_callback_fails_job (H := RefJson.codec) Scenario.fresh_job "j1"
                  [Scenario2.cdr_success; Scenario3.cdr_failed] 400)
           Scenario4.fresh_record).
  - vm_compute. reflexivity.
  - apply well_formedb_true. vm_compute. reflexivity.
Defined.

Lemma av_callback_fails_job_witness :
  ∃ h' e,
    @Phase2Callback.on_av_batch_complete RefJson.codec
      [JDict [("version", JStr "pre-cdr"); ("status", JStr "success");
              ("is_malicious", JBool true)];
       JDict [("version", JStr "post-cdr"); ("status", JStr "success");
              ("is_malicious", JBool false)]] "j1" 700 Scenario.fresh_job
    = Ok false (set_record Scenario.fresh_job "j1" h')
    ∧ @well_formed RefJson.codec h'
    ∧ h' !! "status" = Some (PStr "failed")
    ∧ h' !! "error" = Some (PStr ("Phase 2 completion error: " ++ str_exn e))
    ∧ (∀ k, k ≠ "status" → k ≠ "error" → k ≠ "progress_percentage" →
         h' !! k = Scenario4.fresh_record !! k)
    ∧ (Forall (λ x, is_dict x = true)
         [JDict [("version", JStr "pre-cdr"); ("status", JStr "success");
                 ("is_malicious", JBool true)];
          JDict [("version", JStr "post-cdr"); ("status", JStr "success");
                 ("is_malicious", JBool false)]] →
       e = DataError).
Proof.
  apply (proj2 (av_callback_fails_job (H := RefJson.codec) Scenario.fresh_job "j1"
                  _ 700)
           Scenario4.fresh_record).
  - vm_compute. reflexivity.
  - apply well_formedb_true. vm_compute. reflexivity.
Defined.

(** The job of the scenarios asks for all three phases and every unit of
    Phase 1 succeeded, yet its Phase-1 callback schedules nothing and
    leaves it failed; so does the Phase-2 callback. *)
Example callbacks_fail_the_job :
  (∃ r', @Phase1.on_cdr_batch_complete RefJson.codec [Scenario2.cdr_success] "j1"
           400 Scenario.fresh_job = Ok false r'
         ∧ job_field r' "j1" "status" = Some (PStr "failed")
         ∧ job_field r' "j1" "phase1_completed" = None)
  ∧ (∃ r', @Phase2Callback.on_av_batch_complete RefJson.codec [] "j1" 700
             Scenario.fresh_job = Ok false r'
           ∧ job_field r' "j1" "status" = Some (PStr "failed")
           ∧ job_field r' "j1" "phase2_completed" = None).
Proof.
  split; (eexists; split; [vm_compute; reflexivity|]; split; vm_compute; reflexivity).
Qed.

(** ** Phase 3: the effectiveness of an EDR solution *)

Section effectiveness.
Import JobManager.

Lemma filter_m_field_is (k s : string) (rs : list json) (r r' : redis)
    (l : list json) :
  Phase3.filter_m (Phase3.field_is k s) rs r = Ok l r' →
  l = List.filter (λ x, is_str (field x k) s) rs ∧ r' = r
  ∧ Forall (λ x, is_dict x = true) rs.
Proof.
  revert l r'. induction rs as [|x rs IH]; intros l r' Hf.
  - cbn [Phase3.filter_m] in Hf. apply ret_inv in Hf as [-> ->].
    split; [reflexivity|]. split; [reflexivity|constructor].
  - cbn [Phase3.filter_m] in Hf.
    apply bind_inv in Hf as (b & r1 & Hb & Hf).
    apply bind_inv in Hf as (rest & r2 & Hrest & Hf).
    pose proof (reads_only_ok _ _ _ _ (reads_only_field_is k s x) Hb) as ->.
    apply IH in Hrest as (-> & -> & Hd). apply ret_inv in Hf as [-> ->].
    assert (Hx : is_dict x = true ∧ b = is_str (field x k) s).
    { unfold Phase3.field_is, bind, jget, jget_default in Hb.
      destruct x; try discriminate. unfold ret in Hb. cbn [field is_dict].
      split; [reflexivity|congruence]. }
    destruct Hx as [Hx Hbx].
    split; [|split; [reflexivity|constructor; assumption]].
    cbn [List.filter]. rewrite <- Hbx. reflexivity.
Qed.

(** The sum of the alert counts, as the generator computes it. *)
Lemma sum_alerts_total (rs : list json) (acc n : Z + Q) (r r' : redis) :
  sum_if Phase3.always Phase3.alert_count_of acc rs r = Ok n r' →
  alerts_total acc rs = Some n ∧ r' = r.
Proof.
  revert acc. induction rs as [|x rs IH]; intros acc Hs.
  - cbn [sum_if] in Hs. apply ret_inv in Hs as [-> ->]. split; reflexivity.
  - cbn [sum_if] in Hs. unfold bind at 1, Phase3.always, ret at 1 in Hs.
    unfold bind at 1, Phase3.alert_count_of, jget_default in Hs.
    destruct x as [| | | | | |d]; try discriminate Hs.
    unfold ret at 1 in Hs. cbn [alerts_total alert_count].
    destruct (to_num (default (JInt 0) (dict_get d "alert_count"))) as [m|];
      [|discriminate Hs].
    apply IH. exact Hs.
Qed.

Lemma alerts_total_sum (rs : list json) (acc n : Z + Q) (r : redis) :
  Forall (λ x, is_dict x = true) rs → alerts_total acc rs = Some n →
  sum_if Phase3.always Phase3.alert_count_of acc rs r = Ok n r.
Proof.
  intros Hd. revert acc. induction Hd as [|x rs Hx _ IH]; intros acc Ht.
  - cbn in Ht. injection Ht as <-. reflexivity.
  - destruct x as [| | | | | |d]; try discriminate Hx.
    cbn [alerts_total alert_count] in Ht. cbn [sum_if].
    unfold bind at 1, Phase3.always, ret at 1.
    unfold bind at 1, Phase3.alert_count_of, jget_default, ret at 1.
    destruct (to_num (default (JInt 0) (dict_get d "alert_count"))) as [m|];
      [|discriminate Ht].
    apply IH. exact Ht.
Qed.

Lemma filter_dicts (p : json → bool) (rs : list json) :
  Forall (λ x, is_dict x = true) rs →
  Forall (λ x, is_dict x = true) (List.filter p rs).
Proof.
  induction 1 as [|x rs Hx _ IH]; [constructor|].
  cbn [List.filter]. destruct (p x); [constructor; assumption|exact IH].
Qed.

Lemma field_is_filter (k s : string) (rs : list json) (r : redis) :
  Forall (λ x, is_dict x = true) rs →
  Phase3.filter_m (Phase3.field_is k s) rs r
  = Ok (List.filter (λ x, is_str (field x k) s) rs) r.
Proof.
  induction 1 as [|x rs Hx _ IH]; [reflexivity|].
  cbn [Phase3.filter_m]. unfold bind at 1.
  destruct x as [| | | | | |d]; try discriminate Hx.
  unfold Phase3.field_is at 1, bind at 1, jget, jget_default, ret at 1, ret at 1.
  unfold bind at 1. rewrite IH. reflexivity.
Qed.

(** [calculate_edr_effectiveness] returns exactly when the results are
    dicts and the alert counts of the pre-CDR and of the post-CDR results
    of the solution are numbers; the store is not touched. Then
    [tests_performed] is the number of results of that solution,
    [pre_cdr_alerts] and [post_cdr_alerts] are the sums of the alert counts
    (0 for a result without one) over its pre-CDR and over its post-CDR
    results, [alert_reduction] is their difference and
    [alert_reduction_pct] that difference as a percentage of the pre-CDR
    sum, or 0 when that sum is not positive: nothing is divided by zero. *)
Theorem effectiveness_of_edr (results : list json) (edr : string)
    (r r' : redis) (out : json) :
  Phase3.calculate_edr_effectiveness results edr r = Ok out r' →
  r' = r
  ∧ Forall (λ x, is_dict x = true) results
  ∧ ∃ pre_alerts post_alerts,
      alerts_total (inl 0)
        (List.filter (of_version "pre-cdr") (List.filter (of_edr edr) results))
      = Some pre_alerts
      ∧ alerts_total (inl 0)
          (List.filter (of_version "post-cdr") (List.filter (of_edr edr) results))
        = Some post_alerts
      ∧ out = JDict
          [("tests_performed",
            JInt (Z.of_nat (length (List.filter (of_edr edr) results))));
           ("pre_cdr_alerts", num_json pre_alerts);
           ("post_cdr_alerts", num_json post_alerts);
           ("alert_reduction", num_json (num_sub pre_alerts post_alerts));
           ("alert_reduction_pct",
            num_json (if num_pos pre_alerts
                      then inr (num_Q (num_sub pre_alerts post_alerts)
                                / num_Q pre_alerts * 100)%Q
                      else inl 0))].
Proof.
  intros Hc. unfold Phase3.calculate_edr_effectiveness in Hc.
  apply bind_inv in Hc as (edr_results & r1 & He & Hc).
  apply bind_inv in Hc as (pre & r2 & Hpre & Hc).
  apply bind_inv in Hc as (post & r3 & Hpost & Hc).
  apply bind_inv in Hc as (pre_alerts & r4 & Hpa & Hc).
  apply bind_inv in Hc as (post_alerts & r5 & Hpo & Hc).
  apply filter_m_field_is in He as (-> & -> & Hd).
  apply filter_m_field_is in Hpre as (-> & -> & _).
  apply filter_m_field_is in Hpost as (-> & -> & _).
  apply sum_alerts_total in Hpa as [Hpa ->].
  apply sum_alerts_total in Hpo as [Hpo ->].
  apply ret_inv in Hc as [-> ->].
  split; [reflexivity|]. split; [exact Hd|].
  exists pre_alerts, post_alerts.
  split; [exact Hpa|]. split; [exact Hpo|]. reflexivity.
Qed.

(** The converse: on dicts whose alert counts are numbers the function
    returns. *)
Lemma effectiveness_returns (results : list json) (edr : string) (r : redis)
    (pre_alerts post_alerts : Z + Q) :
  Forall (λ x, is_dict x = true) results →
  alerts_total (inl 0)
    (List.filter (of_version "pre-cdr") (List.filter (of_edr edr) results))
  = Some pre_alerts →
  alerts_total (inl 0)
    (List.filter (of_version "post-cdr") (List.filter (of_edr edr) results))
  = Some post_alerts →
  ∃ out, Phase3.calculate_edr_effectiveness results edr r = Ok out r.
Proof.
  intros Hd Hpa Hpo. unfold Phase3.calculate_edr_effectiveness.
  unfold bind at 1. rewrite (field_is_filter _ _ _ _ Hd).
  fold (of_edr edr).
  pose proof (filter_dicts (of_edr edr) results Hd) as Hd1.
  unfold bind at 1. rewrite (field_is_filter _ _ _ _ Hd1).
  unfold bind at 1. rewrite (field_is_filter _ _ _ _ Hd1).
  fold (of_version "pre-cdr"). fold (of_version "post-cdr").
  unfold bind at 1.
  rewrite (alerts_total_sum _ _ _ r (filter_dicts _ _ Hd1) Hpa).
  unfold bind at 1.
  rewrite (alerts_total_sum _ _ _ r (filter_dicts _ _ Hd1) Hpo).
  eexists. reflexivity.
Qed.

End effectiveness.

Lemma effectiveness_of_edr_witness :
  Redis ∅ ∅ = Redis ∅ ∅
  ∧ Forall (λ x, is_dict x = true) Scenario14.edr_results
  ∧ ∃ pre_alerts post_alerts,
      alerts_total (inl 0)
        (List.filter (of_version "pre-cdr")
           (List.filter (of_edr "crowdstrike") Scenario14.edr_results))
      = Some pre_alerts
      ∧ alerts_total (inl 0)
          (List.filter (of_version "post-cdr")
             (List.filter (of_edr "crowdstrike") Scenario14.edr_results))
        = Some post_alerts
      ∧ Scenario14.crowdstrike = JDict
          [("tests_performed",
            JInt (Z.of_nat (length (List.filter (of_edr "crowdstrike")
                                      Scenario14.edr_results))));
           ("pre_cdr_alerts", num_json pre_alerts);
           ("post_cdr_alerts", num_json post_alerts);
           ("alert_reduction", num_json (num_sub pre_alerts post_alerts));
           ("alert_reduction_pct",
            num_json (if num_pos pre_alerts
                      then inr (num_Q (num_sub pre_alerts post_alerts)
                                / num_Q pre_alerts * 100)%Q
                      else inl 0))].
Proof.
  apply (effectiveness_of_edr Scenario14.edr_results "crowdstrike" (Redis ∅ ∅)
           (Redis ∅ ∅) Scenario14.crowdstrike).
  vm_compute. reflexivity.
Defined.

(** CrowdStrike in the scenario: two tests, 4 alerts before CDR and 1
    after, a reduction of 3, which is 75 percent. SentinelOne has a
    pre-CDR test only. *)
Example effectiveness_of_two_solutions :
  Phase3.calculate_edr_effectiveness Scenario14.edr_results "crowdstrike"
    (Redis ∅ ∅) = Ok Scenario14.crowdstrike (Redis ∅ ∅)
  ∧ Phase3.calculate_edr_effectiveness Scenario14.edr_results "sentinelone"
      (Redis ∅ ∅)
    = Ok (JDict [("tests_performed", JInt 1); ("pre_cdr_alerts", JInt 2);
                 ("post_cdr_alerts", JInt 0); ("alert_reduction", JInt 2);
                 ("alert_reduction_pct", JFloat (200 # 2))]) (Redis ∅ ∅)
  ∧ Phase3.calculate_edr_effectiveness Scenario14.edr_results "sophos"
      (Redis ∅ ∅)
    = Ok (JDict [("tests_performed", JInt 0); ("pre_cdr_alerts", JInt 0);
                 ("post_cdr_alerts", JInt 0); ("alert_reduction", JInt 0);
                 ("alert_reduction_pct", JInt 0)]) (Redis ∅ ∅).
Proof. split; [|split]; vm_compute; reflexivity. Qed.

(** ** The entry point *)

Section create_batch.
Context `{JsonCodec}.
Variable apply_async : ApiBatch.dispatch → exn + unit.
Import JobManager ApiBatch.

(** [POST /api/jobs/batch] answers every request with a 500. Its first
    step is [create_job], which raises [DataError] (see
    [create_job_refused]); the handler of the endpoint turns that into an
    [HTTPException] with status 500. So whatever the request, the id, the
    store and the broker: no job record is written, the id is not listed,
    and nothing is handed to the broker, with phase 1 requested or not. *)
Theorem create_batch_job_answers_500 (job_id : string) (request : BatchJobRequest)
    (now : Z) (r : redis) :
  create_batch_job apply_async job_id request now r
  = Raise (HTTPException 500) r
  ∧ (data r !! job_key job_id = None →
     get_job job_id
       (final_state (create_batch_job apply_async job_id request now r))
     = Ok None r)
  ∧ recent_jobs (final_state (create_batch_job apply_async job_id request now r))
    = recent_jobs r.
Proof.
  assert (Hrun : create_batch_job apply_async job_id request now r
                 = Raise (HTTPException 500) r).
  { unfold create_batch_job, try_except, bind at 1.
    rewrite create_job_refused. reflexivity. }
  rewrite Hrun. cbn [final_state].
  split; [reflexivity|]. split; [apply get_job_missing|reflexivity].
Qed.

End create_batch.

(** With the broker up or down, with phase 1 requested or not, the
    request is answered with a 500 and the store stays empty. *)
Example batch_requests :
  @ApiBatch.create_batch_job RefJson.codec Scenario14.broker_up "j1"
    Scenario14.all_phases 100 (Redis ∅ ∅) = Raise (HTTPException 500) (Redis ∅ ∅)
  ∧ @ApiBatch.create_batch_job RefJson.codec Scenario14.broker_up "j1"
      Scenario14.late_phases 100 (Redis ∅ ∅) = Raise (HTTPException 500) (Redis ∅ ∅)
  ∧ @ApiBatch.create_batch_job RefJson.codec Scenario14.broker_down "j1"
      Scenario14.all_phases 100 (Redis ∅ ∅) = Raise (HTTPException 500) (Redis ∅ ∅).
Proof. split; [|split]; vm_compute; reflexivity. Qed.

(** ** Phase 2: what a result says of its file *)

Section av_unit_entry.
Context `{JsonCodec}.
Variable env : Phase2Unit.adapters.
Import JobManager.

Ltac entry_key :=
  first [ rewrite dict_get_update_other
            by (repeat (constructor; [cbn [fst]; str_ne|]); constructor);
          reflexivity ].

(** The result of an AV unit carries the path and the version of its file
    entry, and for [cdr_engine] and [original_file] what the entry holds
    under these keys, [None] when it holds nothing. The pre-CDR entries of
    the plan have no [original_file], so the results of the pre-CDR scans
    have [original_file] [None]: only the post-CDR results name the file
    they come from. *)
Theorem av_result_echoes_entry (r r' : redis) (job_id : string)
    (container_name : pyval) (d res : list (string * json))
    (file_path version : json) (av : string) (started ended : Z) :
  dict_get d "file_path" = Some file_path → dict_get d "version" = Some version →
  Phase2Unit.scan_single_file_av env job_id container_name (JDict d) av
    started ended r = Ok (JDict res) r' →
  dict_get res "job_id" = Some (JStr job_id)
  ∧ dict_get res "file_path" = Some file_path
  ∧ dict_get res "version" = Some version
  ∧ dict_get res "cdr_engine" = Some (default JNull (dict_get d "cdr_engine"))
  ∧ dict_get res "original_file" = Some (default JNull (dict_get d "original_file"))
  ∧ dict_get res "av_engine_name" = Some (JStr av)
  ∧ (∀ f, d = [("file_path", f); ("version", JStr "pre-cdr"); ("cdr_engine", JNull)] →
       dict_get res "original_file" = Some JNull).
Proof.
  intros Hfp Hver Hrun.
  assert (Hecho :
    dict_get res "job_id" = Some (JStr job_id)
    ∧ dict_get res "file_path" = Some file_path
    ∧ dict_get res "version" = Some version
    ∧ dict_get res "cdr_engine" = Some (default JNull (dict_get d "cdr_engine"))
    ∧ dict_get res "original_file" = Some (default JNull (dict_get d "original_file"))
    ∧ dict_get res "av_engine_name" = Some (JStr av)).
  { unfold Phase2Unit.scan_single_file_av in Hrun.
    unfold bind at 1 2 3 4, Phase3.jitem in Hrun. rewrite Hfp, Hver in Hrun.
    unfold jget, jget_default, ret at 1 2 3 4 in Hrun.
    set (result0 := [_; _; _; _; _; _; _; _]) in Hrun.
    apply bind_inv in Hrun as (a & r1 & Hatt & Hrun).
    unfold attempt in Hatt.
    destruct (Phase2Unit.scan_unit env container_name file_path av result0 ended r)
      as [res1 r0|e r0|r0] eqn:Hscan; [| |discriminate].
    - assert (a = inr res1) as -> by congruence.
      unfold Phase2Unit.scan_unit in Hscan.
      apply bind_inv in Hscan as (local & r2 & _ & Hscan).
      apply bind_inv in Hscan as ([] & r3 & _ & Hscan).
      apply bind_inv in Hscan as (sr & r4 & _ & Hscan).
      apply ret_inv in Hscan as [-> _].
      unfold try_except in Hrun.
      destruct (bind (add_file_result _ _ _) _ r1) as [x rx|e rx|rx] eqn:Hadd.
      + apply bind_inv in Hadd as ([] & ry & _ & Hadd).
        apply ret_inv in Hadd as [-> _].
        assert (res = dict_update result0
                        [("status", JStr "success");
                         ("is_malicious", Phase2Unit.is_malicious sr);
                         ("threat_name", Phase2Unit.threat_name sr);
                         ("confidence", Phase2Unit.confidence sr);
                         ("scan_time_ms", Phase2Unit.scan_time_ms sr);
                         ("engine_version", Phase2Unit.engine_version sr);
                         ("end_time", JStr (isoformat ended))]) as -> by congruence.
        repeat split; entry_key.
      + unfold Phase2Unit.unit_failed in Hrun.
        apply bind_inv in Hrun as ([] & ry & _ & Hrun).
        apply ret_inv in Hrun as [Hres _].
        assert (res = dict_update
                        (dict_update result0
                           [("status", JStr "success");
                            ("is_malicious", Phase2Unit.is_malicious sr);
                            ("threat_name", Phase2Unit.threat_name sr);
                            ("confidence", Phase2Unit.confidence sr);
                            ("scan_time_ms", Phase2Unit.scan_time_ms sr);
                            ("engine_version", Phase2Unit.engine_version sr);
                            ("end_time", JStr (isoformat ended))])
                        [("status", JStr "error"); ("error", JStr (str_exn e));
                         ("end_time", JStr (isoformat ended))]) as -> by congruence.
        repeat split;
          (rewrite dict_get_update_other
             by (repeat (constructor; [cbn [fst]; str_ne|]); constructor));
          entry_key.
      + discriminate.
    - assert (a = inl e) as -> by congruence.
      unfold Phase2Unit.unit_failed in Hrun.
      apply bind_inv in Hrun as ([] & ry & _ & Hrun).
      apply ret_inv in Hrun as [Hres _].
      assert (res = dict_update result0
                      [("status", JStr "error"); ("error", JStr (str_exn e));
                       ("end_time", JStr (isoformat ended))]) as -> by congruence.
      repeat split; entry_key. }
  destruct Hecho as (H1 & H2 & H3 & H4 & H5 & H6).
  repeat (split; [assumption|]).
  intros f ->. rewrite H5. reflexivity.
Qed.

End av_unit_entry.

Lemma av_result_echoes_entry_witness :
  ∃ res r',
    @Phase2Unit.scan_single_file_av RefJson.codec Scenario12.scanner "j1"
      (PStr "test-files") (JDict Scenario12.pre_cdr_file) "opswat" 200 210
      Scenario.fresh_job = Ok (JDict res) r'
    ∧ dict_get res "file_path" = Some (JStr "a.pdf")
    ∧ dict_get res "version" = Some (JStr "pre-cdr")
    ∧ dict_get res "original_file" = Some JNull.
Proof.
  destruct (@Phase2Unit.scan_single_file_av RefJson.codec Scenario12.scanner "j1"
              (PStr "test-files") (JDict Scenario12.pre_cdr_file) "opswat" 200 210
              Scenario.fresh_job) as [[| | | | | |res] r'|e r'|r'] eqn:E;
    try (exfalso;
         apply (f_equal (λ o, match o with
                              | Ok (JDict _) _ => true
                              | _ => false
                              end)) in E;
         vm_compute in E; discriminate E).
  exists res, r'. split; [reflexivity|].
  destruct (av_result_echoes_entry (H := RefJson.codec) Scenario12.scanner
              Scenario.fresh_job r' "j1" (PStr "test-files")
              Scenario12.pre_cdr_file res (JStr "a.pdf") (JStr "pre-cdr")
              "opswat" 200 210 eq_refl eq_refl E)
    as (_ & Hf & Hv & _ & _ & _ & Ho).
  split; [exact Hf|]. split; [exact Hv|].
  apply (Ho (JStr "a.pdf")). reflexivity.
Defined.


(** ** Retention: what carries a time to live *)

Section retention_claim.
Context `{JsonCodec}.
Import JobManager.

Lemma update_progress_ttl (job_id : string) (r : redis) :
  ttl (final_state (update_progress job_id r)) = ttl r.
Proof.
  unfold update_progress. apply bind_ttl.
  { intros r0. apply reads_only_ttl, reads_only_get_job. }
  intros [job|] r0; [|reflexivity].
  apply bind_ttl; [intros r1; apply reads_only_ttl, reads_only_getitem|].
  intros total r1.
  apply bind_ttl; [intros r2; apply reads_only_ttl, reads_only_as_int|].
  intros total' r2. destruct (decide _); [|reflexivity].
  apply bind_ttl; [intros r3; apply reads_only_ttl, reads_only_getitem|].
  intros processed r3.
  apply bind_ttl; [intros r4; apply reads_only_ttl, reads_only_as_int|].
  intros processed' r4. apply hset_ttl.
Qed.

(** C8, as the code has it. No write of the job store puts a time to
    live on a per-phase result list or on the list of recent jobs:
    [create_job] touches no time to live but that of the record
    [job:<id>], and [add_file_result], [update_job] and the two counter
    increments touch none. So a record whose time to live has elapsed is
    gone and [get_job] finds nothing, before that it is there, and a list
    without a time to live, as the per-phase result lists and the list of
    recent jobs are, is never removed by the passing of time. *)
Theorem ttl_on_job_record_only (r : redis) (job_id container_name : string)
    (file_paths : option (list string)) (phases : list Z) (priority : string)
    (now : Z) :
  (∀ k, k ≠ job_key job_id →
     ttl (final_state
            (create_job job_id container_name file_paths phases priority now r))
       !! k = ttl r !! k)
  ∧ (∀ phase result,
       ttl (final_state (add_file_result job_id phase result r)) = ttl r)
  ∧ (∀ updates, ttl (final_state (update_job job_id updates r)) = ttl r)
  ∧ ttl (final_state (increment_processed job_id r)) = ttl r
  ∧ ttl (final_state (increment_failed job_id r)) = ttl r
  ∧ (∀ left d, ttl r !! job_key job_id = Some left → left ≤ d →
       get_job job_id (elapse d r) = Ok None (elapse d r))
  ∧ (∀ left d, ttl r !! job_key job_id = Some left → d < left →
       job_record (elapse d r) job_id = job_record r job_id)
  ∧ (∀ d phase, ttl r !! phase_key job_id phase = None →
       phase_list (elapse d r) job_id phase = phase_list r job_id phase)
  ∧ (∀ d, ttl r !! jobs_list = None →
       data (elapse d r) !! jobs_list = data r !! jobs_list).
Proof.
  split.
  { intros k _. by rewrite create_job_refused. }
  split.
  { intros phase result. unfold add_file_result. apply rpush_ttl. }
  split.
  { intros updates. unfold update_job. apply bind_ttl.
    - intros r0. apply hset_ttl.
    - intros _ r0. apply update_progress_ttl. }
  assert (Hip : ∀ r0, ttl (final_state (increment_processed job_id r0)) = ttl r0).
  { intros r0. unfold increment_processed. apply bind_ttl.
    - intros r1. apply hincrby_ttl.
    - intros _ r1. apply update_progress_ttl. }
  split; [apply Hip|]. split.
  { unfold increment_failed. apply bind_ttl.
    - intros r1. apply hincrby_ttl.
    - intros _ r1. apply Hip. }
  split.
  { intros left d Hl Hd. apply get_job_missing. by apply (elapse_drops r d left). }
  split.
  { intros left d Hl Hd. unfold job_record. by rewrite (elapse_not_yet r d left). }
  split.
  { intros d phase Hnone. unfold phase_list. by rewrite elapse_keeps. }
  intros d Hnone. by apply elapse_keeps.
Qed.

End retention_claim.

(** C8 fails as stated: [add_file_result] writes a per-phase result list
    without a time to live, on an empty store as on the store of a job
    whose record has seven days to live; eight days on, that record is
    gone but the result list and the entry in the list of recent jobs are
    still there. *)
Lemma result_list_outlives_ttl :
  ttl (final_state (@JobManager.add_file_result RefJson.codec "j1" "phase1"
                      Scenario2.cdr_success (Redis ∅ ∅)))
    !! JobManager.phase_key "j1" "phase1" = None
  ∧ ttl Scenario.fresh_job !! JobManager.job_key "j1" = Some 604800
  ∧ ttl Scenario2.with_result !! JobManager.phase_key "j1" "phase1" = None
  ∧ ttl Scenario2.with_result !! JobManager.jobs_list = None
  ∧ @JobManager.get_job RefJson.codec "j1" Scenario2.eight_days_on
    = Ok None Scenario2.eight_days_on
  ∧ @JobManager.get_phase_results RefJson.codec "j1" "phase1" Scenario2.eight_days_on
    = Ok [Scenario2.cdr_success] Scenario2.eight_days_on
  ∧ data Scenario2.eight_days_on !! JobManager.jobs_list = Some (RList ["j1"]).
Proof. vm_compute. repeat split; reflexivity. Qed.

(** ** Records per unit *)

Section records_per_unit.
Context `{JsonCodec}.
Variable cdr : Phase1.adapters.
Variable av : Phase2Unit.adapters.
Variable edr : Phase3.adapters.
Variable cloud : VMPool.azure.
Variable max_vm_uses : Z.
Variable base_images : gmap string string.
Variable azure_resource_group : string.
Import JobManager.


End records_per_unit.


(** ** Cancelling a job whose record lacks its counters *)


